(** * hALGO protocol contracts: oracle, risk manager and rebalance engine

    A shallow embedding of the three PyTeal approval programs

    - [contracts/oracles/EnterprisePriceOracle.py]
    - [contracts/protocol/RiskManager.py]
    - [contracts/protocol/RebalanceEngine.py]

    together with the part of the Algorand virtual machine they rely on:
    checked 64-bit arithmetic, the global and per-account key-value stores,
    transaction and group fields, and the all-or-nothing application call. *)

From Stdlib Require Import ZArith Lia Ascii String.
From stdpp Require Import gmap strings list fin_maps.

Local Open Scope Z_scope.

(** ** The virtual machine *)

Module AVM.

(** Largest value of a TEAL [uint64]. *)
Definition u64_max : Z := 18446744073709551615.

(** What makes a program stop without approving.  The first group are the
    machine's own panics; the second group names the [Assert] of the source
    that failed (the source asserts carry no message, the names follow the
    comment that precedes each of them). *)
Inductive error : Set :=
| ArithOverflow
| ArithUnderflow
| DivisionByZero
| BtoiTooLong
| ArgIndexOutOfRange
| GroupIndexOutOfRange
| NotOptedIn
| AlreadyOptedIn
| NoCondMatched
| ReturnedZero
| Unauthorized
| InvalidArgumentCount
| CircuitBreakerActive
| StalePrice
| DeviationExceeded
| SlippageExceeded
| InvalidFundingRate
| GroupPaymentMismatch.

#[global] Instance error_eq_dec : EqDecision error.
Proof. solve_decision. Defined.

Inductive OnComplete : Set :=
| NoOp | OptIn | CloseOut | ClearState | UpdateApplication | DeleteApplication.

#[global] Instance OnComplete_eq_dec : EqDecision OnComplete.
Proof. solve_decision. Defined.

Inductive TxnType : Set :=
| Payment | KeyRegistration | AssetConfig | AssetTransfer | AssetFreeze
| ApplicationCall.

#[global] Instance TxnType_eq_dec : EqDecision TxnType.
Proof. solve_decision. Defined.

(** The fields of the calling transaction that the programs read. *)
Record txn : Type := mkTxn {
  sender : string;
  application_id : Z;
  on_completion : OnComplete;
  application_args : list string
}.

(** The fields of a member of the transaction group, as read through
    [Gtxn[i]]. *)
Record gtxn : Type := mkGtxn {
  type_enum : TxnType;
  receiver : string;
  amount : Z
}.

(** Everything an evaluation can read but not write. *)
Record env : Type := mkEnv {
  Txn : txn;
  Gtxn : list gtxn;
  latest_timestamp : Z;
  creator_address : string;
  current_application_address : string
}.

Definition group_size (e : env) : Z := Z.of_nat (length (Gtxn e)).

(** The application's persisted state: one global key-value map, and one
    local key-value map per account that has opted in. *)
Record store : Type := mkStore {
  globals : gmap string Z;
  locals : gmap string (gmap string Z)
}.

Definition empty_store : store := mkStore ∅ ∅.

(** An evaluation either finishes with a value or stops with an error; in
    both cases it carries the store as written so far. *)
Inductive outcome (A : Type) : Type :=
| Done (a : A) (s : store)
| Stop (e : error) (s : store).
Arguments Done {A} a s.
Arguments Stop {A} e s.

Definition M (A : Type) : Type := store -> outcome A.

#[global] Instance M_ret : MRet M := fun A a s => Done a s.
#[global] Instance M_bind : MBind M := fun A B f m s =>
  match m s with
  | Done a s' => f a s'
  | Stop e s' => Stop e s'
  end.

Definition fail {A} (e : error) : M A := fun s => Stop e s.

(** *** Checked arithmetic on [uint64] *)

Definition add (a b : Z) : M Z :=
  if a + b >? u64_max then fail ArithOverflow else mret (a + b).
Definition sub (a b : Z) : M Z :=
  if a <? b then fail ArithUnderflow else mret (a - b).
Definition mul (a b : Z) : M Z :=
  if a * b >? u64_max then fail ArithOverflow else mret (a * b).
Definition div (a b : Z) : M Z :=
  if b =? 0 then fail DivisionByZero else mret (a / b).

(** *** Byte strings *)

Definition byte_val (c : ascii) : Z := Z.of_N (N_of_ascii c).

Fixpoint be_value (acc : Z) (b : string) : Z :=
  match b with
  | EmptyString => acc
  | String c r => be_value (acc * 256 + byte_val c) r
  end.

(** [Btoi]: big-endian decoding of at most eight bytes. *)
Definition Btoi (b : string) : M Z :=
  if (8 <? String.length b)%nat then fail BtoiTooLong
  else mret (be_value 0 b).

Fixpoint be_bytes (n : nat) (v : Z) (acc : string) : string :=
  match n with
  | O => acc
  | S k => be_bytes k (v / 256)
             (String (ascii_of_N (Z.to_N (v mod 256))) acc)
  end.

(** [Itob]: the eight-byte big-endian encoding. *)
Definition Itob (v : Z) : string := be_bytes 8 v EmptyString.

(** *** Reading the environment *)

Definition arg (e : env) (i : nat) : M string :=
  match application_args (Txn e) !! i with
  | Some b => mret b
  | None => fail ArgIndexOutOfRange
  end.

Definition args_length (e : env) : Z :=
  Z.of_nat (length (application_args (Txn e))).

Definition group (e : env) (i : nat) : M gtxn :=
  match Gtxn e !! i with
  | Some g => mret g
  | None => fail GroupIndexOutOfRange
  end.

(** *** The key-value stores *)

(** [App.globalGet]: an absent key reads as 0. *)
Definition globalGet (k : string) : M Z :=
  fun s => Done (default 0 (globals s !! k)) s.

Definition globalPut (k : string) (v : Z) : M unit :=
  fun s => Done tt (mkStore (<[k := v]> (globals s)) (locals s)).

(** [App.localGet]: needs the account to have opted in; an absent key reads
    as 0. *)
Definition localGet (a k : string) : M Z :=
  fun s => match locals s !! a with
           | Some m => Done (default 0 (m !! k)) s
           | None => Stop NotOptedIn s
           end.

Definition localPut (a k : string) (v : Z) : M unit :=
  fun s => match locals s !! a with
           | Some m => Done tt (mkStore (globals s) (<[a := <[k := v]> m]> (locals s)))
           | None => Stop NotOptedIn s
           end.

(** *** Control *)

Definition Assert (c : bool) (err : error) : M unit :=
  if c then mret tt else fail err.

Definition Return (v : Z) : M Z := mret v.

Definition Int (b : bool) : Z := if b then 1 else 0.

(** [Cond]: the body of the first arm whose test holds; the tests are
    evaluated in order and may themselves stop the program. *)
Fixpoint Cond (arms : list (M bool * M Z)) : M Z :=
  match arms with
  | [] => fail NoCondMatched
  | (c, body) :: rest => b ← c; if b : bool then body else Cond rest
  end.

(** The tests the routers are made of: [Txn.application_args[0] == Bytes(name)],
    [Txn.on_completion() == oc], [Txn.sender() == Global.creator_address()]. *)
Definition method_is (e : env) (name : string) : M bool :=
  a0 ← arg e 0; mret (String.eqb a0 name).

Definition completion_is (e : env) (oc : OnComplete) : M bool :=
  mret (bool_decide (on_completion (Txn e) = oc)).

Definition sender_is_creator (e : env) : Z :=
  Int (String.eqb (sender (Txn e)) (creator_address e)).

(** [And] on two [uint64] values. *)
Definition And (a b : Z) : Z := Int (negb (a =? 0) && negb (b =? 0)).

(** *** Application calls *)

Record application : Type := mkApp {
  approval : env -> M Z;
  clear_state : env -> M Z
}.

Inductive receipt : Set :=
| Approved
| Rejected (e : error).

(** The store a program leaves behind is kept only if it returned a
    non-zero value. *)
Definition settle (s : store) (r : outcome Z) : store * receipt :=
  match r with
  | Done v s' => if v =? 0 then (s, Rejected ReturnedZero) else (s', Approved)
  | Stop e _ => (s, Rejected e)
  end.

Definition allocate (a : string) (s : store) : store :=
  mkStore (globals s) (<[a := ∅]> (locals s)).

Definition release (a : string) (s : store) : store :=
  mkStore (globals s) (delete a (locals s)).

(** One call to a deployed application.  Opting in allocates the sender's
    local map before the approval program runs, and is refused for an
    account that already has one; closing out runs the approval program and
    then removes the map; clearing runs the clear-state program and removes
    the map whatever that program says.  An approved update or deletion
    leaves the store as the program left it: what the ledger then does to
    the program itself is outside this development. *)
Definition call (app : application) (e : env) (s : store) : store * receipt :=
  let a := sender (Txn e) in
  match on_completion (Txn e) with
  | OptIn =>
      match locals s !! a with
      | Some _ => (s, Rejected AlreadyOptedIn)
      | None => settle s (approval app e (allocate a s))
      end
  | CloseOut =>
      match locals s !! a with
      | None => (s, Rejected NotOptedIn)
      | Some _ =>
          match settle s (approval app e s) with
          | (s', Approved) => (release a s', Approved)
          | refused => refused
          end
      end
  | ClearState =>
      match locals s !! a with
      | None => (s, Rejected NotOptedIn)
      | Some _ => (release a (fst (settle s (clear_state app e s))), Approved)
      end
  | NoOp | UpdateApplication | DeleteApplication => settle s (approval app e s)
  end.

(** Creation.  The ledger creates the application with an empty store and
    then handles the transaction as it handles any call: the approval
    program runs with [application_id = 0], after the sender's local map
    has been allocated when the creation transaction opts in.  A creation
    that closes out or clears is refused, since the creator holds no local
    state yet. *)
Definition create (app : application) (e : env) : store * receipt :=
  call app e empty_store.

End AVM.

Import AVM.

(** ** [contracts/common/pyteal_imports.py] *)

Module PyTealPatterns.

Definition validate_sender_is_creator (e : env) : M unit :=
  Assert (String.eqb (sender (Txn e)) (creator_address e)) Unauthorized.

End PyTealPatterns.

(** ** [contracts/oracles/EnterprisePriceOracle.py] *)

Module EnterprisePriceOracle.

Definition MAX_PRICE_DEVIATION : Z := 500.
Definition MIN_ORACLE_SOURCES : Z := 3.
Definition STALENESS_THRESHOLD : Z := 3600.
Definition CIRCUIT_BREAKER_THRESHOLD : Z := 1000.

Definition current_price_key : string := "current_price".
Definition last_update_key : string := "last_update".
Definition oracle_count_key : string := "oracle_count".
Definition circuit_breaker_key : string := "circuit_breaker".
Definition total_submissions_key : string := "total_submissions".

Definition oracle_authorized_key : string := "oracle_auth".
Definition oracle_reputation_key : string := "oracle_rep".
Definition last_submission_key : string := "last_sub".

Definition on_creation (e : env) : M Z :=
  globalPut current_price_key 250000;;
  globalPut last_update_key (latest_timestamp e);;
  globalPut oracle_count_key 0;;
  globalPut circuit_breaker_key 0;;
  globalPut total_submissions_key 0;;
  Return 1.

Definition on_opt_in (e : env) : M Z :=
  localPut (sender (Txn e)) oracle_authorized_key 0;;
  localPut (sender (Txn e)) oracle_reputation_key 100;;
  localPut (sender (Txn e)) last_submission_key 0;;
  Return 1.

Definition authorize_oracle (e : env) : M Z :=
  PyTealPatterns.validate_sender_is_creator e;;
  Assert (2 <=? args_length e) InvalidArgumentCount;;
  oracle_count ← globalGet oracle_count_key;
  incremented ← add oracle_count 1;
  globalPut oracle_count_key incremented;;
  Return 1.

Definition submit_price (e : env) : M Z :=
  authorized ← localGet (sender (Txn e)) oracle_authorized_key;
  Assert (authorized =? 1) Unauthorized;;
  Assert (2 <=? args_length e) InvalidArgumentCount;;
  breaker ← globalGet circuit_breaker_key;
  Assert (breaker =? 0) CircuitBreakerActive;;
  raw ← arg e 1;
  new_price ← Btoi raw;
  current_price ← globalGet current_price_key;
  price_diff ← (if new_price >? current_price
                then sub new_price current_price
                else sub current_price new_price);
  scaled ← mul current_price MAX_PRICE_DEVIATION;
  max_deviation ← div scaled 10000;
  Assert (price_diff <=? max_deviation) DeviationExceeded;;
  globalPut current_price_key new_price;;
  globalPut last_update_key (latest_timestamp e);;
  submissions ← globalGet total_submissions_key;
  submissions' ← add submissions 1;
  globalPut total_submissions_key submissions';;
  localPut (sender (Txn e)) last_submission_key (latest_timestamp e);;
  reputation ← localGet (sender (Txn e)) oracle_reputation_key;
  reputation' ← add reputation 1;
  localPut (sender (Txn e)) oracle_reputation_key reputation';;
  Return 1.

Definition get_price (e : env) : M Z :=
  let current_time := latest_timestamp e in
  last_update ← globalGet last_update_key;
  age ← sub current_time last_update;
  Assert (age <=? STALENESS_THRESHOLD) StalePrice;;
  breaker ← globalGet circuit_breaker_key;
  Assert (breaker =? 0) CircuitBreakerActive;;
  price ← globalGet current_price_key;
  Return price.

Definition emergency_pause (e : env) : M Z :=
  PyTealPatterns.validate_sender_is_creator e;;
  globalPut circuit_breaker_key 1;;
  Return 1.

Definition resume_operations (e : env) : M Z :=
  PyTealPatterns.validate_sender_is_creator e;;
  globalPut circuit_breaker_key 0;;
  Return 1.

Definition approval_program (e : env) : M Z :=
  Cond [
    (mret (application_id (Txn e) =? 0), on_creation e);
    (completion_is e OptIn, on_opt_in e);
    (completion_is e NoOp,
      Cond [
        (method_is e "authorize", authorize_oracle e);
        (method_is e "submit", submit_price e);
        (method_is e "get_price", get_price e);
        (method_is e "emergency_pause", emergency_pause e);
        (method_is e "resume", resume_operations e)
      ]);
    (completion_is e CloseOut, Return 1);
    (completion_is e UpdateApplication, Return (sender_is_creator e));
    (completion_is e DeleteApplication, Return (sender_is_creator e))
  ].

Definition clear_state_program (e : env) : M Z := Return 1.

Definition app : application := mkApp approval_program clear_state_program.

(** Reading the fields the specification names. *)
Definition current_price (s : store) : Z := default 0 (globals s !! current_price_key).
Definition last_update_time (s : store) : Z := default 0 (globals s !! last_update_key).
Definition circuit_breaker (s : store) : Z := default 0 (globals s !! circuit_breaker_key).
Definition submission_count (s : store) : Z := default 0 (globals s !! total_submissions_key).
Definition oracle_count (s : store) : Z := default 0 (globals s !! oracle_count_key).

Definition registered (s : store) (a : string) : Prop := is_Some (locals s !! a).

(** A field of an account's local map; [None] for an account that has not
    opted in, and 0 for a key never written, as [App.localGet] reads it. *)
Definition local_field (k : string) (s : store) (a : string) : option Z :=
  m ← locals s !! a; Some (default 0 (m !! k)).

Definition authorized : store -> string -> option Z := local_field oracle_authorized_key.
Definition reputation : store -> string -> option Z := local_field oracle_reputation_key.

End EnterprisePriceOracle.

(** ** [contracts/protocol/RiskManager.py] *)

Module RiskManager.

Definition LIQUIDATION_THRESHOLD : Z := 120.
Definition LIQUIDATION_PENALTY : Z := 500.
Definition MAX_POSITION_SIZE : Z := 1000000000000.
Definition RISK_SCORE_THRESHOLD : Z := 8000.

Definition TOTAL_RISK_EXPOSURE_KEY : string := "total_risk_exposure".
Definition LIQUIDATION_POOL_KEY : string := "liquidation_pool".
Definition SYSTEM_HEALTH_KEY : string := "system_health".
Definition LAST_RISK_UPDATE_KEY : string := "last_risk_update".

Definition USER_RISK_SCORE_KEY : string := "user_risk_score".
Definition USER_DELTA_EXPOSURE_KEY : string := "user_delta_exposure".
Definition USER_LIQUIDATION_PRICE_KEY : string := "user_liquidation_price".

Definition on_creation (e : env) : M Z :=
  globalPut TOTAL_RISK_EXPOSURE_KEY 0;;
  globalPut LIQUIDATION_POOL_KEY 0;;
  globalPut SYSTEM_HEALTH_KEY 10000;;
  globalPut LAST_RISK_UPDATE_KEY (latest_timestamp e);;
  Return 1.

(** The ratio both [calculate_risk_score] and [check_liquidation] compute:
    only the chosen branch of the [If] is evaluated. *)
Definition ratio_bps (collateral balance : Z) : M Z :=
  if balance >? 0
  then scaled ← mul collateral 10000; div scaled balance
  else mret 10000.

Definition calculate_risk_score (e : env) : M Z :=
  Assert (args_length e =? 4) InvalidArgumentCount;;
  a1 ← arg e 1; user_collateral ← Btoi a1;
  a2 ← arg e 2; user_halgo_balance ← Btoi a2;
  a3 ← arg e 3; current_price ← Btoi a3;
  risk_score ← ratio_bps user_collateral user_halgo_balance;
  localPut (sender (Txn e)) USER_RISK_SCORE_KEY risk_score;;
  localPut (sender (Txn e)) USER_LIQUIDATION_PRICE_KEY risk_score;;
  Return 1.

Definition check_liquidation (e : env) : M Z :=
  Assert (args_length e =? 5) InvalidArgumentCount;;
  a2 ← arg e 2; user_collateral_check ← Btoi a2;
  a3 ← arg e 3; user_halgo_balance_check ← Btoi a3;
  a4 ← arg e 4; current_price_check ← Btoi a4;
  collateral_ratio ← ratio_bps user_collateral_check user_halgo_balance_check;
  Return (if collateral_ratio <? LIQUIDATION_THRESHOLD then 1 else 0).

Definition execute_liquidation (e : env) : M Z :=
  Assert (args_length e =? 5) InvalidArgumentCount;;
  Assert (2 <=? group_size e) GroupPaymentMismatch;;
  a2 ← arg e 2; liquidation_amount ← Btoi a2;
  a3 ← arg e 3; current_price ← Btoi a3;
  g0 ← group e 0;
  Assert (bool_decide (type_enum g0 = Payment)) GroupPaymentMismatch;;
  Assert (String.eqb (receiver g0) (current_application_address e)) GroupPaymentMismatch;;
  scaled ← mul liquidation_amount LIQUIDATION_PENALTY;
  penalty_amount ← div scaled 10000;
  protocol_fee ← div penalty_amount 2;
  pool ← globalGet LIQUIDATION_POOL_KEY;
  pool' ← add pool protocol_fee;
  globalPut LIQUIDATION_POOL_KEY pool';;
  Return 1.

Definition update_system_health (e : env) : M Z :=
  Assert (String.eqb (sender (Txn e)) (creator_address e)) Unauthorized;;
  Assert (args_length e =? 2) InvalidArgumentCount;;
  a1 ← arg e 1; new_health_score ← Btoi a1;
  globalPut SYSTEM_HEALTH_KEY new_health_score;;
  globalPut LAST_RISK_UPDATE_KEY (latest_timestamp e);;
  Return 1.

Definition calculate_delta (e : env) : M Z :=
  Assert (args_length e =? 4) InvalidArgumentCount;;
  a1 ← arg e 1; user_halgo_balance ← Btoi a1;
  a2 ← arg e 2; current_price ← Btoi a2;
  a3 ← arg e 3; price_volatility ← Btoi a3;
  scaled ← mul user_halgo_balance price_volatility;
  delta_exposure ← div scaled 10000;
  localPut (sender (Txn e)) USER_DELTA_EXPOSURE_KEY delta_exposure;;
  Return 1.

Definition approval_program (e : env) : M Z :=
  Cond [
    (mret (application_id (Txn e) =? 0), on_creation e);
    (completion_is e NoOp,
      Cond [
        (method_is e "calculate_risk", calculate_risk_score e);
        (method_is e "check_liquidation", check_liquidation e);
        (method_is e "execute_liquidation", execute_liquidation e);
        (method_is e "update_health", update_system_health e);
        (method_is e "calculate_delta", calculate_delta e)
      ]);
    (completion_is e OptIn, Return 1);
    (completion_is e CloseOut, Return 1);
    (completion_is e UpdateApplication, Return (sender_is_creator e));
    (completion_is e DeleteApplication, Return (sender_is_creator e))
  ].

Definition clear_state_program (e : env) : M Z := Return 1.

Definition app : application := mkApp approval_program clear_state_program.

Definition liquidation_pool (s : store) : Z := default 0 (globals s !! LIQUIDATION_POOL_KEY).

Definition local_field (k : string) (s : store) (a : string) : option Z :=
  m ← locals s !! a; Some (default 0 (m !! k)).

Definition risk_score : store -> string -> option Z := local_field USER_RISK_SCORE_KEY.

End RiskManager.

(** ** [contracts/protocol/RebalanceEngine.py] *)

Module RebalanceEngine.

Definition REBALANCE_THRESHOLD : Z := 500.
Definition MIN_REBALANCE_INTERVAL : Z := 3600.
Definition MAX_SLIPPAGE : Z := 300.
Definition FUNDING_RATE_PRECISION : Z := 1000000.

Definition LAST_REBALANCE_KEY : string := "last_rebalance".
Definition CURRENT_DELTA_KEY : string := "current_delta".
Definition TARGET_DELTA_KEY : string := "target_delta".
Definition FUNDING_RATE_KEY : string := "funding_rate".
Definition YIELD_POOL_KEY : string := "yield_pool".
Definition REBALANCE_COUNT_KEY : string := "rebalance_count".

Definition on_creation (e : env) : M Z :=
  globalPut LAST_REBALANCE_KEY (latest_timestamp e);;
  globalPut CURRENT_DELTA_KEY 0;;
  globalPut TARGET_DELTA_KEY 0;;
  globalPut FUNDING_RATE_KEY 0;;
  globalPut YIELD_POOL_KEY 0;;
  globalPut REBALANCE_COUNT_KEY 0;;
  Return 1.

Definition calculate_delta (e : env) : M Z :=
  Assert (args_length e =? 5) InvalidArgumentCount;;
  a1 ← arg e 1; total_halgo_supply ← Btoi a1;
  a2 ← arg e 2; total_collateral ← Btoi a2;
  a3 ← arg e 3; current_price ← Btoi a3;
  a4 ← arg e 4; price_change ← Btoi a4;
  supply_value ← mul total_halgo_supply current_price;
  portfolio_value ← div supply_value 1000000;
  backing_value ← mul total_collateral current_price;
  collateral_value ← div backing_value 1000000;
  current_delta ← (if negb (price_change =? 0)
                   then gap ← sub portfolio_value collateral_value;
                        scaled ← mul gap 10000;
                        div scaled price_change
                   else mret 0);
  globalPut CURRENT_DELTA_KEY current_delta;;
  Return 1.

Definition check_rebalance_needed (e : env) : M Z :=
  let current_time := latest_timestamp e in
  last_rebalance ← globalGet LAST_REBALANCE_KEY;
  time_since_rebalance ← sub current_time last_rebalance;
  let time_ok := Int (MIN_REBALANCE_INTERVAL <=? time_since_rebalance) in
  current_delta_check ← globalGet CURRENT_DELTA_KEY;
  target_delta_check ← globalGet TARGET_DELTA_KEY;
  delta_diff ← (if current_delta_check >? target_delta_check
                then sub current_delta_check target_delta_check
                else sub target_delta_check current_delta_check);
  let delta_threshold_exceeded := Int (delta_diff >? REBALANCE_THRESHOLD) in
  let rebalance_needed := And time_ok delta_threshold_exceeded in
  Return rebalance_needed.

Definition execute_rebalance (e : env) : M Z :=
  Assert (args_length e =? 4) InvalidArgumentCount;;
  Assert (2 <=? group_size e) GroupPaymentMismatch;;
  a1 ← arg e 1; rebalance_amount ← Btoi a1;
  a2 ← arg e 2; direction ← Btoi a2;
  a3 ← arg e 3; slippage ← Btoi a3;
  Assert (slippage <=? MAX_SLIPPAGE) SlippageExceeded;;
  let current_time_rebalance := latest_timestamp e in
  globalPut LAST_REBALANCE_KEY current_time_rebalance;;
  rebalance_count ← globalGet REBALANCE_COUNT_KEY;
  rebalance_count' ← add rebalance_count 1;
  globalPut REBALANCE_COUNT_KEY rebalance_count';;
  Return 1.

Definition update_funding_rate (e : env) : M Z :=
  Assert (args_length e =? 2) InvalidArgumentCount;;
  a1 ← arg e 1; new_funding_rate ← Btoi a1;
  Assert (new_funding_rate <=? 1000000) InvalidFundingRate;;
  globalPut FUNDING_RATE_KEY new_funding_rate;;
  Return 1.

Definition distribute_yield (e : env) : M Z :=
  Assert (args_length e =? 2) InvalidArgumentCount;;
  Assert (2 <=? group_size e) GroupPaymentMismatch;;
  a1 ← arg e 1; yield_amount ← Btoi a1;
  g0 ← group e 0;
  Assert (bool_decide (type_enum g0 = Payment)) GroupPaymentMismatch;;
  Assert (String.eqb (receiver g0) (current_application_address e)) GroupPaymentMismatch;;
  Assert (amount g0 =? yield_amount) GroupPaymentMismatch;;
  current_yield_pool ← globalGet YIELD_POOL_KEY;
  pool' ← add current_yield_pool yield_amount;
  globalPut YIELD_POOL_KEY pool';;
  Return 1.

(** The scratch variables [hedge_ratio] and [final_hedge_ratio] as they
    stand when [calculate_hedge_ratio] reaches its [Return]. *)
Definition hedge_scratch (e : env) : M (Z * Z) :=
  Assert (args_length e =? 4) InvalidArgumentCount;;
  a1 ← arg e 1; portfolio_value_hedge ← Btoi a1;
  a2 ← arg e 2; volatility ← Btoi a2;
  a3 ← arg e 3; correlation ← Btoi a3;
  scaled ← mul correlation volatility;
  hedge_ratio ← div scaled 10000;
  let final_hedge_ratio := if hedge_ratio >? 10000 then 10000 else hedge_ratio in
  mret (hedge_ratio, final_hedge_ratio).

Definition calculate_hedge_ratio (e : env) : M Z :=
  hedge_scratch e;;
  Return 1.

Definition set_target_delta (e : env) : M Z :=
  Assert (String.eqb (sender (Txn e)) (creator_address e)) Unauthorized;;
  Assert (args_length e =? 2) InvalidArgumentCount;;
  a1 ← arg e 1; new_target_delta ← Btoi a1;
  globalPut TARGET_DELTA_KEY new_target_delta;;
  Return 1.

Definition approval_program (e : env) : M Z :=
  Cond [
    (mret (application_id (Txn e) =? 0), on_creation e);
    (completion_is e NoOp,
      Cond [
        (method_is e "calculate_delta", calculate_delta e);
        (method_is e "check_rebalance", check_rebalance_needed e);
        (method_is e "execute_rebalance", execute_rebalance e);
        (method_is e "update_funding", update_funding_rate e);
        (method_is e "distribute_yield", distribute_yield e);
        (method_is e "calculate_hedge", calculate_hedge_ratio e);
        (method_is e "set_target_delta", set_target_delta e)
      ]);
    (completion_is e UpdateApplication, Return (sender_is_creator e));
    (completion_is e DeleteApplication, Return (sender_is_creator e))
  ].

Definition clear_state_program (e : env) : M Z := Return 1.

Definition app : application := mkApp approval_program clear_state_program.

Definition yield_pool (s : store) : Z := default 0 (globals s !! YIELD_POOL_KEY).
Definition rebalance_count (s : store) : Z := default 0 (globals s !! REBALANCE_COUNT_KEY).

End RebalanceEngine.

(** ** Calls, arguments and histories *)

(** [b] is the encoding of [v] that [Btoi] accepts. *)
Definition decodes (b : string) (v : Z) : Prop :=
  (String.length b <= 8)%nat ∧ be_value 0 b = v.

(** Argument [i] of the call is present and decodes to [v]. *)
Definition arg_is (e : env) (i : nat) (v : Z) : Prop :=
  ∃ b, application_args (Txn e) !! i = Some b ∧ decodes b v.

(** A [NoOp] call to a deployed application whose first argument names the
    operation. *)
Definition invokes (e : env) (name : string) : Prop :=
  application_id (Txn e) ≠ 0
  ∧ on_completion (Txn e) = NoOp
  ∧ application_args (Txn e) !! 0%nat = Some name.

(** A sequence of calls, every one of them approved. *)
Fixpoint run (app : application) (es : list env) (s : store) : option store :=
  match es with
  | [] => Some s
  | e :: rest =>
      match call app e s with
      | (s', Approved) => run app rest s'
      | (_, Rejected _) => None
      end
  end.

(** The stores a deployed application can be in, with the ledger time at
    which they were left: the ledger clock never runs backwards. *)
Inductive reachable (app : application) : Z -> store -> Prop :=
| reachable_create e s :
    application_id (Txn e) = 0 ->
    create app e = (s, Approved) ->
    reachable app (latest_timestamp e) s
| reachable_call now e s s' r :
    reachable app now s ->
    application_id (Txn e) ≠ 0 ->
    now <= latest_timestamp e ->
    call app e s = (s', r) ->
    reachable app (latest_timestamp e) s'.

(** ** The three applications side by side *)

Module Protocol.

Inductive component : Set := OracleAggregator | RiskEngine | Rebalancer.

Record state : Type := mkState {
  oracle : store;
  risk : store;
  rebalance : store
}.

Definition program (c : component) : application :=
  match c with
  | OracleAggregator => EnterprisePriceOracle.app
  | RiskEngine => RiskManager.app
  | Rebalancer => RebalanceEngine.app
  end.

Definition store_of (c : component) (ps : state) : store :=
  match c with
  | OracleAggregator => oracle ps
  | RiskEngine => risk ps
  | Rebalancer => rebalance ps
  end.

Definition with_store (c : component) (s : store) (ps : state) : state :=
  match c with
  | OracleAggregator => mkState s (risk ps) (rebalance ps)
  | RiskEngine => mkState (oracle ps) s (rebalance ps)
  | Rebalancer => mkState (oracle ps) (risk ps) s
  end.

(** One call addressed to one component: an application can write only its
    own store. *)
Definition step (c : component) (e : env) (ps : state) : state * receipt :=
  let '(s', r) := call (program c) e (store_of c ps) in
  (with_store c s' ps, r).

End Protocol.

(** ** Sample deployments and calls *)

Module Sample.

Definition creator : string := "CREATOR".
Definition oracle_1 : string := "ORACLE-1".
Definition user_1 : string := "USER-1".
Definition app_address : string := "APP".

(** A call to the deployed application (identifier 7). *)
Definition call_env (from : string) (oc : OnComplete) (args : list string)
    (grp : list gtxn) (now : Z) : env :=
  mkEnv (mkTxn from 7 oc args) grp now creator app_address.

Definition creation_env : env :=
  mkEnv (mkTxn creator 0 NoOp []) [] 1000 creator app_address.

Definition app_call_leg : gtxn := mkGtxn ApplicationCall app_address 0.

(** *** Oracle *)

Definition oracle_deployed : store :=
  fst (create EnterprisePriceOracle.app creation_env).

Definition opt_in_env : env := call_env oracle_1 OptIn [] [] 1100.
Definition close_out_env : env := call_env oracle_1 CloseOut [] [] 1050.

Definition oracle_registered : store :=
  fst (call EnterprisePriceOracle.app opt_in_env oracle_deployed).

Definition authorize_env : env :=
  call_env creator NoOp ["authorize"; oracle_1] [] 1200.

(** A store in which [oracle_1] carries the flag and fifty accepted
    submissions. *)
Definition oracle_veteran : store :=
  mkStore
    {[ "current_price" := 250000; "last_update" := 1000; "oracle_count" := 1;
       "circuit_breaker" := 0; "total_submissions" := 50 ]}
    {[ oracle_1 := {[ "oracle_auth" := 1; "oracle_rep" := 150; "last_sub" := 1000 ]} ]}.

Definition submit_env (price : Z) : env :=
  call_env oracle_1 NoOp ["submit"; Itob price] [] 1300.

Definition get_price_env : env := call_env user_1 NoOp ["get_price"] [] 1300.

(** *** Risk manager *)

Definition risk_deployed : store := fst (create RiskManager.app creation_env).

Definition risk_opted_in : store :=
  fst (call RiskManager.app (call_env user_1 OptIn [] [] 1100) risk_deployed).

Definition risk_score_env (collateral balance price : Z) : env :=
  call_env user_1 NoOp
    ["calculate_risk"; Itob collateral; Itob balance; Itob price] [] 1200.

Definition check_liquidation_env (collateral balance price : Z) : env :=
  call_env creator NoOp
    ["check_liquidation"; user_1; Itob collateral; Itob balance; Itob price] [] 1200.

(** A liquidation of 1000000 accompanied by a payment of 1. *)
Definition liquidation_env : env :=
  call_env creator NoOp
    ["execute_liquidation"; user_1; Itob 1000000; Itob 250000; Itob 0]
    [mkGtxn Payment app_address 1; app_call_leg] 1200.

(** *** Rebalance engine *)

Definition rebalance_deployed : store :=
  fst (create RebalanceEngine.app creation_env).

Definition yield_env (declared paid : Z) : env :=
  call_env creator NoOp ["distribute_yield"; Itob declared]
    [mkGtxn Payment app_address paid; app_call_leg] 1200.

Definition rebalance_env (slippage : Z) : env :=
  call_env creator NoOp ["execute_rebalance"; Itob 5000; Itob 1; Itob slippage]
    [app_call_leg; app_call_leg] 5000.

Definition hedge_env (volatility correlation : Z) : env :=
  call_env creator NoOp
    ["calculate_hedge"; Itob 1000000; Itob volatility; Itob correlation] [] 1200.

(** A store whose rebalance counter has reached the largest [uint64]. *)
Definition rebalance_saturated : store :=
  mkStore {[ "last_rebalance" := 1000; "rebalance_count" := u64_max ]} ∅.

Definition protocol_deployed : Protocol.state :=
  Protocol.mkState oracle_deployed risk_opted_in rebalance_deployed.

End Sample.

(** ** [contracts/oracles/PriceOracle.py] *)

Module PriceOracle.

Definition MAX_PRICE_DEVIATION : Z := 500.
Definition MIN_ORACLE_SOURCES : Z := 3.
Definition PRICE_STALENESS_THRESHOLD : Z := 3600.
Definition CIRCUIT_BREAKER_THRESHOLD : Z := 1000.

Definition CURRENT_PRICE_KEY : string := "current_price".
Definition LAST_UPDATE_KEY : string := "last_update".
Definition ORACLE_COUNT_KEY : string := "oracle_count".
Definition CIRCUIT_BREAKER_KEY : string := "circuit_breaker".
Definition PRICE_HISTORY_KEY : string := "price_history".

Definition on_creation (e : env) : M Z :=
  globalPut CURRENT_PRICE_KEY 250000;;
  globalPut LAST_UPDATE_KEY (latest_timestamp e);;
  globalPut ORACLE_COUNT_KEY 0;;
  globalPut CIRCUIT_BREAKER_KEY 0;;
  Return 1.

Definition add_oracle (e : env) : M Z :=
  Assert (String.eqb (sender (Txn e)) (creator_address e)) Unauthorized;;
  Assert (args_length e =? 2) InvalidArgumentCount;;
  oracle_count ← globalGet ORACLE_COUNT_KEY;
  incremented ← add oracle_count 1;
  globalPut ORACLE_COUNT_KEY incremented;;
  Return 1.

Definition submit_price (e : env) : M Z :=
  Assert (args_length e =? 2) InvalidArgumentCount;;
  raw ← arg e 1;
  new_price ← Btoi raw;
  current_price ← globalGet CURRENT_PRICE_KEY;
  price_diff ← (if new_price >? current_price
                then sub new_price current_price
                else sub current_price new_price);
  scaled ← mul current_price MAX_PRICE_DEVIATION;
  max_deviation ← div scaled 10000;
  Assert (price_diff <=? max_deviation) DeviationExceeded;;
  globalPut CURRENT_PRICE_KEY new_price;;
  globalPut LAST_UPDATE_KEY (latest_timestamp e);;
  Return 1.

Definition get_price (e : env) : M Z :=
  let current_time := latest_timestamp e in
  last_update ← globalGet LAST_UPDATE_KEY;
  age ← sub current_time last_update;
  Assert (age <=? PRICE_STALENESS_THRESHOLD) StalePrice;;
  breaker ← globalGet CIRCUIT_BREAKER_KEY;
  Assert (breaker =? 0) CircuitBreakerActive;;
  Return 1.

Definition trigger_circuit_breaker (e : env) : M Z :=
  Assert (String.eqb (sender (Txn e)) (creator_address e)) Unauthorized;;
  globalPut CIRCUIT_BREAKER_KEY 1;;
  Return 1.

Definition reset_circuit_breaker (e : env) : M Z :=
  Assert (String.eqb (sender (Txn e)) (creator_address e)) Unauthorized;;
  globalPut CIRCUIT_BREAKER_KEY 0;;
  Return 1.

Definition approval_program (e : env) : M Z :=
  Cond [
    (mret (application_id (Txn e) =? 0), on_creation e);
    (completion_is e NoOp,
      Cond [
        (method_is e "add_oracle", add_oracle e);
        (method_is e "submit_price", submit_price e);
        (method_is e "get_price", get_price e);
        (method_is e "trigger_breaker", trigger_circuit_breaker e);
        (method_is e "reset_breaker", reset_circuit_breaker e)
      ]);
    (completion_is e UpdateApplication, Return (sender_is_creator e));
    (completion_is e DeleteApplication, Return (sender_is_creator e))
  ].

Definition clear_state_program (e : env) : M Z := Return 1.

Definition app : application := mkApp approval_program clear_state_program.

Definition current_price (s : store) : Z := default 0 (globals s !! CURRENT_PRICE_KEY).
Definition last_update_time (s : store) : Z := default 0 (globals s !! LAST_UPDATE_KEY).
Definition circuit_breaker (s : store) : Z := default 0 (globals s !! CIRCUIT_BREAKER_KEY).

End PriceOracle.

(** ** Further fields of the three stores *)

Module Read.

Definition global_field (k : string) (s : store) : Z := default 0 (globals s !! k).

Definition last_submission_time : store -> string -> option Z :=
  EnterprisePriceOracle.local_field EnterprisePriceOracle.last_submission_key.

Definition total_risk_exposure : store -> Z := global_field RiskManager.TOTAL_RISK_EXPOSURE_KEY.
Definition system_health : store -> Z := global_field RiskManager.SYSTEM_HEALTH_KEY.
Definition last_risk_update : store -> Z := global_field RiskManager.LAST_RISK_UPDATE_KEY.
Definition liquidation_price : store -> string -> option Z :=
  RiskManager.local_field RiskManager.USER_LIQUIDATION_PRICE_KEY.
Definition delta_exposure : store -> string -> option Z :=
  RiskManager.local_field RiskManager.USER_DELTA_EXPOSURE_KEY.

Definition last_rebalance_time : store -> Z := global_field RebalanceEngine.LAST_REBALANCE_KEY.
Definition current_delta : store -> Z := global_field RebalanceEngine.CURRENT_DELTA_KEY.
Definition target_delta : store -> Z := global_field RebalanceEngine.TARGET_DELTA_KEY.
Definition funding_rate : store -> Z := global_field RebalanceEngine.FUNDING_RATE_KEY.

(** The record [on_opt_in] writes for a newly registered oracle. *)
Definition fresh_record : gmap string Z :=
  <[EnterprisePriceOracle.last_submission_key := 0]>
    (<[EnterprisePriceOracle.oracle_reputation_key := 100]>
       (<[EnterprisePriceOracle.oracle_authorized_key := 0]> ∅)).

End Read.

(** Writing one global key of a store. *)
Definition set_global (k : string) (v : Z) (s : store) : store :=
  mkStore (<[k := v]> (globals s)) (locals s).

(** Writing one key of one account's local map. *)
Definition set_local (a k : string) (v : Z) (s : store) : store :=
  match locals s !! a with
  | Some m => mkStore (globals s) (<[a := <[k := v]> m]> (locals s))
  | None => s
  end.

(** More sample calls. *)
Module Sample2.

Definition outsider : string := "SOMEONE".

Definition pause_env : env := Sample.call_env Sample.creator NoOp ["emergency_pause"] [] 1250.
Definition resume_env : env := Sample.call_env Sample.creator NoOp ["resume"] [] 1260.

Definition oracle_paused : store :=
  fst (call EnterprisePriceOracle.app pause_env Sample.oracle_deployed).

(** A creation transaction that also opts its sender in. *)
Definition creation_opt_in_env : env :=
  mkEnv (mkTxn Sample.creator 0 OptIn []) [] 1000 Sample.creator Sample.app_address.


Definition engine_created_opted_in : store :=
  fst (create RebalanceEngine.app creation_opt_in_env).

Definition unknown_method_env : env :=
  Sample.call_env Sample.creator NoOp ["withdraw"] [] 1200.

Definition no_args_env : env := Sample.call_env Sample.creator NoOp [] [] 1200.

Definition health_env (score : Z) : env :=
  Sample.call_env Sample.creator NoOp ["update_health"; Itob score] [] 1400.

Definition exposure_env (balance price volatility : Z) : env :=
  Sample.call_env Sample.user_1 NoOp
    ["calculate_delta"; Itob balance; Itob price; Itob volatility] [] 1200.

Definition delta_env (supply collateral price change : Z) : env :=
  Sample.call_env outsider NoOp
    ["calculate_delta"; Itob supply; Itob collateral; Itob price; Itob change] [] 1200.

Definition check_rebalance_env (now : Z) : env :=
  Sample.call_env outsider NoOp ["check_rebalance"] [] now.

Definition funding_env (rate : Z) : env :=
  Sample.call_env outsider NoOp ["update_funding"; Itob rate] [] 1200.

Definition target_env (from : string) (target : Z) : env :=
  Sample.call_env from NoOp ["set_target_delta"; Itob target] [] 1200.

Definition rebalance_drifted : store :=
  mkStore {[ "last_rebalance" := 1000; "current_delta" := 900; "target_delta" := 100;
             "funding_rate" := 0; "yield_pool" := 0; "rebalance_count" := 0 ]} ∅.

Definition feed_deployed : store := fst (create PriceOracle.app Sample.creation_env).

Definition feed_submit_env (price : Z) : env :=
  Sample.call_env outsider NoOp ["submit_price"; Itob price] [] 1300.

End Sample2.

(** The operation names each router knows. *)
Definition methods (c : Protocol.component) : list string :=
  match c with
  | Protocol.OracleAggregator =>
      ["authorize"; "submit"; "get_price"; "emergency_pause"; "resume"]
  | Protocol.RiskEngine =>
      ["calculate_risk"; "check_liquidation"; "execute_liquidation"; "update_health";
       "calculate_delta"]
  | Protocol.Rebalancer =>
      ["calculate_delta"; "check_rebalance"; "execute_rebalance"; "update_funding";
       "distribute_yield"; "calculate_hedge"; "set_target_delta"]
  end.

(** ** Proof infrastructure *)

Ltac bool_facts :=
  repeat match goal with
  | H : (_ >? _) = _ |- _ => rewrite Z.gtb_ltb in H
  | H : (_ <? _) = true |- _ => apply Z.ltb_lt in H
  | H : (_ <? _) = false |- _ => apply Z.ltb_ge in H
  | H : (_ <=? _) = true |- _ => apply Z.leb_le in H
  | H : (_ <=? _) = false |- _ => apply Z.leb_gt in H
  | H : (_ =? _) = true |- _ => apply Z.eqb_eq in H
  | H : (_ =? _) = false |- _ => apply Z.eqb_neq in H
  | H : (_ <? _)%nat = true |- _ => apply Nat.ltb_lt in H
  | H : (_ <? _)%nat = false |- _ => apply Nat.ltb_ge in H
  | H : (_ =? _)%string = true |- _ => apply String.eqb_eq in H
  | H : (_ =? _)%string = false |- _ => apply String.eqb_neq in H
  | H : bool_decide _ = true |- _ => apply bool_decide_eq_true_1 in H
  | H : bool_decide _ = false |- _ => apply bool_decide_eq_false_1 in H
  end.

Ltac oracle_keys :=
  unfold EnterprisePriceOracle.current_price_key, EnterprisePriceOracle.last_update_key,
    EnterprisePriceOracle.oracle_count_key, EnterprisePriceOracle.circuit_breaker_key,
    EnterprisePriceOracle.total_submissions_key, EnterprisePriceOracle.oracle_authorized_key,
    EnterprisePriceOracle.oracle_reputation_key, EnterprisePriceOracle.last_submission_key in *.

(** *** What a finished evaluation tells about each primitive *)

Section Inversion.

Context {A B : Type}.

Lemma bind_Done (m : M A) (f : A -> M B) s r s' :
  (m ≫= f) s = Done r s' -> ∃ x s1, m s = Done x s1 ∧ f x s1 = Done r s'.
Proof.
  unfold mbind, M_bind. destruct (m s) as [x s1|]; [eauto | discriminate].
Qed.

Lemma bind_Stop (m : M A) (f : A -> M B) s err s' :
  (m ≫= f) s = Stop err s' ->
  m s = Stop err s' ∨ ∃ x s1, m s = Done x s1 ∧ f x s1 = Stop err s'.
Proof.
  unfold mbind, M_bind. destruct (m s) as [x s1|]; intros H; [right; eauto | left].
  by injection H as -> ->.
Qed.

Lemma bind_eval (m : M A) (f : A -> M B) s x s1 :
  m s = Done x s1 -> (m ≫= f) s = f x s1.
Proof. unfold mbind, M_bind. by intros ->. Qed.

Lemma bind_halt (m : M A) (f : A -> M B) s err s1 :
  m s = Stop err s1 -> (m ≫= f) s = Stop err s1.
Proof. unfold mbind, M_bind. by intros ->. Qed.

Lemma mret_Done (x y : A) s s' : (mret x : M A) s = Done y s' -> y = x ∧ s' = s.
Proof. unfold mret, M_ret. by intros [= -> ->]. Qed.

End Inversion.

Section Primitives.


Lemma Return_Done v r s s' : Return v s = Done r s' -> r = v ∧ s' = s.
Proof. apply mret_Done. Qed.

Lemma Assert_Done c err u s s' : Assert c err s = Done u s' -> c = true ∧ s' = s.
Proof. destruct c; [by intros [= <-] | discriminate]. Qed.

Lemma Assert_true err s : Assert true err s = Done tt s.
Proof. reflexivity. Qed.

Lemma Assert_false err s : Assert false err s = Stop err s.
Proof. reflexivity. Qed.

Lemma add_Done a b r s s' :
  add a b s = Done r s' -> r = a + b ∧ a + b <= u64_max ∧ s' = s.
Proof.
  unfold add. destruct (Z.gtb_spec (a + b) u64_max); [discriminate |].
  intros [= <- <-]. repeat split; lia.
Qed.

Lemma sub_Done a b r s s' :
  sub a b s = Done r s' -> r = a - b ∧ b <= a ∧ s' = s.
Proof.
  unfold sub. destruct (Z.ltb_spec a b); [discriminate |].
  intros [= <- <-]. repeat split; lia.
Qed.

Lemma mul_Done a b r s s' :
  mul a b s = Done r s' -> r = a * b ∧ a * b <= u64_max ∧ s' = s.
Proof.
  unfold mul. destruct (Z.gtb_spec (a * b) u64_max); [discriminate |].
  intros [= <- <-]. repeat split; lia.
Qed.

Lemma div_Done a b r s s' :
  div a b s = Done r s' -> r = a / b ∧ b ≠ 0 ∧ s' = s.
Proof.
  unfold div. destruct (Z.eqb_spec b 0); [discriminate |].
  by intros [= <- <-].
Qed.

Lemma add_eval a b s : a + b <= u64_max -> add a b s = Done (a + b) s.
Proof. intros. unfold add. destruct (Z.gtb_spec (a + b) u64_max); [lia | done]. Qed.

Lemma sub_eval a b s : b <= a -> sub a b s = Done (a - b) s.
Proof. intros. unfold sub. destruct (Z.ltb_spec a b); [lia | done]. Qed.

Lemma mul_eval a b s : a * b <= u64_max -> mul a b s = Done (a * b) s.
Proof. intros. unfold mul. destruct (Z.gtb_spec (a * b) u64_max); [lia | done]. Qed.

Lemma div_eval a b s : b ≠ 0 -> div a b s = Done (a / b) s.
Proof. intros. unfold div. destruct (Z.eqb_spec b 0); [lia | done]. Qed.

Lemma Btoi_Done raw r s s' :
  Btoi raw s = Done r s' -> decodes raw r ∧ s' = s.
Proof.
  unfold Btoi, decodes. destruct (Nat.ltb_spec 8 (String.length raw)); [discriminate |].
  intros [= <- <-]. repeat split; lia.
Qed.

Lemma Btoi_eval raw v s : decodes raw v -> Btoi raw s = Done v s.
Proof.
  intros [Hlen <-]. unfold Btoi.
  destruct (Nat.ltb_spec 8 (String.length raw)); [lia | reflexivity].
Qed.

Lemma arg_Done e i raw s s' :
  arg e i s = Done raw s' -> application_args (Txn e) !! i = Some raw ∧ s' = s.
Proof.
  unfold arg. destruct (application_args (Txn e) !! i); [by intros [= <- <-] | discriminate].
Qed.

Lemma arg_eval e i raw s :
  application_args (Txn e) !! i = Some raw -> arg e i s = Done raw s.
Proof. unfold arg. by intros ->. Qed.

Lemma group_Done e i g s s' :
  group e i s = Done g s' -> Gtxn e !! i = Some g ∧ s' = s.
Proof.
  unfold group. destruct (Gtxn e !! i); [by intros [= <- <-] | discriminate].
Qed.

Lemma group_eval e i g s : Gtxn e !! i = Some g -> group e i s = Done g s.
Proof. unfold group. by intros ->. Qed.

Lemma globalGet_Done k r s s' :
  globalGet k s = Done r s' -> r = default 0 (globals s !! k) ∧ s' = s.
Proof. unfold globalGet. by intros [= <- <-]. Qed.

Lemma globalPut_Done k v u s s' :
  globalPut k v s = Done u s' -> s' = mkStore (<[k := v]> (globals s)) (locals s).
Proof. unfold globalPut. by intros [= <-]. Qed.

Lemma localGet_Done acct k r s s' :
  localGet acct k s = Done r s' ->
  ∃ m, locals s !! acct = Some m ∧ r = default 0 (m !! k) ∧ s' = s.
Proof.
  unfold localGet. destruct (locals s !! acct) as [m|]; [| discriminate].
  intros [= <- <-]. eauto.
Qed.

Lemma localGet_eval acct k m s :
  locals s !! acct = Some m -> localGet acct k s = Done (default 0 (m !! k)) s.
Proof. unfold localGet. by intros ->. Qed.

Lemma localPut_Done acct k v u s s' :
  localPut acct k v s = Done u s' ->
  ∃ m, locals s !! acct = Some m
       ∧ s' = mkStore (globals s) (<[acct := <[k := v]> m]> (locals s)).
Proof.
  unfold localPut. destruct (locals s !! acct) as [m|]; [| discriminate].
  intros [= <-]. eauto.
Qed.

Lemma localPut_eval acct k v m s :
  locals s !! acct = Some m ->
  localPut acct k v s = Done tt (mkStore (globals s) (<[acct := <[k := v]> m]> (locals s))).
Proof. unfold localPut. by intros ->. Qed.

Lemma arg_decodes e i v {A} (f : Z -> M A) s :
  arg_is e i v -> (raw ← arg e i; x ← Btoi raw; f x) s = f v s.
Proof.
  intros (raw & Hraw & Hdec).
  rewrite (bind_eval _ _ _ _ _ (arg_eval _ _ _ _ Hraw)).
  by rewrite (bind_eval _ _ _ _ _ (Btoi_eval _ _ _ Hdec)).
Qed.

End Primitives.

(** Takes a hypothesis [op e s = Done v s'] apart, one primitive at a time. *)
Ltac inv_done H :=
  lazymatch type of H with
  | (_ ≫= _) _ = Done _ _ =>
      let x := fresh "x" in let s1 := fresh "s" in let H1 := fresh "H" in
      apply bind_Done in H; destruct H as (x & s1 & H1 & H);
      inv_done H1; inv_done H
  | fail _ _ = Done _ _ => discriminate H
  | Return _ _ = Done _ _ => apply Return_Done in H; destruct H as [-> ->]
  | @mret _ _ _ _ _ = Done _ _ => apply mret_Done in H; destruct H as [-> ->]
  | Assert _ _ _ = Done _ _ =>
      let Hc := fresh "Hc" in apply Assert_Done in H; destruct H as [Hc ->]
  | add _ _ _ = Done _ _ =>
      let Hb := fresh "Hbound" in apply add_Done in H; destruct H as (-> & Hb & ->)
  | sub _ _ _ = Done _ _ =>
      let Hb := fresh "Hbound" in apply sub_Done in H; destruct H as (-> & Hb & ->)
  | mul _ _ _ = Done _ _ =>
      let Hb := fresh "Hbound" in apply mul_Done in H; destruct H as (-> & Hb & ->)
  | div _ _ _ = Done _ _ =>
      let Hb := fresh "Hnz" in apply div_Done in H; destruct H as (-> & Hb & ->)
  | Btoi _ _ = Done _ _ =>
      let Hd := fresh "Hdec" in apply Btoi_Done in H; destruct H as [Hd ->]
  | arg _ _ _ = Done _ _ =>
      let Ha := fresh "Harg" in apply arg_Done in H; destruct H as [Ha ->]
  | group _ _ _ = Done _ _ =>
      let Hg := fresh "Hgrp" in apply group_Done in H; destruct H as [Hg ->]
  | globalGet _ _ = Done _ _ => apply globalGet_Done in H; destruct H as [-> ->]
  | globalPut _ _ _ = Done _ _ => apply globalPut_Done in H; subst; cbn [globals locals] in *
  | localGet _ _ _ = Done _ _ =>
      let m := fresh "m" in let Hm := fresh "Hloc" in
      apply localGet_Done in H; destruct H as (m & Hm & -> & ->)
  | localPut _ _ _ _ = Done _ _ =>
      let m := fresh "m" in let Hm := fresh "Hloc" in
      apply localPut_Done in H; destruct H as (m & Hm & ->); cbn [globals locals] in *
  | (if ?c then _ else _) _ = Done _ _ =>
      let Hc := fresh "Hc" in destruct c eqn:Hc; inv_done H
  | _ => idtac
  end.

(** Every way the oracle's approval program can finish. *)
Ltac oracle_paths H :=
  unfold EnterprisePriceOracle.approval_program, Cond, completion_is, method_is,
    EnterprisePriceOracle.on_creation, EnterprisePriceOracle.on_opt_in,
    EnterprisePriceOracle.authorize_oracle, EnterprisePriceOracle.submit_price,
    EnterprisePriceOracle.get_price, EnterprisePriceOracle.emergency_pause,
    EnterprisePriceOracle.resume_operations,
    PyTealPatterns.validate_sender_is_creator in H;
  inv_done H.

Section Routing.

Variable e : env.
Variable s : store.

Lemma call_noop (app : application) :
  on_completion (Txn e) = NoOp -> call app e s = settle s (approval app e s).
Proof. intros H. unfold call. by rewrite H. Qed.

Lemma oracle_route (name : string) :
  invokes e name ->
  EnterprisePriceOracle.approval_program e s =
    Cond [
      (mret (String.eqb name "authorize"), EnterprisePriceOracle.authorize_oracle e);
      (mret (String.eqb name "submit"), EnterprisePriceOracle.submit_price e);
      (mret (String.eqb name "get_price"), EnterprisePriceOracle.get_price e);
      (mret (String.eqb name "emergency_pause"), EnterprisePriceOracle.emergency_pause e);
      (mret (String.eqb name "resume"), EnterprisePriceOracle.resume_operations e)
    ] s.
Proof.
  intros (Hid & Hoc & Harg). apply Z.eqb_neq in Hid.
  unfold EnterprisePriceOracle.approval_program, Cond, completion_is, method_is.
  unfold mbind, M_bind, mret, M_ret, arg. rewrite Hid, Hoc, Harg. reflexivity.
Qed.

Lemma risk_route (name : string) :
  invokes e name ->
  RiskManager.approval_program e s =
    Cond [
      (mret (String.eqb name "calculate_risk"), RiskManager.calculate_risk_score e);
      (mret (String.eqb name "check_liquidation"), RiskManager.check_liquidation e);
      (mret (String.eqb name "execute_liquidation"), RiskManager.execute_liquidation e);
      (mret (String.eqb name "update_health"), RiskManager.update_system_health e);
      (mret (String.eqb name "calculate_delta"), RiskManager.calculate_delta e)
    ] s.
Proof.
  intros (Hid & Hoc & Harg). apply Z.eqb_neq in Hid.
  unfold RiskManager.approval_program, Cond, completion_is, method_is.
  unfold mbind, M_bind, mret, M_ret, arg. rewrite Hid, Hoc, Harg. reflexivity.
Qed.

Lemma rebalance_route (name : string) :
  invokes e name ->
  RebalanceEngine.approval_program e s =
    Cond [
      (mret (String.eqb name "calculate_delta"), RebalanceEngine.calculate_delta e);
      (mret (String.eqb name "check_rebalance"), RebalanceEngine.check_rebalance_needed e);
      (mret (String.eqb name "execute_rebalance"), RebalanceEngine.execute_rebalance e);
      (mret (String.eqb name "update_funding"), RebalanceEngine.update_funding_rate e);
      (mret (String.eqb name "distribute_yield"), RebalanceEngine.distribute_yield e);
      (mret (String.eqb name "calculate_hedge"), RebalanceEngine.calculate_hedge_ratio e);
      (mret (String.eqb name "set_target_delta"), RebalanceEngine.set_target_delta e)
    ] s.
Proof.
  intros (Hid & Hoc & Harg). apply Z.eqb_neq in Hid.
  unfold RebalanceEngine.approval_program, Cond, completion_is, method_is.
  unfold mbind, M_bind, mret, M_ret, arg. rewrite Hid, Hoc, Harg. reflexivity.
Qed.

Lemma oracle_submit :
  invokes e "submit" ->
  call EnterprisePriceOracle.app e s = settle s (EnterprisePriceOracle.submit_price e s).
Proof.
  intros H. rewrite call_noop by apply H. simpl approval.
  by rewrite (oracle_route _ H).
Qed.

End Routing.

(** *** Running a program forwards, one primitive at a time *)

Section Steps.

Context {A : Type}.
Variable s : store.

Lemma Assert_step (c : bool) (err : error) (k : M A) :
  c = true -> (Assert c err;; k) s = k s.
Proof. by intros ->. Qed.

Lemma Assert_halt (c : bool) (err : error) (k : M A) :
  c = false -> (Assert c err;; k) s = Stop err s.
Proof. by intros ->. Qed.

Lemma globalGet_step (key : string) (f : Z -> M A) :
  (x ← globalGet key; f x) s = f (default 0 (globals s !! key)) s.
Proof. reflexivity. Qed.

Lemma globalPut_step (key : string) (v : Z) (k : M A) :
  (globalPut key v;; k) s = k (mkStore (<[key := v]> (globals s)) (locals s)).
Proof. reflexivity. Qed.

Lemma localGet_step (acct key : string) (m : gmap string Z) (f : Z -> M A) :
  locals s !! acct = Some m ->
  (x ← localGet acct key; f x) s = f (default 0 (m !! key)) s.
Proof. intros H. by rewrite (bind_eval _ _ _ _ _ (localGet_eval _ key _ _ H)). Qed.

Lemma localPut_step (acct key : string) (v : Z) (m : gmap string Z) (k : M A) :
  locals s !! acct = Some m ->
  (localPut acct key v;; k) s
  = k (mkStore (globals s) (<[acct := <[key := v]> m]> (locals s))).
Proof. intros H. by rewrite (bind_eval _ _ _ _ _ (localPut_eval _ key v _ _ H)). Qed.

Lemma add_step (a b : Z) (f : Z -> M A) :
  a + b <= u64_max -> (x ← add a b; f x) s = f (a + b) s.
Proof. intros H. by rewrite (bind_eval _ _ _ _ _ (add_eval _ _ _ H)). Qed.

Lemma sub_step (a b : Z) (f : Z -> M A) :
  b <= a -> (x ← sub a b; f x) s = f (a - b) s.
Proof. intros H. by rewrite (bind_eval _ _ _ _ _ (sub_eval _ _ _ H)). Qed.

Lemma mul_step (a b : Z) (f : Z -> M A) :
  a * b <= u64_max -> (x ← mul a b; f x) s = f (a * b) s.
Proof. intros H. by rewrite (bind_eval _ _ _ _ _ (mul_eval _ _ _ H)). Qed.

Lemma mul_halt (a b : Z) (f : Z -> M A) :
  a * b > u64_max -> (x ← mul a b; f x) s = Stop ArithOverflow s.
Proof.
  intros H. apply bind_halt. unfold mul.
  destruct (Z.gtb_spec (a * b) u64_max); [done | lia].
Qed.

Lemma div_step (a b : Z) (f : Z -> M A) :
  b ≠ 0 -> (x ← div a b; f x) s = f (a / b) s.
Proof. intros H. by rewrite (bind_eval _ _ _ _ _ (div_eval _ _ _ H)). Qed.

Lemma group_step (e : env) (i : nat) (g : gtxn) (f : gtxn -> M A) :
  Gtxn e !! i = Some g -> (x ← group e i; f x) s = f g s.
Proof. intros H. by rewrite (bind_eval _ _ _ _ _ (group_eval _ _ _ _ H)). Qed.

End Steps.

(** *** What a stopped evaluation tells about each primitive *)

Section Stops.

Lemma Assert_Stop c err err' s s' :
  Assert c err s = Stop err' s' -> c = false ∧ err' = err ∧ s' = s.
Proof. destruct c; [discriminate | by intros [= <- <-]]. Qed.

Lemma add_Stop a b err s s' : add a b s = Stop err s' -> err = ArithOverflow.
Proof. unfold add. destruct (a + b >? u64_max); [by intros [= <- _] | discriminate]. Qed.

Lemma sub_Stop a b err s s' : sub a b s = Stop err s' -> err = ArithUnderflow.
Proof. unfold sub. destruct (a <? b); [by intros [= <- _] | discriminate]. Qed.

Lemma mul_Stop a b err s s' : mul a b s = Stop err s' -> err = ArithOverflow.
Proof. unfold mul. destruct (a * b >? u64_max); [by intros [= <- _] | discriminate]. Qed.

Lemma div_Stop a b err s s' : div a b s = Stop err s' -> b = 0.
Proof. unfold div. destruct (Z.eqb_spec b 0); [done | discriminate]. Qed.

Lemma Btoi_Stop raw err s s' : Btoi raw s = Stop err s' -> err = BtoiTooLong.
Proof.
  unfold Btoi. destruct (8 <? String.length raw)%nat; [by intros [= <- _] | discriminate].
Qed.

Lemma arg_Stop e i err s s' : arg e i s = Stop err s' -> err = ArgIndexOutOfRange.
Proof.
  unfold arg. destruct (application_args (Txn e) !! i); [discriminate | by intros [= <- _]].
Qed.

Lemma localPut_Stop acct key v err s s' :
  localPut acct key v s = Stop err s' -> err = NotOptedIn.
Proof.
  unfold localPut. destruct (locals s !! acct); [discriminate | by intros [= <- _]].
Qed.

End Stops.

(** Takes a hypothesis [op e s = Stop err s'] apart: one case for each
    primitive that may have stopped, with what ran before it. *)
Ltac inv_stop H :=
  lazymatch type of H with
  | (_ ≫= _) _ = Stop _ _ =>
      let x := fresh "x" in let s1 := fresh "s" in let H1 := fresh "H" in
      apply bind_Stop in H; destruct H as [H | (x & s1 & H1 & H)];
      [inv_stop H | inv_done H1; inv_stop H]
  | Assert _ _ _ = Stop _ _ =>
      let Hc := fresh "Hc" in let He := fresh "Herr" in
      apply Assert_Stop in H; destruct H as (Hc & He & ->)
  | add _ _ _ = Stop _ _ => apply add_Stop in H
  | sub _ _ _ = Stop _ _ => apply sub_Stop in H
  | mul _ _ _ = Stop _ _ => apply mul_Stop in H
  | div _ _ _ = Stop _ _ => apply div_Stop in H
  | Btoi _ _ = Stop _ _ => apply Btoi_Stop in H
  | arg _ _ _ = Stop _ _ => apply arg_Stop in H
  | localPut _ _ _ _ = Stop _ _ => apply localPut_Stop in H
  | Return _ _ = Stop _ _ => discriminate H
  | @mret _ _ _ _ _ = Stop _ _ => discriminate H
  | globalGet _ _ = Stop _ _ => discriminate H
  | globalPut _ _ _ = Stop _ _ => discriminate H
  | (if ?c then _ else _) _ = Stop _ _ =>
      let Hc := fresh "Hc" in destruct c eqn:Hc; inv_stop H
  | _ => idtac
  end.

(** Closes the side conditions of the forward steps. *)
Ltac side :=
  first [ eassumption
        | apply Z.eqb_eq; lia | apply Z.leb_le; lia | apply Z.ltb_lt; lia
        | apply Z.eqb_neq; lia | apply Z.leb_gt; lia | apply Z.ltb_ge; lia
        | lia ].

(** ** The price oracle *)

Section OracleFacts.

Import EnterprisePriceOracle.

Lemma arg_is_unique (e : env) (i : nat) (v w : Z) :
  arg_is e i v -> arg_is e i w -> v = w.
Proof. intros (b & Hb & _ & <-) (b' & Hb' & _ & <-). congruence. Qed.

Lemma settle_Approved (s s' : store) (r : outcome Z) :
  settle s r = (s', Approved) -> ∃ v, r = Done v s' ∧ v ≠ 0.
Proof.
  destruct r as [v s1|err s1]; cbn; [| discriminate].
  destruct (Z.eqb_spec v 0); [discriminate |]. intros [= <-]. eauto.
Qed.

Lemma settle_Rejected (s s' : store) (r : outcome Z) (err : error) :
  settle s r = (s', Rejected err) -> s' = s.
Proof.
  destruct r as [v s1|err1 s1]; cbn; [| by intros [= <-]].
  destruct (Z.eqb_spec v 0); [by intros [= <-] | discriminate].
Qed.

Lemma settle_Stop (s s1 : store) (err : error) :
  settle s (Stop err s1) = (s, Rejected err).
Proof. reflexivity. Qed.

(** What an accepted submission has checked and written. *)
Lemma submit_price_Done (e : env) (s s' : store) (p v : Z) :
  arg_is e 1 p ->
  submit_price e s = Done v s' ->
  v = 1
  ∧ authorized s (sender (Txn e)) = Some 1
  ∧ circuit_breaker s = 0
  ∧ Z.abs (p - current_price s) <= current_price s * MAX_PRICE_DEVIATION / 10000
  ∧ current_price s' = p.
Proof.
  intros Hp H. unfold submit_price in H. inv_done H.
  all: match goal with
       | Ha : application_args _ !! 1%nat = Some ?raw, Hd : decodes ?raw ?q |- _ =>
           assert (q = p) as -> by (eapply arg_is_unique; [exists raw; eauto | done])
       end.
  all: unfold authorized, local_field, circuit_breaker, current_price; cbn [globals locals].
  all: rewrite Hloc; cbn [mbind option_bind]; bool_facts.
  all: oracle_keys; simplify_map_eq.
  all: repeat split; try done; try lia; congruence.
Qed.

(** C1. For every store and every submitted price [p]: a [submit] call that
    is approved has [|p - current_price| <= current_price * 500 / 10000]
    (and installs [p] as the price), and a call whose deviation exceeds that
    bound is rejected, leaving the store, hence [current_price], as it
    was. *)
Theorem submit_price_deviation_bound (e : env) (s : store) (p : Z) :
  invokes e "submit" ->
  arg_is e 1 p ->
  MAX_PRICE_DEVIATION = 500
  ∧ (∀ s', call app e s = (s', Approved) ->
       Z.abs (p - current_price s) <= current_price s * MAX_PRICE_DEVIATION / 10000
       ∧ current_price s' = p)
  ∧ (Z.abs (p - current_price s) > current_price s * MAX_PRICE_DEVIATION / 10000 ->
       ∃ err, call app e s = (s, Rejected err)
              ∧ current_price (fst (call app e s)) = current_price s).
Proof.
  intros Hinv Hp. rewrite (oracle_submit _ _ Hinv).
  split; [reflexivity | split].
  - intros s' Hcall. apply settle_Approved in Hcall as (v & Hrun & _).
    by destruct (submit_price_Done _ _ _ _ _ Hp Hrun) as (_ & _ & _ & ? & ?).
  - intros Hfar. destruct (submit_price e s) as [v s1|err s1] eqn:Hrun.
    + destruct (submit_price_Done _ _ _ _ _ Hp Hrun) as (_ & _ & _ & ? & _). lia.
    + exists err. by rewrite settle_Stop.
Qed.

Lemma submit_price_deviation_bound_witness :
  Z.abs (260000 - current_price Sample.oracle_veteran)
    <= current_price Sample.oracle_veteran * MAX_PRICE_DEVIATION / 10000
  ∧ current_price (fst (call app (Sample.submit_env 260000) Sample.oracle_veteran)) = 260000.
Proof.
  refine (proj1 (proj2 (submit_price_deviation_bound
            (Sample.submit_env 260000) Sample.oracle_veteran 260000 _ _)) _ _).
  - repeat split; vm_compute; lia.
  - eexists; repeat split; vm_compute; lia.
  - vm_compute. reflexivity.
Defined.

(** C7. [get_price] stops with [StalePrice] exactly when
    [now - last_update_time > 3600], whatever the circuit breaker says; when
    the price is fresh (the last update lies at most 3600 seconds back) and
    the breaker is clear it returns [current_price]. *)
Theorem get_price_staleness (e : env) (s : store) :
  STALENESS_THRESHOLD = 3600
  ∧ ((∃ s1, get_price e s = Stop StalePrice s1)
       <-> latest_timestamp e - last_update_time s > STALENESS_THRESHOLD)
  ∧ (last_update_time s <= latest_timestamp e ->
     latest_timestamp e - last_update_time s <= STALENESS_THRESHOLD ->
     circuit_breaker s = 0 ->
     get_price e s = Done (current_price s) s).
Proof.
  unfold get_price, last_update_time, circuit_breaker, current_price,
    STALENESS_THRESHOLD, globalGet, sub, Assert, Return.
  unfold mbind, M_bind, mret, M_ret, fail.
  set (l := default 0 (globals s !! last_update_key)).
  split; [reflexivity | split; [split |]].
  - intros [s1 H]. revert H.
    destruct (Z.ltb_spec (latest_timestamp e) l); cbv beta iota; [discriminate |].
    destruct (Z.leb_spec (latest_timestamp e - l) 3600); cbv beta iota; [| lia].
    destruct (default 0 (globals s !! circuit_breaker_key) =? 0); discriminate.
  - intros H. exists s.
    destruct (Z.ltb_spec (latest_timestamp e) l); cbv beta iota; [lia |].
    destruct (Z.leb_spec (latest_timestamp e - l) 3600); [lia | reflexivity].
  - intros Hclock Hfresh Hclear.
    destruct (Z.ltb_spec (latest_timestamp e) l); cbv beta iota; [lia |].
    destruct (Z.leb_spec (latest_timestamp e - l) 3600); cbv beta iota; [| lia].
    by rewrite Hclear.
Qed.

Lemma get_price_staleness_witness :
  get_price Sample.get_price_env Sample.oracle_deployed
  = Done (current_price Sample.oracle_deployed) Sample.oracle_deployed.
Proof.
  refine (proj2 (proj2 (get_price_staleness
            Sample.get_price_env Sample.oracle_deployed)) _ _ _).
  - vm_compute. discriminate.
  - vm_compute. discriminate.
  - vm_compute. reflexivity.
Defined.

End OracleFacts.

(** ** Calls in general *)

Section CallFacts.

Variable app : application.

(** A rejected call leaves the store alone. *)
Lemma call_Rejected (e : env) (s s' : store) (err : error) :
  call app e s = (s', Rejected err) -> s' = s.
Proof.
  unfold call.
  destruct (on_completion (Txn e)), (locals s !! sender (Txn e));
    try (by intros [= <-]); try discriminate; try apply settle_Rejected.
  destruct (settle s (approval app e s)) as [s1 [|err1]] eqn:Hrun; [discriminate |].
  intros [= <- _]. by apply settle_Rejected in Hrun.
Qed.

(** What an approved call has run, by kind of call. *)
Lemma call_Approved (e : env) (s s' : store) :
  call app e s = (s', Approved) ->
  match on_completion (Txn e) with
  | OptIn =>
      locals s !! sender (Txn e) = None
      ∧ ∃ v, approval app e (allocate (sender (Txn e)) s) = Done v s' ∧ v ≠ 0
  | CloseOut =>
      is_Some (locals s !! sender (Txn e))
      ∧ ∃ v s1, approval app e s = Done v s1 ∧ v ≠ 0 ∧ s' = release (sender (Txn e)) s1
  | ClearState =>
      is_Some (locals s !! sender (Txn e))
      ∧ s' = release (sender (Txn e)) (fst (settle s (clear_state app e s)))
  | NoOp | UpdateApplication | DeleteApplication =>
      ∃ v, approval app e s = Done v s' ∧ v ≠ 0
  end.
Proof.
  unfold call.
  destruct (on_completion (Txn e)), (locals s !! sender (Txn e)) as [m|] eqn:Hm;
    try discriminate; try apply settle_Approved.
  - intros H. split; [done |]. by apply (settle_Approved s).
  - destruct (settle s (approval app e s)) as [s1 [|err1]] eqn:Hrun; [| discriminate].
    intros [= <-]. apply settle_Approved in Hrun as (v & Hrun & Hv).
    split; [by eexists |]. by exists v, s1.
  - intros [= <-]. split; [by eexists | done].
Qed.

(** What an approved creation has run: the approval program, on the empty
    store or, when the creation opts in, on the empty store with the
    sender's local map allocated. *)
Lemma create_Approved (e : env) (s : store) :
  create app e = (s, Approved) ->
  ∃ s0 v,
    (s0 = empty_store ∨ s0 = allocate (sender (Txn e)) empty_store)
    ∧ approval app e s0 = Done v s ∧ v ≠ 0.
Proof.
  unfold create. intros H%call_Approved.
  destruct (on_completion (Txn e)).
  - destruct H as (v & H & Hv). exists empty_store, v. auto.
  - destruct H as (_ & v & H & Hv).
    exists (allocate (sender (Txn e)) empty_store), v. auto.
  - destruct H as ([m Hm] & _). unfold empty_store in Hm. cbn [locals] in Hm.
    by rewrite lookup_empty in Hm.
  - destruct H as ([m Hm] & _). unfold empty_store in Hm. cbn [locals] in Hm.
    by rewrite lookup_empty in Hm.
  - destruct H as (v & H & Hv). exists empty_store, v. auto.
  - destruct H as (v & H & Hv). exists empty_store, v. auto.
Qed.

End CallFacts.

(** ** The oracle's authorization flag *)

Section OracleAuthorization.

Import EnterprisePriceOracle.

Lemma local_field_allocate (k a b : string) (s : store) :
  local_field k (allocate a s) b
  = if decide (a = b) then Some 0 else local_field k s b.
Proof.
  unfold local_field, allocate. cbn [locals]. rewrite lookup_insert.
  case_decide; [| done]. cbn. by rewrite lookup_empty.
Qed.

Lemma local_field_release (k a b : string) (s : store) :
  local_field k (release a s) b
  = if decide (a = b) then None else local_field k s b.
Proof.
  unfold local_field, release. cbn [locals]. rewrite lookup_delete.
  by case_decide.
Qed.

(** The approval program writes the flag only when it registers the sender,
    and then writes 0. *)
Lemma approval_flag (e : env) (s s' : store) (v : Z) (a : string) (x : Z) :
  approval_program e s = Done v s' ->
  authorized s' a = Some x -> x = 0 ∨ authorized s a = Some x.
Proof.
  intros H. oracle_paths H.
  all: unfold authorized, local_field; cbn [globals locals]; eauto.
  all: destruct (decide (a = sender (Txn e))) as [-> | Hother];
    oracle_keys; simplify_map_eq; cbn; simplify_map_eq; intros [= <-]; eauto.
Qed.

Lemma call_flag (e : env) (s s' : store) (r : receipt) (a : string) (x : Z) :
  call app e s = (s', r) ->
  authorized s' a = Some x -> x = 0 ∨ authorized s a = Some x.
Proof.
  destruct r as [| err]; [| intros ->%call_Rejected; eauto].
  intros H%call_Approved. unfold authorized in *.
  destruct (on_completion (Txn e)); cbn [approval clear_state app] in H.
  - destruct H as (v & H & _). eapply approval_flag, H.
  - destruct H as (Hnew & v & H & _). intros Hx.
    destruct (approval_flag _ _ _ _ _ _ H Hx) as [-> | Hpre]; [by left |].
    unfold authorized in Hpre. rewrite local_field_allocate in Hpre.
    case_decide; simplify_eq; eauto.
  - destruct H as (_ & v & s1 & H & _ & ->). rewrite local_field_release.
    case_decide; [discriminate |]. eapply approval_flag, H.
  - destruct H as (_ & ->). rewrite local_field_release. cbn.
    case_decide; [discriminate | eauto].
  - destruct H as (v & H & _). eapply approval_flag, H.
  - destruct H as (v & H & _). eapply approval_flag, H.
Qed.

Lemma reachable_flag (now : Z) (s : store) (a : string) :
  reachable app now s -> registered s a -> authorized s a = Some 0.
Proof.
  intros Hreach. revert a.
  induction Hreach as [e s Hid Hcreate | now e s s' r Hreach IH Hid Hclock Hcall];
    intros a [m Hm].
  - assert (∃ x, authorized s a = Some x) as [x Hx].
    { unfold authorized, local_field. rewrite Hm. by eexists. }
    unfold create in Hcreate.
    destruct (call_flag _ _ _ _ _ _ Hcreate Hx) as [-> | Hpre]; [done |].
    unfold authorized, local_field, empty_store in Hpre. cbn [locals] in Hpre.
    by rewrite lookup_empty in Hpre.
  - assert (∃ x, authorized s' a = Some x) as [x Hx].
    { unfold authorized, local_field. rewrite Hm. by eexists. }
    destruct (call_flag _ _ _ _ _ _ Hcall Hx) as [-> | Hpre]; [done |].
    rewrite Hx, <- Hpre. apply IH.
    unfold authorized, local_field in Hpre.
    destruct (locals s !! a) eqn:Hloc; [by eexists | discriminate].
Qed.

(** C3. No call writes 1 into an authorization flag: a flag that reads 1
    after a call read 1 before it.  Hence in every store reachable from
    deployment every registered oracle has flag 0, [submit_price] stops at
    its first assertion whoever calls it, and every [submit] call is
    rejected. *)
Theorem authorized_flag_never_set :
  (∀ e s s' r a,
     call app e s = (s', r) -> authorized s' a = Some 1 -> authorized s a = Some 1)
  ∧ (∀ now s,
       reachable app now s ->
       (∀ a, registered s a -> authorized s a = Some 0)
       ∧ (∀ e, ∃ err s1, submit_price e s = Stop err s1)
       ∧ (∀ e, invokes e "submit" -> ∃ err, call app e s = (s, Rejected err))).
Proof.
  split.
  - intros e s s' r a Hcall Hflag.
    by destruct (call_flag _ _ _ _ _ _ Hcall Hflag).
  - intros now s Hreach.
    assert (∀ e, ∃ err s1, submit_price e s = Stop err s1) as Hstop.
    { intros e. destruct (submit_price e s) as [v s1|err s1] eqn:H; [| eauto].
      exfalso. unfold submit_price in H. inv_done H.
      all: assert (authorized s (sender (Txn e)) = Some 0) as Hzero
        by (eapply reachable_flag; [done | by eexists]).
      all: unfold authorized, local_field in Hzero; rewrite Hloc in Hzero.
      all: cbn in Hzero; bool_facts; congruence. }
    split; [intros a; by eapply reachable_flag | split; [done |]].
    intros e Hinv. rewrite (oracle_submit _ _ Hinv).
    destruct (Hstop e) as (err & s1 & ->). by exists err.
Qed.

Lemma sample_registration_reachable : reachable app 1100 Sample.oracle_registered.
Proof.
  apply (reachable_call app 1000 Sample.opt_in_env Sample.oracle_deployed _ Approved).
  - apply (reachable_create app Sample.creation_env); reflexivity.
  - simpl; lia.
  - simpl; lia.
  - reflexivity.
Defined.

Lemma authorized_flag_never_set_witness :
  authorized Sample.oracle_registered Sample.oracle_1 = Some 0.
Proof.
  apply (proj1 (proj2 authorized_flag_never_set 1100 Sample.oracle_registered
                  sample_registration_reachable)).
  vm_compute. eexists. reflexivity.
Defined.

(** C2, evaluated.  The creator's [authorize] call naming a registered
    oracle is approved and raises the oracle counter by one, yet the oracle's
    flag still reads 0 afterwards; the same call is approved when the named
    account never registered; a caller other than the creator is refused
    with [Unauthorized]. *)
Theorem authorize_leaves_flag_clear :
  let accepted := call app Sample.authorize_env Sample.oracle_registered in
  let outsider :=
    Sample.call_env Sample.oracle_1 NoOp ["authorize"; Sample.oracle_1] [] 1200 in
  authorized Sample.oracle_registered Sample.oracle_1 = Some 0
  ∧ snd accepted = Approved
  ∧ authorized (fst accepted) Sample.oracle_1 = Some 0
  ∧ oracle_count (fst accepted) = oracle_count Sample.oracle_registered + 1
  ∧ ¬ registered Sample.oracle_deployed Sample.oracle_1
  ∧ snd (call app Sample.authorize_env Sample.oracle_deployed) = Approved
  ∧ snd (call app outsider Sample.oracle_registered) = Rejected Unauthorized.
Proof.
  repeat split; try (vm_compute; reflexivity).
  intros [m Hm]. vm_compute in Hm. discriminate.
Qed.

End OracleAuthorization.

(** ** The risk manager *)

Section RiskFacts.

Import RiskManager.

Lemma risk_invokes (e : env) (s : store) (name : string) (op : env -> M Z) :
  invokes e name ->
  Cond [
    (mret (String.eqb name "calculate_risk"), calculate_risk_score e);
    (mret (String.eqb name "check_liquidation"), check_liquidation e);
    (mret (String.eqb name "execute_liquidation"), execute_liquidation e);
    (mret (String.eqb name "update_health"), update_system_health e);
    (mret (String.eqb name "calculate_delta"), calculate_delta e)
  ] s = op e s ->
  call app e s = settle s (op e s).
Proof.
  intros Hinv Hsel. rewrite call_noop by apply Hinv. cbn [approval app].
  by rewrite (risk_route _ _ _ Hinv), Hsel.
Qed.

(** With no balance the ratio is 10000 and nothing is multiplied or
    divided. *)
Lemma ratio_bps_zero_balance (collateral : Z) (s : store) :
  ratio_bps collateral 0 s = Done 10000 s.
Proof. reflexivity. Qed.

Lemma ratio_bps_positive (collateral balance : Z) (s : store) :
  0 < balance -> collateral * 10000 <= u64_max ->
  ratio_bps collateral balance s = Done (collateral * 10000 / balance) s.
Proof.
  intros Hpos Hfit. unfold ratio_bps.
  destruct (Z.gtb_spec balance 0); [| lia].
  rewrite mul_step by done. by apply div_eval, Z.neq_sym, Z.lt_neq.
Qed.

Lemma ratio_bps_never_divides_by_zero (collateral balance : Z) (s s' : store) (err : error) :
  ratio_bps collateral balance s = Stop err s' -> err = ArithOverflow.
Proof.
  unfold ratio_bps. intros H. inv_stop H; [done | bool_facts; lia].
Qed.

(** C8. When the balance argument is 0, whatever the collateral and the
    price: [calculate_risk_score] stores 10000 as the caller's risk score and
    [check_liquidation] returns 0 (false).  The division by the balance sits
    in the branch taken only when the balance is positive, so neither
    operation ever stops on a division by zero. *)
Theorem zero_balance_is_fully_healthy (e : env) (s : store) :
  (∀ collateral price,
     args_length e = 4 -> arg_is e 1 collateral -> arg_is e 2 0 -> arg_is e 3 price ->
     is_Some (locals s !! sender (Txn e)) ->
     ∃ s', calculate_risk_score e s = Done 1 s'
           ∧ risk_score s' (sender (Txn e)) = Some 10000)
  ∧ (∀ collateral price,
       args_length e = 5 -> arg_is e 2 collateral -> arg_is e 3 0 -> arg_is e 4 price ->
       check_liquidation e s = Done 0 s)
  ∧ (∀ s1, calculate_risk_score e s ≠ Stop DivisionByZero s1
           ∧ check_liquidation e s ≠ Stop DivisionByZero s1).
Proof.
  split; [| split].
  - intros collateral price Hlen Hc Hb Hp [m Hm].
    unfold calculate_risk_score.
    rewrite Assert_step by side.
    rewrite (arg_decodes _ _ _ _ _ Hc), (arg_decodes _ _ _ _ _ Hb), (arg_decodes _ _ _ _ _ Hp).
    rewrite (bind_eval _ _ _ _ _ (ratio_bps_zero_balance _ _)).
    rewrite (localPut_step _ _ _ _ _ _ Hm). cbn [globals locals].
    erewrite localPut_step by (cbn [locals]; apply lookup_insert_eq).
    eexists. split; [reflexivity |].
    unfold risk_score, local_field, USER_RISK_SCORE_KEY, USER_LIQUIDATION_PRICE_KEY.
    cbn [locals]. by simplify_map_eq.
  - intros collateral price Hlen Hc Hb Hp.
    unfold check_liquidation.
    rewrite Assert_step by side.
    rewrite (arg_decodes _ _ _ _ _ Hc), (arg_decodes _ _ _ _ _ Hb), (arg_decodes _ _ _ _ _ Hp).
    by rewrite (bind_eval _ _ _ _ _ (ratio_bps_zero_balance _ _)).
  - intros s1. split; intros H.
    + unfold calculate_risk_score in H. inv_stop H; try discriminate.
      by apply ratio_bps_never_divides_by_zero in H.
    + unfold check_liquidation in H. inv_stop H; try discriminate.
      by apply ratio_bps_never_divides_by_zero in H.
Qed.

Lemma zero_balance_is_fully_healthy_witness :
  (∃ s', calculate_risk_score (Sample.risk_score_env 100 0 250000) Sample.risk_opted_in
         = Done 1 s'
         ∧ risk_score s' Sample.user_1 = Some 10000)
  ∧ check_liquidation (Sample.check_liquidation_env 100 0 250000) Sample.risk_opted_in
    = Done 0 Sample.risk_opted_in.
Proof.
  split.
  - apply (proj1 (zero_balance_is_fully_healthy
                    (Sample.risk_score_env 100 0 250000) Sample.risk_opted_in) 100 250000).
    + reflexivity.
    + eexists; repeat split; vm_compute; lia.
    + eexists; repeat split; vm_compute; lia.
    + eexists; repeat split; vm_compute; lia.
    + vm_compute. eexists. reflexivity.
  - apply (proj1 (proj2 (zero_balance_is_fully_healthy
                    (Sample.check_liquidation_env 100 0 250000) Sample.risk_opted_in))
             100 250000).
    + reflexivity.
    + eexists; repeat split; vm_compute; lia.
    + eexists; repeat split; vm_compute; lia.
    + eexists; repeat split; vm_compute; lia.
Defined.

(** C4, evaluated.  For collateral 100 and balance 200, whatever the price:
    [calculate_risk_score] stores 5000 as the caller's risk score, and
    [check_liquidation] computes the same 5000 (basis points), compares it
    with [LIQUIDATION_THRESHOLD = 120] and returns 0 (false). *)
Theorem half_collateralised_not_liquidatable
    (e_score e_check : env) (s : store) (price : Z) :
  args_length e_score = 4 ->
  arg_is e_score 1 100 -> arg_is e_score 2 200 -> arg_is e_score 3 price ->
  is_Some (locals s !! sender (Txn e_score)) ->
  args_length e_check = 5 ->
  arg_is e_check 2 100 -> arg_is e_check 3 200 -> arg_is e_check 4 price ->
  (∃ s', calculate_risk_score e_score s = Done 1 s'
         ∧ risk_score s' (sender (Txn e_score)) = Some 5000)
  ∧ LIQUIDATION_THRESHOLD = 120
  ∧ check_liquidation e_check s = Done 0 s.
Proof.
  intros Hlen Hc Hb Hp [m Hm] Hlen' Hc' Hb' Hp'. split; [| split; [done |]].
  - unfold calculate_risk_score.
    rewrite Assert_step by side.
    rewrite (arg_decodes _ _ _ _ _ Hc), (arg_decodes _ _ _ _ _ Hb), (arg_decodes _ _ _ _ _ Hp).
    rewrite (bind_eval _ _ _ _ _ (ratio_bps_positive 100 200 _ eq_refl ltac:(done))).
    rewrite (localPut_step _ _ _ _ _ _ Hm). cbn [globals locals].
    erewrite localPut_step by (cbn [locals]; apply lookup_insert_eq).
    eexists. split; [reflexivity |].
    unfold risk_score, local_field, USER_RISK_SCORE_KEY, USER_LIQUIDATION_PRICE_KEY.
    cbn [locals]. by simplify_map_eq.
  - unfold check_liquidation.
    rewrite Assert_step by side.
    rewrite (arg_decodes _ _ _ _ _ Hc'), (arg_decodes _ _ _ _ _ Hb'), (arg_decodes _ _ _ _ _ Hp').
    by rewrite (bind_eval _ _ _ _ _ (ratio_bps_positive 100 200 _ eq_refl ltac:(done))).
Qed.

Lemma half_collateralised_not_liquidatable_witness :
  (∃ s', calculate_risk_score (Sample.risk_score_env 100 200 250000) Sample.risk_opted_in
         = Done 1 s'
         ∧ risk_score s' Sample.user_1 = Some 5000)
  ∧ LIQUIDATION_THRESHOLD = 120
  ∧ check_liquidation (Sample.check_liquidation_env 100 200 250000) Sample.risk_opted_in
    = Done 0 Sample.risk_opted_in.
Proof.
  apply (half_collateralised_not_liquidatable
           (Sample.risk_score_env 100 200 250000)
           (Sample.check_liquidation_env 100 200 250000)
           Sample.risk_opted_in 250000).
  all: try reflexivity.
  all: eexists; repeat split; vm_compute; lia.
Defined.

(** C5, evaluated.  [execute_liquidation] checks that the first member of
    the group is a payment to the application's address and never looks at
    the amount paid: whatever that amount is, the call is approved and the
    pool grows by half the penalty on the declared amount. *)
Theorem execute_liquidation_ignores_paid_amount
    (e : env) (s : store) (declared price : Z) (g g' : gtxn) (rest : list gtxn) :
  invokes e "execute_liquidation" ->
  args_length e = 5 ->
  arg_is e 2 declared -> arg_is e 3 price ->
  Gtxn e = g :: g' :: rest ->
  type_enum g = Payment ->
  receiver g = current_application_address e ->
  declared * LIQUIDATION_PENALTY <= u64_max ->
  liquidation_pool s + declared * LIQUIDATION_PENALTY / 10000 / 2 <= u64_max ->
  ∃ s', call app e s = (s', Approved)
        ∧ liquidation_pool s'
          = liquidation_pool s + declared * LIQUIDATION_PENALTY / 10000 / 2.
Proof.
  intros Hinv Hlen Hd Hp Hgrp Htype Hrecv Hfit Hpool.
  rewrite (risk_invokes e s _ execute_liquidation Hinv)
    by (destruct Hinv as (_ & _ & ?); reflexivity).
  unfold execute_liquidation.
  rewrite Assert_step by side.
  rewrite Assert_step by (unfold group_size; rewrite Hgrp; cbn [length]; side).
  rewrite (arg_decodes _ _ _ _ _ Hd), (arg_decodes _ _ _ _ _ Hp).
  rewrite (group_step _ _ 0 g) by (by rewrite Hgrp).
  rewrite Assert_step by (by rewrite Htype).
  rewrite Assert_step by (rewrite Hrecv; apply String.eqb_refl).
  rewrite mul_step by done.
  rewrite div_step by done.
  rewrite div_step by done.
  rewrite globalGet_step.
  rewrite add_step by apply Hpool.
  rewrite globalPut_step.
  eexists. split; [reflexivity |].
  unfold liquidation_pool. cbn [globals]. by rewrite lookup_insert_eq.
Qed.

Lemma execute_liquidation_ignores_paid_amount_witness :
  ∃ s', call app Sample.liquidation_env Sample.risk_opted_in = (s', Approved)
        ∧ liquidation_pool s'
          = liquidation_pool Sample.risk_opted_in + 1000000 * LIQUIDATION_PENALTY / 10000 / 2.
Proof.
  apply (execute_liquidation_ignores_paid_amount
           Sample.liquidation_env Sample.risk_opted_in 1000000 250000
           (mkGtxn Payment Sample.app_address 1) Sample.app_call_leg []).
  all: try reflexivity.
  all: try (eexists; repeat split; vm_compute; lia).
  all: try (repeat split; vm_compute; lia).
  all: vm_compute; discriminate.
Defined.

End RiskFacts.

(** ** The rebalance engine *)

Ltac rebalance_keys :=
  unfold RebalanceEngine.LAST_REBALANCE_KEY, RebalanceEngine.CURRENT_DELTA_KEY,
    RebalanceEngine.TARGET_DELTA_KEY, RebalanceEngine.FUNDING_RATE_KEY,
    RebalanceEngine.YIELD_POOL_KEY, RebalanceEngine.REBALANCE_COUNT_KEY in *.

(** Every way the engine's approval program can finish. *)
Ltac rebalance_paths H :=
  unfold RebalanceEngine.approval_program, Cond, completion_is, method_is,
    RebalanceEngine.on_creation, RebalanceEngine.calculate_delta,
    RebalanceEngine.check_rebalance_needed, RebalanceEngine.execute_rebalance,
    RebalanceEngine.update_funding_rate, RebalanceEngine.distribute_yield,
    RebalanceEngine.calculate_hedge_ratio, RebalanceEngine.hedge_scratch,
    RebalanceEngine.set_target_delta in H;
  inv_done H.

Section RebalanceFacts.

Import RebalanceEngine.

Lemma rebalance_invokes (e : env) (s : store) (name : string) (op : env -> M Z) :
  invokes e name ->
  Cond [
    (mret (String.eqb name "calculate_delta"), calculate_delta e);
    (mret (String.eqb name "check_rebalance"), check_rebalance_needed e);
    (mret (String.eqb name "execute_rebalance"), execute_rebalance e);
    (mret (String.eqb name "update_funding"), update_funding_rate e);
    (mret (String.eqb name "distribute_yield"), distribute_yield e);
    (mret (String.eqb name "calculate_hedge"), calculate_hedge_ratio e);
    (mret (String.eqb name "set_target_delta"), set_target_delta e)
  ] s = op e s ->
  call app e s = settle s (op e s).
Proof.
  intros Hinv Hsel. rewrite call_noop by apply Hinv. cbn [approval app].
  by rewrite (rebalance_route _ _ _ Hinv), Hsel.
Qed.

(** A yield distribution whose companion payment carries another amount
    than the one declared stops at one of the payment checks. *)
Lemma distribute_yield_mismatch (e : env) (s : store) (declared : Z)
    (g g' : gtxn) (rest : list gtxn) :
  args_length e = 2 ->
  arg_is e 1 declared ->
  Gtxn e = g :: g' :: rest ->
  amount g ≠ declared ->
  distribute_yield e s = Stop GroupPaymentMismatch s.
Proof.
  intros Hlen Hd Hgrp Hpaid. unfold distribute_yield.
  rewrite Assert_step by side.
  rewrite Assert_step by (unfold group_size; rewrite Hgrp; cbn [length]; side).
  rewrite (arg_decodes _ _ _ _ _ Hd).
  rewrite (group_step _ _ 0 g) by (by rewrite Hgrp).
  destruct (bool_decide (type_enum g = Payment)); [| reflexivity].
  rewrite Assert_step by done.
  destruct (String.eqb (receiver g) (current_application_address e)); [| reflexivity].
  rewrite Assert_step by done.
  by rewrite Assert_halt by side.
Qed.

(** A rebalance never finishes when the slippage argument is above the
    limit. *)
Lemma execute_rebalance_Done (e : env) (s s' : store) (v slippage : Z) :
  arg_is e 3 slippage ->
  execute_rebalance e s = Done v s' ->
  slippage <= MAX_SLIPPAGE.
Proof.
  intros Hs H. unfold execute_rebalance in H. inv_done H.
  match goal with
  | Ha : application_args _ !! 3%nat = Some ?raw, Hd : decodes ?raw ?q |- _ =>
      assert (q = slippage) as -> by (eapply arg_is_unique; [exists raw; eauto | done])
  end.
  bool_facts. lia.
Qed.

Lemma execute_rebalance_slippage (e : env) (s : store) (size direction slippage : Z) :
  args_length e = 4 ->
  2 <= group_size e ->
  arg_is e 1 size -> arg_is e 2 direction -> arg_is e 3 slippage ->
  slippage > MAX_SLIPPAGE ->
  execute_rebalance e s = Stop SlippageExceeded s.
Proof.
  intros Hlen Hgrp Hsz Hdir Hs Hfar. unfold execute_rebalance.
  rewrite Assert_step by side.
  rewrite Assert_step by side.
  rewrite (arg_decodes _ _ _ _ _ Hsz), (arg_decodes _ _ _ _ _ Hdir),
    (arg_decodes _ _ _ _ _ Hs).
  by rewrite Assert_halt by side.
Qed.

Lemma step_Rejected (c : Protocol.component) (e : env) (ps ps' : Protocol.state)
    (err : error) :
  Protocol.step c e ps = (ps', Rejected err) -> ps' = ps.
Proof.
  unfold Protocol.step.
  destruct (call (Protocol.program c) e (Protocol.store_of c ps)) as [s' r] eqn:Hcall.
  intros [= <- ->]. apply call_Rejected in Hcall as ->.
  by destruct c, ps.
Qed.

(** C6. A call that fails leaves every store of the protocol, global and
    per-account, exactly as it was.  In particular a [distribute_yield] whose
    companion payment to the engine carries another amount than the one
    declared (999 for 1000) fails with [GroupPaymentMismatch] and
    [yield_pool] is unchanged, and an [execute_rebalance] with slippage above
    [MAX_SLIPPAGE = 300] fails (with [SlippageExceeded] when the rest of the
    call is well formed) and [rebalance_count] is unchanged. *)
Theorem failed_calls_change_nothing :
  (∀ c e ps ps' err, Protocol.step c e ps = (ps', Rejected err) -> ps' = ps)
  ∧ (∀ e s declared g g' rest,
       invokes e "distribute_yield" ->
       args_length e = 2 ->
       arg_is e 1 declared ->
       Gtxn e = g :: g' :: rest ->
       amount g ≠ declared ->
       call app e s = (s, Rejected GroupPaymentMismatch)
       ∧ yield_pool (fst (call app e s)) = yield_pool s)
  ∧ MAX_SLIPPAGE = 300
  ∧ (∀ e s slippage,
       invokes e "execute_rebalance" ->
       arg_is e 3 slippage ->
       slippage > MAX_SLIPPAGE ->
       (∃ err, call app e s = (s, Rejected err))
       ∧ rebalance_count (fst (call app e s)) = rebalance_count s
       ∧ (∀ size direction,
            args_length e = 4 -> 2 <= group_size e ->
            arg_is e 1 size -> arg_is e 2 direction ->
            call app e s = (s, Rejected SlippageExceeded))).
Proof.
  split; [exact step_Rejected | split; [| split; [reflexivity |]]].
  - intros e s declared g g' rest Hinv Hlen Hd Hgrp Hpaid.
    rewrite (rebalance_invokes e s _ distribute_yield Hinv)
      by (destruct Hinv as (_ & _ & ?); reflexivity).
    by rewrite (distribute_yield_mismatch _ _ _ _ _ _ Hlen Hd Hgrp Hpaid).
  - intros e s slippage Hinv Hs Hfar.
    rewrite (rebalance_invokes e s _ execute_rebalance Hinv)
      by (destruct Hinv as (_ & _ & ?); reflexivity).
    destruct (execute_rebalance e s) as [v s1|err s1] eqn:Hrun.
    { apply (execute_rebalance_Done _ _ _ _ _ Hs) in Hrun. lia. }
    rewrite settle_Stop. split; [by exists err | split; [done |]].
    intros size direction Hlen Hgrp Hsz Hdir.
    rewrite (execute_rebalance_slippage _ s _ _ _ Hlen Hgrp Hsz Hdir Hs Hfar) in Hrun.
    by injection Hrun as <- _.
Qed.

Lemma failed_calls_change_nothing_witness :
  (call app (Sample.yield_env 1000 999) Sample.rebalance_deployed
     = (Sample.rebalance_deployed, Rejected GroupPaymentMismatch)
   ∧ yield_pool (fst (call app (Sample.yield_env 1000 999) Sample.rebalance_deployed))
     = yield_pool Sample.rebalance_deployed)
  ∧ call app (Sample.rebalance_env 301) Sample.rebalance_deployed
    = (Sample.rebalance_deployed, Rejected SlippageExceeded)
  ∧ fst (Protocol.step Protocol.Rebalancer (Sample.rebalance_env 301)
           Sample.protocol_deployed) = Sample.protocol_deployed.
Proof.
  split; [| split].
  - apply (proj1 (proj2 failed_calls_change_nothing)
             (Sample.yield_env 1000 999) Sample.rebalance_deployed 1000
             (mkGtxn Payment Sample.app_address 999) Sample.app_call_leg []).
    + repeat split; vm_compute; lia.
    + reflexivity.
    + eexists; repeat split; vm_compute; lia.
    + reflexivity.
    + vm_compute; lia.
  - refine (proj2 (proj2 (proj2 (proj2 (proj2 failed_calls_change_nothing))
             (Sample.rebalance_env 301) Sample.rebalance_deployed 301 _ _ _)) 5000 1 _ _ _ _).
    + repeat split; vm_compute; lia.
    + eexists; repeat split; vm_compute; lia.
    + vm_compute; reflexivity.
    + reflexivity.
    + vm_compute; discriminate.
    + eexists; repeat split; vm_compute; lia.
    + eexists; repeat split; vm_compute; lia.
  - apply (proj1 failed_calls_change_nothing Protocol.Rebalancer
             (Sample.rebalance_env 301) Sample.protocol_deployed _ SlippageExceeded).
    vm_compute. reflexivity.
Defined.

(** The rollback does real work: with the counter at the largest [uint64]
    the program has already written the rebalance time when the increment
    overflows, and the call still leaves the store as it was. *)
Lemma rollback_discards_partial_writes :
  ∃ partial,
    execute_rebalance (Sample.rebalance_env 100) Sample.rebalance_saturated
      = Stop ArithOverflow partial
    ∧ partial ≠ Sample.rebalance_saturated
    ∧ call app (Sample.rebalance_env 100) Sample.rebalance_saturated
      = (Sample.rebalance_saturated, Rejected ArithOverflow).
Proof.
  eexists. split; [vm_compute; reflexivity | split; [| vm_compute; reflexivity]].
  intros Heq. apply (f_equal (fun st => globals st !! "last_rebalance")) in Heq.
  vm_compute in Heq. discriminate.
Qed.

End RebalanceFacts.

(** ** The hedge ratio *)

Section HedgeRatio.

Import RebalanceEngine.

Lemma clamp_is_min (h : Z) :
  (if h >? 10000 then 10000 else h) = Z.min h 10000.
Proof. destruct (Z.gtb_spec h 10000); lia. Qed.

(** C10, amended.  For arguments whose product [correlation * volatility]
    fits in a [uint64], [calculate_hedge_ratio] computes
    [correlation * volatility / 10000] and clamps it to at most 10000, and
    the call is approved; a ratio above 10000 is truncated, not rejected.
    When the product does not fit, the call is rejected with an arithmetic
    overflow.  Whenever a ratio is produced it is at most 10000. *)
Theorem hedge_ratio_clamped (e : env) (s : store)
    (portfolio volatility correlation : Z) :
  invokes e "calculate_hedge" ->
  args_length e = 4 ->
  arg_is e 1 portfolio -> arg_is e 2 volatility -> arg_is e 3 correlation ->
  (correlation * volatility <= u64_max ->
     hedge_scratch e s
     = Done (correlation * volatility / 10000,
             Z.min (correlation * volatility / 10000) 10000) s
     ∧ call app e s = (s, Approved))
  ∧ (correlation * volatility > u64_max ->
       call app e s = (s, Rejected ArithOverflow))
  ∧ (∀ h final s', hedge_scratch e s = Done (h, final) s' -> final <= 10000).
Proof.
  intros Hinv Hlen Hp Hv Hc.
  rewrite (rebalance_invokes e s _ calculate_hedge_ratio Hinv)
    by (destruct Hinv as (_ & _ & ?); reflexivity).
  assert (hedge_scratch e s
          = (scaled ← mul correlation volatility;
             hedge_ratio ← div scaled 10000;
             mret (hedge_ratio,
                   if hedge_ratio >? 10000 then 10000 else hedge_ratio)) s) as Hrun.
  { unfold hedge_scratch.
    rewrite Assert_step by side.
    by rewrite (arg_decodes _ _ _ _ _ Hp), (arg_decodes _ _ _ _ _ Hv),
      (arg_decodes _ _ _ _ _ Hc). }
  split; [| split].
  - intros Hfit.
    assert (hedge_scratch e s
            = Done (correlation * volatility / 10000,
                    Z.min (correlation * volatility / 10000) 10000) s) as Hdone.
    { rewrite Hrun, mul_step by done. rewrite div_step by done.
      by rewrite clamp_is_min. }
    split; [done |]. unfold calculate_hedge_ratio.
    by rewrite (bind_eval _ _ _ _ _ Hdone).
  - intros Hbig. unfold calculate_hedge_ratio.
    assert (hedge_scratch e s = Stop ArithOverflow s) as Hstop
      by (by rewrite Hrun, mul_halt).
    by rewrite (bind_halt _ _ _ _ _ Hstop).
  - intros h final s' H. rewrite Hrun in H.
    apply bind_Done in H as (scaled & s1 & _ & H).
    apply bind_Done in H as (ratio & s2 & _ & H).
    apply mret_Done in H as [[= -> ->] _]. rewrite clamp_is_min. lia.
Qed.

Lemma hedge_ratio_clamped_witness :
  hedge_scratch (Sample.hedge_env 30000 8000) Sample.rebalance_deployed
  = Done (30000 * 8000 / 10000, 10000) Sample.rebalance_deployed
  ∧ call app (Sample.hedge_env 30000 8000) Sample.rebalance_deployed
    = (Sample.rebalance_deployed, Approved).
Proof.
  refine (proj1 (hedge_ratio_clamped (Sample.hedge_env 30000 8000)
                   Sample.rebalance_deployed 1000000 30000 8000 _ _ _ _ _) _).
  - repeat split; vm_compute; lia.
  - reflexivity.
  - eexists; repeat split; vm_compute; lia.
  - eexists; repeat split; vm_compute; lia.
  - eexists; repeat split; vm_compute; lia.
  - vm_compute; discriminate.
Defined.

(** C10 as stated fails: with volatility and correlation both 2^32 the
    product does not fit in a [uint64]; no ratio is produced, clamped or
    otherwise, and the call is rejected. *)
Lemma hedge_ratio_overflow_rejected :
  let e := Sample.hedge_env 4294967296 4294967296 in
  arg_is e 2 4294967296
  ∧ arg_is e 3 4294967296
  ∧ hedge_scratch e Sample.rebalance_deployed
    = Stop ArithOverflow Sample.rebalance_deployed
  ∧ call app e Sample.rebalance_deployed
    = (Sample.rebalance_deployed, Rejected ArithOverflow).
Proof.
  repeat split; try (vm_compute; reflexivity).
  all: eexists; repeat split; vm_compute; lia.
Qed.

End HedgeRatio.

(** ** Counters and reputation *)

Section Counters.

(** A relation between the old and the new value of a global key that both
    programs of an application respect is respected by every call. *)
Lemma call_global_related (app : application) (key : string) (e : env)
    (R : Z -> Z -> Prop) (s s' : store) (r : receipt) :
  (∀ x, R x x) ->
  (∀ s0 v s1, globals s0 = globals s -> approval app e s0 = Done v s1 ->
     R (default 0 (globals s0 !! key)) (default 0 (globals s1 !! key))) ->
  (∀ v s1, clear_state app e s = Done v s1 ->
     R (default 0 (globals s !! key)) (default 0 (globals s1 !! key))) ->
  call app e s = (s', r) ->
  R (default 0 (globals s !! key)) (default 0 (globals s' !! key)).
Proof.
  intros Hrefl Happroval Hclear.
  destruct r as [| err]; [| by intros ->%call_Rejected].
  intros H%call_Approved.
  destruct (on_completion (Txn e)).
  - destruct H as (v & H & _). by eapply (Happroval s).
  - destruct H as (_ & v & H & _). by apply (Happroval (allocate (sender (Txn e)) s)) in H.
  - destruct H as (_ & v & s1 & H & _ & ->). by apply (Happroval s) in H.
  - destruct H as (_ & ->). cbn [release globals].
    destruct (clear_state app e s) as [v s1|err s1] eqn:Hrun; cbn; [| done].
    destruct (v =? 0); cbn; [done | by eapply Hclear].
  - destruct H as (v & H & _). by eapply (Happroval s).
  - destruct H as (v & H & _). by eapply (Happroval s).
Qed.

Lemma oracle_submission_count (e : env) (s s' : store) (r : receipt) :
  application_id (Txn e) ≠ 0 ->
  call EnterprisePriceOracle.app e s = (s', r) ->
  EnterprisePriceOracle.submission_count s <= EnterprisePriceOracle.submission_count s'.
Proof.
  intros Hid. apply (call_global_related _ _ _ Z.le); [lia | |];
    cbn [approval clear_state EnterprisePriceOracle.app].
  - intros s0 v s1 _ H. oracle_paths H; bool_facts; try done.
    all: cbn [globals]; oracle_keys; simplify_map_eq; lia.
  - intros v s1 H. unfold EnterprisePriceOracle.clear_state_program in H. inv_done H. lia.
Qed.

Lemma engine_rebalance_count (e : env) (s s' : store) (r : receipt) :
  application_id (Txn e) ≠ 0 ->
  call RebalanceEngine.app e s = (s', r) ->
  RebalanceEngine.rebalance_count s <= RebalanceEngine.rebalance_count s'.
Proof.
  intros Hid. apply (call_global_related _ _ _ Z.le); [lia | |];
    cbn [approval clear_state RebalanceEngine.app].
  - intros s0 v s1 _ H. rebalance_paths H; bool_facts; try done.
    all: cbn [globals]; rebalance_keys; simplify_map_eq; lia.
  - intros v s1 H. unfold RebalanceEngine.clear_state_program in H. inv_done H. lia.
Qed.

(** The oracle's update time is a reading of the ledger clock: in a store
    reachable from deployment it never lies in the future, so the freshness
    test of [get_price] never underflows. *)
Lemma oracle_last_update (e : env) (s s' : store) (r : receipt) :
  application_id (Txn e) ≠ 0 ->
  call EnterprisePriceOracle.app e s = (s', r) ->
  EnterprisePriceOracle.last_update_time s' = EnterprisePriceOracle.last_update_time s
  ∨ EnterprisePriceOracle.last_update_time s' = latest_timestamp e.
Proof.
  intros Hid.
  apply (call_global_related _ _ _ (fun old new => new = old ∨ new = latest_timestamp e));
    [by left | |]; cbn [approval clear_state EnterprisePriceOracle.app].
  - intros s0 v s1 _ H. oracle_paths H; bool_facts; try done.
    all: cbn [globals]; oracle_keys; simplify_map_eq; auto.
  - intros v s1 H. unfold EnterprisePriceOracle.clear_state_program in H. inv_done H.
    by left.
Qed.

Lemma reachable_clock (now : Z) (s : store) :
  reachable EnterprisePriceOracle.app now s ->
  EnterprisePriceOracle.last_update_time s <= now.
Proof.
  induction 1 as [e s Hid Hcreate | now e s s' r Hreach IH Hid Hclock Hcall].
  - apply create_Approved in Hcreate as (s0 & v & _ & H & _).
    cbn [approval EnterprisePriceOracle.app] in H.
    oracle_paths H; bool_facts; try done.
    unfold EnterprisePriceOracle.last_update_time. cbn [globals].
    oracle_keys. simplify_map_eq. lia.
  - destruct (oracle_last_update _ _ _ _ Hid Hcall) as [-> | ->]; lia.
Qed.

Import EnterprisePriceOracle.

(** Outside registration the approval program only ever adds one to a
    reputation. *)
Lemma approval_reputation (e : env) (s s' : store) (v : Z) (a : string) (r r' : Z) :
  approval_program e s = Done v s' ->
  application_id (Txn e) ≠ 0 ->
  (on_completion (Txn e) = OptIn -> a ≠ sender (Txn e)) ->
  reputation s a = Some r -> reputation s' a = Some r' -> r <= r'.
Proof.
  intros H Hid Hother. oracle_paths H; bool_facts; try done.
  all: unfold reputation, local_field; cbn [globals locals].
  all: try (intros -> [= ->]; lia).
  all: destruct (decide (a = sender (Txn e))) as [-> | Hne]; [try by destruct Hother |].
  all: oracle_keys; simplify_map_eq; cbn; simplify_map_eq.
  all: try (intros [= <-] [= <-]; lia).
  all: try (intros -> [= ->]; lia).
Qed.

(** Registration installs the initial reputation. *)
Lemma approval_registration (e : env) (s s' : store) (v : Z) :
  approval_program e s = Done v s' ->
  application_id (Txn e) ≠ 0 ->
  on_completion (Txn e) = OptIn ->
  reputation s' (sender (Txn e)) = Some 100.
Proof.
  intros H Hid Hoc. oracle_paths H; bool_facts; try done; try congruence.
  unfold reputation, local_field. cbn [globals locals].
  oracle_keys. by simplify_map_eq.
Qed.

Lemma call_reputation (e : env) (s s' : store) (a : string) (r r' : Z) :
  application_id (Txn e) ≠ 0 ->
  call app e s = (s', Approved) ->
  reputation s a = Some r -> reputation s' a = Some r' -> r <= r'.
Proof.
  intros Hid H%call_Approved. unfold reputation in *.
  destruct (on_completion (Txn e)) eqn:Hoc; cbn [approval clear_state app] in H.
  - destruct H as (v & H & _). eapply approval_reputation; [done.. | by rewrite Hoc].
  - destruct H as (Hnew & v & H & _). intros Hr Hr'.
    destruct (decide (a = sender (Txn e))) as [-> | Hne].
    { unfold local_field in Hr. by rewrite Hnew in Hr. }
    eapply (approval_reputation _ _ _ _ a); [done.. | | done].
    unfold reputation. rewrite local_field_allocate. by case_decide.
  - destruct H as (_ & v & s1 & H & _ & ->). rewrite local_field_release.
    case_decide; [discriminate |].
    eapply approval_reputation; [done.. | by rewrite Hoc].
  - destruct H as (_ & ->). rewrite local_field_release. cbn.
    case_decide; [discriminate |]. intros -> [= ->]. lia.
  - destruct H as (v & H & _). eapply approval_reputation; [done.. | by rewrite Hoc].
  - destruct H as (v & H & _). eapply approval_reputation; [done.. | by rewrite Hoc].
Qed.

Lemma call_registration (e : env) (s s' : store) :
  application_id (Txn e) ≠ 0 ->
  on_completion (Txn e) = OptIn ->
  call app e s = (s', Approved) ->
  reputation s' (sender (Txn e)) = Some 100.
Proof.
  intros Hid Hoc H%call_Approved. rewrite Hoc in H.
  destruct H as (_ & v & H & _). by eapply approval_registration.
Qed.

(** C9.  Across every approved call to any of the three deployed
    applications [rebalance_count] and [submission_count] do not decrease,
    and no oracle's reputation decreases: whenever an account has a
    reputation before the call and one after it, the second is at least the
    first.  A registration gives the account, which had no reputation
    before it, the reputation 100. *)
Theorem counters_never_decrease (c : Protocol.component) (e : env)
    (ps ps' : Protocol.state) :
  application_id (Txn e) ≠ 0 ->
  Protocol.step c e ps = (ps', Approved) ->
  RebalanceEngine.rebalance_count (Protocol.rebalance ps)
    <= RebalanceEngine.rebalance_count (Protocol.rebalance ps')
  ∧ submission_count (Protocol.oracle ps) <= submission_count (Protocol.oracle ps')
  ∧ (∀ a r r',
       reputation (Protocol.oracle ps) a = Some r ->
       reputation (Protocol.oracle ps') a = Some r' -> r <= r')
  ∧ (c = Protocol.OracleAggregator ->
     on_completion (Txn e) = OptIn ->
     reputation (Protocol.oracle ps') (sender (Txn e)) = Some 100).
Proof.
  intros Hid. unfold Protocol.step.
  destruct (call (Protocol.program c) e (Protocol.store_of c ps)) as [s' r] eqn:Hcall.
  intros [= <- ->].
  destruct c; cbn [Protocol.program Protocol.store_of Protocol.with_store
                   Protocol.oracle Protocol.risk Protocol.rebalance] in *.
  - repeat split; [lia | by eapply oracle_submission_count | |].
    + intros a r r'. by eapply call_reputation.
    + intros _ Hoc. by eapply call_registration.
  - repeat split; [lia | lia | | done].
    intros a r r' -> [= ->]. lia.
  - repeat split; [by eapply engine_rebalance_count | lia | | done].
    intros a r r' -> [= ->]. lia.
Qed.

Lemma counters_never_decrease_witness :
  reputation
    (Protocol.oracle
       (fst (Protocol.step Protocol.OracleAggregator Sample.opt_in_env
               Sample.protocol_deployed)))
    Sample.oracle_1 = Some 100.
Proof.
  refine (proj2 (proj2 (proj2 (counters_never_decrease Protocol.OracleAggregator
            Sample.opt_in_env Sample.protocol_deployed _ _ _))) eq_refl eq_refl).
  - vm_compute; lia.
  - vm_compute; reflexivity.
Defined.

End Counters.

(** ** More about the price oracle *)

(** Decides a closed goal by evaluation. *)
Ltac evaluate := vm_compute; first [reflexivity | discriminate | lia].

Section OracleSubmission.

Import EnterprisePriceOracle.

Lemma oracle_invokes (e : env) (s : store) (name : string) (op : env -> M Z) :
invokes e name ->
Cond [
  (mret (String.eqb name "authorize"), authorize_oracle e);
  (mret (String.eqb name "submit"), submit_price e);
  (mret (String.eqb name "get_price"), get_price e);
  (mret (String.eqb name "emergency_pause"), emergency_pause e);
  (mret (String.eqb name "resume"), resume_operations e)
] s = op e s ->
call app e s = settle s (op e s).
Proof.
intros Hinv Hsel. rewrite call_noop by apply Hinv. cbn [approval app].
by rewrite (oracle_route _ _ _ Hinv), Hsel.
Qed.

Lemma abs_difference (p c : Z) :
(if p >? c then p - c else c - p) = Z.abs (p - c).
Proof. destruct (Z.gtb_spec p c); lia. Qed.

(** Everything an accepted submission has checked, and the store it leaves. *)
Lemma submit_price_inv (e : env) (s s' : store) (p v : Z) :
arg_is e 1 p ->
submit_price e s = Done v s' ->
∃ m,
  locals s !! sender (Txn e) = Some m
  ∧ default 0 (m !! oracle_authorized_key) = 1
  ∧ circuit_breaker s = 0
  ∧ Z.abs (p - current_price s) <= current_price s * MAX_PRICE_DEVIATION / 10000
  ∧ current_price s * MAX_PRICE_DEVIATION <= u64_max
  ∧ submission_count s + 1 <= u64_max
  ∧ default 0 (m !! oracle_reputation_key) + 1 <= u64_max
  ∧ v = 1
  ∧ s' = mkStore
           (<[total_submissions_key := submission_count s + 1]>
              (<[last_update_key := latest_timestamp e]>
                 (<[current_price_key := p]> (globals s))))
           (<[sender (Txn e) :=
                <[oracle_reputation_key := default 0 (m !! oracle_reputation_key) + 1]>
                  (<[last_submission_key := latest_timestamp e]> m)]> (locals s)).
Proof.
intros Hp H. unfold submit_price in H. inv_done H.
all: match goal with
     | Ha : application_args _ !! 1%nat = Some ?raw, Hd : decodes ?raw ?q |- _ =>
         assert (q = p) as -> by (eapply arg_is_unique; [exists raw; eauto | done])
     end.
all: unfold circuit_breaker, current_price, submission_count in *; bool_facts.
all: exists m; oracle_keys; simplify_map_eq.
all: repeat split; try done; try lia.
all: f_equal; by rewrite insert_insert_eq.
Qed.

Lemma submit_price_run (e : env) (s : store) (p : Z) (m : gmap string Z) :
arg_is e 1 p ->
locals s !! sender (Txn e) = Some m ->
default 0 (m !! oracle_authorized_key) = 1 ->
circuit_breaker s = 0 ->
Z.abs (p - current_price s) <= current_price s * MAX_PRICE_DEVIATION / 10000 ->
current_price s * MAX_PRICE_DEVIATION <= u64_max ->
submission_count s + 1 <= u64_max ->
default 0 (m !! oracle_reputation_key) + 1 <= u64_max ->
∃ s', submit_price e s = Done 1 s'.
Proof.
intros Hp Hm Hflag Hclear Hnear Hfit Hcount Hrep.
assert (2 <= args_length e) as Hlen.
{ destruct Hp as (raw & Hraw & _). apply lookup_lt_Some in Hraw.
  unfold args_length. lia. }
unfold circuit_breaker, current_price, submission_count in *.
unfold submit_price.
rewrite (localGet_step _ _ _ _ _ Hm).
rewrite Assert_step by side.
rewrite Assert_step by side.
rewrite globalGet_step, Assert_step by side.
rewrite (arg_decodes _ _ _ _ _ Hp).
rewrite globalGet_step.
assert (∀ (f : Z -> M Z) st,
          (d ← (if p >? default 0 (globals s !! current_price_key)
                then sub p (default 0 (globals s !! current_price_key))
                else sub (default 0 (globals s !! current_price_key)) p); f d) st
          = f (Z.abs (p - default 0 (globals s !! current_price_key))) st) as Hdiff.
{ intros f st. destruct (Z.gtb_spec p (default 0 (globals s !! current_price_key))).
  - rewrite sub_step by lia. f_equal. lia.
  - rewrite sub_step by lia. f_equal. lia. }
rewrite Hdiff.
rewrite mul_step by done. rewrite div_step by done.
rewrite Assert_step by side.
rewrite !globalPut_step, globalGet_step. cbn [globals locals].
rewrite !lookup_insert_ne by (oracle_keys; discriminate).
rewrite add_step by done.
rewrite globalPut_step. cbn [globals locals].
erewrite localPut_step by (cbn [locals]; exact Hm). cbn [globals locals].
erewrite localGet_step by (cbn [locals]; apply lookup_insert_eq).
rewrite lookup_insert_ne by (oracle_keys; discriminate).
rewrite add_step by done.
erewrite localPut_step by (cbn [locals]; apply lookup_insert_eq).
by eexists.
Qed.

(** X1. A [submit] call is approved exactly when the sender carries the
  authorization flag, the breaker is clear, the price lies within the
  deviation bound, and none of the three counters involved overflows. *)
Theorem submit_approved_iff (e : env) (s : store) (p : Z) :
invokes e "submit" ->
arg_is e 1 p ->
(∃ s', call app e s = (s', Approved))
<-> (authorized s (sender (Txn e)) = Some 1
     ∧ circuit_breaker s = 0
     ∧ Z.abs (p - current_price s) <= current_price s * MAX_PRICE_DEVIATION / 10000
     ∧ current_price s * MAX_PRICE_DEVIATION <= u64_max
     ∧ submission_count s + 1 <= u64_max
     ∧ ∃ r, reputation s (sender (Txn e)) = Some r ∧ r + 1 <= u64_max).
Proof.
intros Hinv Hp. rewrite (oracle_submit _ _ Hinv). split.
- intros [s' (v & Hrun & _)%settle_Approved].
  destruct (submit_price_inv _ _ _ _ _ Hp Hrun)
    as (m & Hm & Hflag & ? & ? & ? & ? & ? & _).
  unfold authorized, reputation, local_field. rewrite Hm. cbn.
  rewrite Hflag. repeat split; try done. by eexists.
- intros (Hflag & ? & ? & ? & ? & r & Hr & ?).
  unfold authorized, reputation, local_field in Hflag, Hr.
  destruct (locals s !! sender (Txn e)) as [m|] eqn:Hm; [| discriminate].
  cbn in Hflag, Hr. injection Hflag as Hflag. injection Hr as Hr.
  destruct (submit_price_run e s p m) as [s' Hrun]; try done; [lia |].
  exists s'. by rewrite Hrun.
Qed.

Lemma submit_approved_iff_witness :
∃ s', call app (Sample.submit_env 260000) Sample.oracle_veteran = (s', Approved).
Proof.
apply (proj2 (submit_approved_iff (Sample.submit_env 260000) Sample.oracle_veteran 260000
                ltac:(repeat split; vm_compute; lia)
                ltac:(eexists; repeat split; vm_compute; lia))).
repeat (split; [evaluate |]).
exists 150. split; evaluate.
Defined.

(** X2. What an approved submission writes: the price, the update time, one
  more submission, one more point of reputation and the submission time of
  the sender; the breaker, the oracle counter, the sender's flag and every
  other account are left as they were. *)
Theorem submit_effect (e : env) (s s' : store) (p : Z) :
invokes e "submit" ->
arg_is e 1 p ->
call app e s = (s', Approved) ->
current_price s' = p
∧ last_update_time s' = latest_timestamp e
∧ submission_count s' = submission_count s + 1
∧ (∃ r, reputation s (sender (Txn e)) = Some r
        ∧ reputation s' (sender (Txn e)) = Some (r + 1))
∧ Read.last_submission_time s' (sender (Txn e)) = Some (latest_timestamp e)
∧ authorized s' (sender (Txn e)) = Some 1
∧ circuit_breaker s' = circuit_breaker s
∧ oracle_count s' = oracle_count s
∧ (∀ a, a ≠ sender (Txn e) -> locals s' !! a = locals s !! a).
Proof.
intros Hinv Hp. rewrite (oracle_submit _ _ Hinv).
intros (v & Hrun & _)%settle_Approved.
destruct (submit_price_inv _ _ _ _ _ Hp Hrun)
  as (m & Hm & Hflag & _ & _ & _ & _ & _ & _ & ->).
unfold current_price, last_update_time, submission_count, circuit_breaker, oracle_count,
  reputation, authorized, Read.last_submission_time, local_field.
cbn [globals locals]. rewrite Hm. oracle_keys. simplify_map_eq.
repeat split; try done.
- by eexists.
- by rewrite Hflag.
- intros a Ha. by rewrite lookup_insert_ne.
Qed.

Lemma submit_effect_witness :
submission_count (fst (call app (Sample.submit_env 260000) Sample.oracle_veteran))
= submission_count Sample.oracle_veteran + 1.
Proof.
refine (proj1 (proj2 (proj2 (submit_effect (Sample.submit_env 260000)
          Sample.oracle_veteran _ 260000 _ _ _)))).
- repeat split; vm_compute; lia.
- eexists; repeat split; vm_compute; lia.
- vm_compute. reflexivity.
Defined.

(** X3. The deviation bound is computed with integer division, so a price
  below 20 can no longer move at all; and an accepted price is never 0 nor
  below 19 when the price it replaces was at least that. *)
Theorem small_price_is_frozen (e : env) (s s' : store) (p : Z) :
invokes e "submit" ->
arg_is e 1 p ->
call app e s = (s', Approved) ->
0 <= current_price s ->
(current_price s < 20 -> current_price s' = current_price s)
∧ (1 <= current_price s -> 1 <= current_price s')
∧ (19 <= current_price s -> 19 <= current_price s').
Proof.
intros Hinv Hp. rewrite (oracle_submit _ _ Hinv).
intros (v & Hrun & _)%settle_Approved Hpos.
destruct (submit_price_Done _ _ _ _ _ Hp Hrun) as (_ & _ & _ & Hnear & ->).
unfold MAX_PRICE_DEVIATION in Hnear.
set (c := current_price s) in *. clearbody c.
repeat split; intros Hcur; Z.div_mod_to_equations; lia.
Qed.

Lemma small_price_is_frozen_witness :
19 <= current_price (fst (call app (Sample.submit_env 260000) Sample.oracle_veteran)).
Proof.
refine (proj2 (proj2 (small_price_is_frozen (Sample.submit_env 260000)
          Sample.oracle_veteran _ 260000 _ _ _ _)) _).
- repeat split; vm_compute; lia.
- eexists; repeat split; vm_compute; lia.
- vm_compute. reflexivity.
- vm_compute. discriminate.
- vm_compute. discriminate.
Defined.

End OracleSubmission.

(** ** Reading the price, the breaker and the creator's operations *)

Section OracleControl.

Import EnterprisePriceOracle.

(** The four ways [get_price] can end. *)
Lemma get_price_cases (e : env) (s : store) :
get_price e s =
  if latest_timestamp e <? last_update_time s then Stop ArithUnderflow s
  else if latest_timestamp e - last_update_time s <=? STALENESS_THRESHOLD then
    if circuit_breaker s =? 0 then Done (current_price s) s
    else Stop CircuitBreakerActive s
  else Stop StalePrice s.
Proof.
unfold get_price, last_update_time, circuit_breaker, current_price,
  globalGet, sub, Assert, Return.
unfold mbind, M_bind, mret, M_ret, fail.
destruct (latest_timestamp e <? _); [reflexivity |].
destruct (_ <=? STALENESS_THRESHOLD); [| reflexivity].
by destruct (_ =? 0).
Qed.

(** X4. A [get_price] call never changes the store.  It is approved exactly
  when the last update lies between 0 and 3600 seconds back, the breaker is
  clear and the stored price is not 0 (the program returns the price itself,
  and a returned 0 rejects the call).  Otherwise it is rejected: with an
  underflow when the update time lies in the future, with
  [CircuitBreakerActive] when the price is fresh but the breaker is set. *)
Theorem get_price_call (e : env) (s : store) :
invokes e "get_price" ->
fst (call app e s) = s
∧ (snd (call app e s) = Approved
   <-> last_update_time s <= latest_timestamp e
       ∧ latest_timestamp e - last_update_time s <= STALENESS_THRESHOLD
       ∧ circuit_breaker s = 0
       ∧ current_price s ≠ 0)
∧ (latest_timestamp e < last_update_time s ->
   snd (call app e s) = Rejected ArithUnderflow)
∧ (last_update_time s <= latest_timestamp e ->
   latest_timestamp e - last_update_time s <= STALENESS_THRESHOLD ->
   circuit_breaker s ≠ 0 ->
   snd (call app e s) = Rejected CircuitBreakerActive).
Proof.
intros Hinv.
rewrite (oracle_invokes e s _ get_price Hinv)
  by (destruct Hinv as (_ & _ & ?); reflexivity).
rewrite get_price_cases.
destruct (Z.ltb_spec (latest_timestamp e) (last_update_time s)); cbn [settle fst snd].
{ repeat split; first [done | lia]. }
destruct (Z.leb_spec (latest_timestamp e - last_update_time s) STALENESS_THRESHOLD);
  cbn [settle fst snd].
2: { repeat split; first [done | lia]. }
destruct (Z.eqb_spec (circuit_breaker s) 0); cbn [settle fst snd].
2: { repeat split; first [done | lia]. }
destruct (Z.eqb_spec (current_price s) 0); cbn [fst snd];
  repeat split; first [done | lia].
Qed.

Lemma get_price_call_witness :
fst (call app Sample.get_price_env Sample.oracle_deployed) = Sample.oracle_deployed.
Proof.
refine (proj1 (get_price_call Sample.get_price_env Sample.oracle_deployed _)).
repeat split; vm_compute; lia.
Defined.

Lemma creator_check (e : env) :
String.eqb (sender (Txn e)) (creator_address e) = true
<-> sender (Txn e) = creator_address e.
Proof. apply String.eqb_eq. Qed.

Lemma breaker_write (e : env) (s : store) (op : env -> M Z) (flag : Z) :
(∀ st, op e st
       = (PyTealPatterns.validate_sender_is_creator e;;
          globalPut circuit_breaker_key flag;; Return 1) st) ->
op e s =
  if String.eqb (sender (Txn e)) (creator_address e)
  then Done 1 (set_global circuit_breaker_key flag s)
  else Stop Unauthorized s.
Proof.
intros ->. unfold PyTealPatterns.validate_sender_is_creator.
by destruct (String.eqb _ _).
Qed.

Lemma emergency_pause_cases (e : env) (s : store) :
emergency_pause e s =
  if String.eqb (sender (Txn e)) (creator_address e)
  then Done 1 (set_global circuit_breaker_key 1 s)
  else Stop Unauthorized s.
Proof. by apply breaker_write. Qed.

Lemma resume_operations_cases (e : env) (s : store) :
resume_operations e s =
  if String.eqb (sender (Txn e)) (creator_address e)
  then Done 1 (set_global circuit_breaker_key 0 s)
  else Stop Unauthorized s.
Proof. by apply breaker_write. Qed.

Lemma breaker_after_write (flag : Z) (s : store) :
circuit_breaker (set_global circuit_breaker_key flag s) = flag.
Proof. unfold circuit_breaker, set_global. cbn [globals]. by rewrite lookup_insert_eq. Qed.

(** X5. An approved [emergency_pause] comes from the creator and writes
  nothing but the breaker, which it sets to 1; from then on every [submit]
  and every [get_price] call is rejected. *)
Theorem paused_oracle_refuses (e : env) (s s1 : store) :
invokes e "emergency_pause" ->
call app e s = (s1, Approved) ->
sender (Txn e) = creator_address e
∧ s1 = set_global circuit_breaker_key 1 s
∧ circuit_breaker s1 = 1
∧ (∀ e', invokes e' "submit" ∨ invokes e' "get_price" ->
         ∃ err, call app e' s1 = (s1, Rejected err)).
Proof.
intros Hinv.
rewrite (oracle_invokes e s _ emergency_pause Hinv)
  by (destruct Hinv as (_ & _ & ?); reflexivity).
rewrite emergency_pause_cases.
destruct (String.eqb _ _) eqn:Hcreator; cbn [settle]; [| discriminate].
intros [= <-]. apply creator_check in Hcreator.
repeat split; [done | apply breaker_after_write |].
intros e' [Hsub | Hget].
- rewrite (oracle_submit _ _ Hsub).
  destruct (submit_price e' _) as [v s2|err s2] eqn:Hrun; [| by exists err].
  exfalso. unfold submit_price in Hrun. inv_done Hrun.
  all: match goal with
       | Hb : (default 0 (globals (set_global _ _ _) !! _) =? 0) = true |- _ =>
           unfold set_global in Hb; cbn [globals] in Hb;
           rewrite lookup_insert_eq in Hb; discriminate Hb
       end.
- rewrite (oracle_invokes e' _ _ get_price Hget)
    by (destruct Hget as (_ & _ & ?); reflexivity).
  rewrite get_price_cases, breaker_after_write.
  destruct (_ <? _); [by eexists |].
  destruct (_ <=? _); by eexists.
Qed.

Lemma paused_oracle_refuses_witness :
∃ err, call app Sample.get_price_env Sample2.oracle_paused
       = (Sample2.oracle_paused, Rejected err).
Proof.
refine (proj2 (proj2 (proj2 (paused_oracle_refuses Sample2.pause_env
          Sample.oracle_deployed Sample2.oracle_paused _ _))) Sample.get_price_env _).
- repeat split; vm_compute; lia.
- vm_compute. reflexivity.
- right. repeat split; vm_compute; lia.
Defined.

(** X6. Pausing and resuming is a round trip: on a store whose breaker is
  stored as 0, the creator's [emergency_pause] followed by the creator's
  [resume] are both approved and give back exactly the store they started
  from. *)
Theorem pause_resume_round_trip (e1 e2 : env) (s : store) :
invokes e1 "emergency_pause" ->
invokes e2 "resume" ->
sender (Txn e1) = creator_address e1 ->
sender (Txn e2) = creator_address e2 ->
globals s !! circuit_breaker_key = Some 0 ->
snd (call app e1 s) = Approved
∧ call app e2 (fst (call app e1 s)) = (s, Approved).
Proof.
intros Hpause Hresume Hc1%creator_check Hc2%creator_check Hclear.
rewrite (oracle_invokes e1 s _ emergency_pause Hpause)
  by (destruct Hpause as (_ & _ & ?); reflexivity).
rewrite emergency_pause_cases, Hc1. cbn [settle fst snd Z.eqb].
split; [done |].
rewrite (oracle_invokes e2 _ _ resume_operations Hresume)
  by (destruct Hresume as (_ & _ & ?); reflexivity).
rewrite resume_operations_cases, Hc2. cbn [settle Z.eqb].
f_equal. unfold set_global. cbn [globals locals].
rewrite insert_insert_eq, (insert_id _ _ _ Hclear). by destruct s.
Qed.

Lemma pause_resume_round_trip_witness :
call app Sample2.resume_env (fst (call app Sample2.pause_env Sample.oracle_deployed))
= (Sample.oracle_deployed, Approved).
Proof.
refine (proj2 (pause_resume_round_trip Sample2.pause_env Sample2.resume_env
          Sample.oracle_deployed _ _ _ _ _)).
- repeat split; vm_compute; lia.
- repeat split; vm_compute; lia.
- reflexivity.
- reflexivity.
- vm_compute. reflexivity.
Defined.

Lemma authorize_oracle_cases (e : env) (s : store) :
authorize_oracle e s =
  if String.eqb (sender (Txn e)) (creator_address e) then
    if 2 <=? args_length e then
      if oracle_count s + 1 >? u64_max then Stop ArithOverflow s
      else Done 1 (set_global oracle_count_key (oracle_count s + 1) s)
    else Stop InvalidArgumentCount s
  else Stop Unauthorized s.
Proof.
unfold authorize_oracle, PyTealPatterns.validate_sender_is_creator, oracle_count.
destruct (String.eqb _ _); [| reflexivity].
rewrite Assert_step by done.
destruct (2 <=? args_length e); [| reflexivity].
rewrite Assert_step by done. rewrite globalGet_step.
unfold add, mbind, M_bind. by destruct (_ >? u64_max).
Qed.

(** X7. [authorize], [emergency_pause] and [resume] are refused with
  [Unauthorized] for every sender other than the creator, and an update or
  deletion of the application is approved for the creator only; a refused
  call leaves the store as it was. *)
Theorem oracle_creator_only (e : env) (s : store) :
sender (Txn e) ≠ creator_address e ->
(∀ name,
   invokes e name ->
   name = "authorize" ∨ name = "emergency_pause" ∨ name = "resume" ->
   call app e s = (s, Rejected Unauthorized))
∧ (application_id (Txn e) ≠ 0 ->
   on_completion (Txn e) = UpdateApplication
   ∨ on_completion (Txn e) = DeleteApplication ->
   call app e s = (s, Rejected ReturnedZero)).
Proof.
intros Hother%String.eqb_neq. split.
- intros name Hinv [-> | [-> | ->]].
  + rewrite (oracle_invokes e s _ authorize_oracle Hinv)
      by (destruct Hinv as (_ & _ & ?); reflexivity).
    by rewrite authorize_oracle_cases, Hother.
  + rewrite (oracle_invokes e s _ emergency_pause Hinv)
      by (destruct Hinv as (_ & _ & ?); reflexivity).
    by rewrite emergency_pause_cases, Hother.
  + rewrite (oracle_invokes e s _ resume_operations Hinv)
      by (destruct Hinv as (_ & _ & ?); reflexivity).
    by rewrite resume_operations_cases, Hother.
- intros Hid%Z.eqb_neq Hoc. unfold call.
  assert (approval app e s = Done 0 s) as Hrun.
  { cbn [approval app]. unfold approval_program, Cond, completion_is, sender_is_creator.
    unfold mbind, M_bind, mret, M_ret, Return. rewrite Hid, Hother.
    by destruct Hoc as [-> | ->]. }
  destruct Hoc as [Hoc | Hoc]; rewrite Hoc, Hrun; reflexivity.
Qed.

Lemma oracle_creator_only_witness :
call app (Sample.call_env Sample2.outsider NoOp ["emergency_pause"] [] 1250)
  Sample.oracle_deployed
= (Sample.oracle_deployed, Rejected Unauthorized).
Proof.
refine (proj1 (oracle_creator_only
          (Sample.call_env Sample2.outsider NoOp ["emergency_pause"] [] 1250)
          Sample.oracle_deployed _) "emergency_pause" _ _).
- vm_compute. discriminate.
- repeat split; vm_compute; lia.
- right. left. reflexivity.
Defined.

(** X8. For every store, an [authorize] call is approved exactly when it
  comes from the creator with at least two arguments and the oracle counter
  is below the largest [uint64]; all it changes is that counter, which grows
  by one.  The account named in the call is neither read nor written. *)
Theorem authorize_only_counts (e : env) (s s' : store) :
invokes e "authorize" ->
call app e s = (s', Approved)
<-> sender (Txn e) = creator_address e
    ∧ 2 <= args_length e
    ∧ oracle_count s + 1 <= u64_max
    ∧ s' = set_global oracle_count_key (oracle_count s + 1) s.
Proof.
intros Hinv.
rewrite (oracle_invokes e s _ authorize_oracle Hinv)
  by (destruct Hinv as (_ & _ & ?); reflexivity).
rewrite authorize_oracle_cases, <- creator_check.
destruct (String.eqb _ _); cbn [settle]; [| split; [discriminate | by intros (? & _)]].
destruct (Z.leb_spec 2 (args_length e)); cbn [settle];
  [| split; [discriminate | intros (_ & ? & _); lia]].
destruct (Z.gtb_spec (oracle_count s + 1) u64_max); cbn [settle Z.eqb];
  [split; [discriminate | intros (_ & _ & ? & _); lia] |].
split; [intros [= <-]; repeat split; done || lia | by intros (_ & _ & _ & ->)].
Qed.

Lemma authorize_only_counts_witness :
call app Sample.authorize_env Sample.oracle_registered
= (set_global oracle_count_key (oracle_count Sample.oracle_registered + 1)
     Sample.oracle_registered, Approved).
Proof.
refine (proj2 (authorize_only_counts Sample.authorize_env Sample.oracle_registered _ _) _).
- repeat split; vm_compute; lia.
- split; [reflexivity |]. split; [evaluate |]. split; [evaluate | reflexivity].
Defined.

End OracleControl.

(** ** Routing, registration and the life of a deployed oracle *)

Section Routers.

(** X9. Each router knows a fixed list of operation names.  A [NoOp] call to
  a deployed application that carries no argument is rejected when the
  router reads the missing name, and a call whose first argument is none of
  the known names is rejected because no arm matches; the store is left as
  it was. *)
Theorem unknown_calls_rejected (c : Protocol.component) (e : env) (s : store) :
application_id (Txn e) ≠ 0 ->
on_completion (Txn e) = NoOp ->
(application_args (Txn e) = [] ->
 call (Protocol.program c) e s = (s, Rejected ArgIndexOutOfRange))
∧ (∀ name,
     application_args (Txn e) !! 0%nat = Some name ->
     name ∉ methods c ->
     call (Protocol.program c) e s = (s, Rejected NoCondMatched)).
Proof.
intros Hid Hoc. split.
- intros Hnone. rewrite call_noop by done. apply Z.eqb_neq in Hid.
  destruct c; cbn [Protocol.program approval EnterprisePriceOracle.app
                   RiskManager.app RebalanceEngine.app];
    unfold EnterprisePriceOracle.approval_program, RiskManager.approval_program,
      RebalanceEngine.approval_program, Cond, completion_is, method_is, arg;
    unfold mbind, M_bind, mret, M_ret; rewrite Hid, Hoc, Hnone; reflexivity.
- intros name Hname Hunknown.
  assert (invokes e name) as Hinv by done.
  rewrite call_noop by done.
  destruct c; cbn [Protocol.program approval EnterprisePriceOracle.app
                   RiskManager.app RebalanceEngine.app methods] in *.
  + rewrite (oracle_route _ _ _ Hinv).
    repeat (apply not_elem_of_cons in Hunknown as [?%String.eqb_neq Hunknown]).
    unfold Cond, mbind, M_bind, mret, M_ret.
    repeat match goal with H : (_ =? _)%string = false |- _ => rewrite H; clear H end.
    reflexivity.
  + rewrite (risk_route _ _ _ Hinv).
    repeat (apply not_elem_of_cons in Hunknown as [?%String.eqb_neq Hunknown]).
    unfold Cond, mbind, M_bind, mret, M_ret.
    repeat match goal with H : (_ =? _)%string = false |- _ => rewrite H; clear H end.
    reflexivity.
  + rewrite (rebalance_route _ _ _ Hinv).
    repeat (apply not_elem_of_cons in Hunknown as [?%String.eqb_neq Hunknown]).
    unfold Cond, mbind, M_bind, mret, M_ret.
    repeat match goal with H : (_ =? _)%string = false |- _ => rewrite H; clear H end.
    reflexivity.
Qed.

Lemma unknown_calls_rejected_witness :
call (Protocol.program Protocol.Rebalancer) Sample2.unknown_method_env
  Sample.rebalance_deployed
= (Sample.rebalance_deployed, Rejected NoCondMatched).
Proof.
refine (proj2 (unknown_calls_rejected Protocol.Rebalancer Sample2.unknown_method_env
          Sample.rebalance_deployed _ _) "withdraw" _ _).
- vm_compute. discriminate.
- reflexivity.
- reflexivity.
- apply (bool_decide_unpack _). vm_compute. exact I.
Defined.

End Routers.

Section OracleLife.

Import EnterprisePriceOracle.

Lemma oracle_opt_in_route (e : env) (s : store) :
application_id (Txn e) ≠ 0 ->
on_completion (Txn e) = OptIn ->
approval_program e s = on_opt_in e s.
Proof.
intros Hid%Z.eqb_neq Hoc.
unfold approval_program, Cond, completion_is.
unfold mbind, M_bind, mret, M_ret. by rewrite Hid, Hoc.
Qed.

Lemma on_opt_in_run (e : env) (s : store) :
on_opt_in e (allocate (sender (Txn e)) s)
= Done 1 (mkStore (globals s) (<[sender (Txn e) := Read.fresh_record]> (locals s))).
Proof.
unfold on_opt_in, allocate.
erewrite localPut_step by (cbn [locals]; apply lookup_insert_eq). cbn [globals locals].
erewrite localPut_step by (cbn [locals]; apply lookup_insert_eq). cbn [globals locals].
erewrite localPut_step by (cbn [locals]; apply lookup_insert_eq). cbn [globals locals].
by rewrite !insert_insert_eq.
Qed.

(** X11. Registration.  An opt-in call is approved exactly when the sender
  has no record yet; it then creates the record with flag 0, reputation 100
  and submission time 0, and changes neither the global state nor any other
  account. *)
Theorem registration_effect (e : env) (s : store) :
application_id (Txn e) ≠ 0 ->
on_completion (Txn e) = OptIn ->
((∃ s', call app e s = (s', Approved)) <-> locals s !! sender (Txn e) = None)
∧ (∀ s', call app e s = (s', Approved) ->
     authorized s' (sender (Txn e)) = Some 0
     ∧ reputation s' (sender (Txn e)) = Some 100
     ∧ Read.last_submission_time s' (sender (Txn e)) = Some 0
     ∧ globals s' = globals s
     ∧ (∀ a, a ≠ sender (Txn e) -> locals s' !! a = locals s !! a)).
Proof.
intros Hid Hoc.
assert (call app e s =
          match locals s !! sender (Txn e) with
          | Some _ => (s, Rejected AlreadyOptedIn)
          | None => (mkStore (globals s) (<[sender (Txn e) := Read.fresh_record]> (locals s)),
                     Approved)
          end) as ->.
{ unfold call. rewrite Hoc. destruct (locals s !! sender (Txn e)); [done |].
  cbn [approval app]. by rewrite (oracle_opt_in_route _ _ Hid Hoc), on_opt_in_run. }
destruct (locals s !! sender (Txn e)) as [m|].
- split; [split; [by intros [s' [=]] | discriminate] | by intros s' [=]].
- split; [split; [done | by eexists] |]. intros s' [= <-].
  unfold authorized, reputation, Read.last_submission_time, local_field.
  cbn [globals locals]. rewrite lookup_insert_eq. cbn.
  repeat split; try done. intros a Ha. by rewrite lookup_insert_ne.
Qed.

Lemma registration_effect_witness :
reputation (fst (call app Sample.opt_in_env Sample.oracle_deployed)) Sample.oracle_1
= Some 100.
Proof.
refine (proj1 (proj2 (proj2 (registration_effect Sample.opt_in_env
          Sample.oracle_deployed _ _) _ _))).
- vm_compute. discriminate.
- reflexivity.
- vm_compute. reflexivity.
Defined.

(** What the approval program leaves alone when the sender's flag is not 1:
  the price, the submission counter and the update time. *)
Lemma approval_quiet (e : env) (s s' : store) (v : Z) :
approval_program e s = Done v s' ->
application_id (Txn e) ≠ 0 ->
authorized s (sender (Txn e)) ≠ Some 1 ->
current_price s' = current_price s
∧ submission_count s' = submission_count s
∧ last_update_time s' = last_update_time s
∧ (circuit_breaker s' = circuit_breaker s
   ∨ circuit_breaker s' = 0 ∨ circuit_breaker s' = 1)
∧ (∀ a r, reputation s' a = Some r -> r = 100 ∨ reputation s a = Some r)
∧ (on_completion (Txn e) = OptIn -> reputation s' (sender (Txn e)) = Some 100).
Proof.
intros H Hid Hflag. oracle_paths H; bool_facts; try done.
all: try (exfalso; apply Hflag; unfold authorized, local_field;
          rewrite Hloc; cbn; congruence).
all: unfold current_price, submission_count, last_update_time, circuit_breaker,
       reputation, local_field; cbn [globals locals].
all: oracle_keys; repeat split; simplify_map_eq; auto.
all: try (intros Hoc; congruence).
- intros a r. destruct (decide (a = sender (Txn e))) as [-> | Hne];
    simplify_map_eq; cbn; simplify_map_eq; intros [= <-]; auto.
Qed.

Lemma call_quiet (e : env) (s s' : store) (r : receipt) :
application_id (Txn e) ≠ 0 ->
(∀ a, authorized s a ≠ Some 1) ->
call app e s = (s', r) ->
current_price s' = current_price s
∧ submission_count s' = submission_count s
∧ last_update_time s' = last_update_time s
∧ (circuit_breaker s' = circuit_breaker s
   ∨ circuit_breaker s' = 0 ∨ circuit_breaker s' = 1)
∧ (∀ a x, reputation s' a = Some x -> x = 100 ∨ reputation s a = Some x).
Proof.
intros Hid Hflags.
destruct r as [| err]; [| intros ->%call_Rejected; repeat split; auto].
intros H%call_Approved.
destruct (on_completion (Txn e)) eqn:Hoc; cbn [approval clear_state app] in H.
- destruct H as (v & H & _).
  destruct (approval_quiet _ _ _ _ H Hid (Hflags _)) as (? & ? & ? & ? & ? & _). done.
- destruct H as (Hnew & v & H & _).
  assert (authorized (allocate (sender (Txn e)) s) (sender (Txn e)) ≠ Some 1) as Hzero.
  { unfold authorized. rewrite local_field_allocate. by case_decide. }
  destruct (approval_quiet _ _ _ _ H Hid Hzero) as (? & ? & ? & ? & Hrep & Hnew').
  repeat split; try done. intros a x Hx.
  destruct (decide (a = sender (Txn e))) as [-> | Hne].
  + left. rewrite (Hnew' Hoc) in Hx. by injection Hx.
  + destruct (Hrep _ _ Hx) as [-> | Hpre]; [by left | right].
    unfold reputation in Hpre. rewrite local_field_allocate in Hpre.
    by case_decide.
- destruct H as (_ & v & s1 & H & _ & ->).
  destruct (approval_quiet _ _ _ _ H Hid (Hflags _)) as (? & ? & ? & ? & Hrep & _).
  repeat split; try done. intros a x. unfold reputation. rewrite local_field_release.
  case_decide; [discriminate | apply Hrep].
- destruct H as (_ & ->). cbn. repeat split; auto.
  intros a x. unfold reputation. rewrite local_field_release.
  case_decide; [discriminate | auto].
- destruct H as (v & H & _).
  destruct (approval_quiet _ _ _ _ H Hid (Hflags _)) as (? & ? & ? & ? & ? & _). done.
- destruct H as (v & H & _).
  destruct (approval_quiet _ _ _ _ H Hid (Hflags _)) as (? & ? & ? & ? & ? & _). done.
Qed.

Lemma reachable_no_flag (now : Z) (s : store) (a : string) :
reachable app now s -> authorized s a ≠ Some 1.
Proof.
intros Hreach Hone.
assert (registered s a) as Hreg.
{ unfold authorized, local_field in Hone. unfold registered.
  destruct (locals s !! a); [by eexists | discriminate]. }
rewrite (reachable_flag _ _ _ Hreach Hreg) in Hone. discriminate.
Qed.

(** What holds in every store reachable from deployment: the seed price, no
  submission counted, reputations of 100 (or 0, see below) and a breaker
  that is 0 or 1. *)
Lemma reachable_static (now : Z) (s : store) :
reachable app now s ->
current_price s = 250000
∧ submission_count s = 0
∧ (∀ a x, reputation s a = Some x -> x = 100 ∨ x = 0)
∧ (circuit_breaker s = 0 ∨ circuit_breaker s = 1).
Proof.
induction 1 as [e s Hid Hcreate | now e s s' r Hreach IH Hid Hclock Hcall].
- apply create_Approved in Hcreate as (s0 & v & Hs0 & H & _).
  cbn [approval app] in H.
  oracle_paths H; bool_facts; try done.
  unfold current_price, submission_count, circuit_breaker, reputation, local_field.
  cbn [globals locals]. oracle_keys. simplify_map_eq.
  repeat split; auto. intros a rep.
  destruct Hs0 as [-> | ->]; unfold allocate, empty_store; cbn [locals].
  + rewrite lookup_empty. discriminate.
  + rewrite lookup_insert. case_decide; [| rewrite lookup_empty; discriminate].
    cbn. rewrite lookup_empty. cbn. intros [= <-]. by right.
- destruct IH as (Hprice & Hcount & Hrep & Hbreaker).
  destruct (call_quiet _ _ _ _ Hid (fun a => reachable_no_flag _ _ a Hreach) Hcall)
    as (-> & -> & _ & Hb & Hr).
  repeat split; try done.
  + intros a x Hx. destruct (Hr _ _ Hx) as [-> | Hpre]; [by left | by eapply Hrep].
  + destruct Hb as [-> | Hb]; done.
Qed.




(** Along a sequence of approved calls the flags stay clear and a reputation
  that reads 0 at the end read 0 at the start. *)
Lemma run_reputation (es : list env) (s s' : store) :
Forall (fun e => application_id (Txn e) ≠ 0) es ->
(∀ a, authorized s a ≠ Some 1) ->
run app es s = Some s' ->
(∀ a x, reputation s' a = Some x -> x = 100 ∨ reputation s a = Some x).
Proof.
intros Hids. revert s.
induction Hids as [| e rest Hid Hids IH]; intros s Hflags; cbn [run].
- intros [= <-]. auto.
- destruct (call app e s) as [s1 [| err]] eqn:Hcall; [| discriminate].
  intros Hrun a x Hx.
  assert (∀ b, authorized s1 b ≠ Some 1) as Hflags1.
  { intros b Hb. destruct (call_flag _ _ _ _ _ _ Hcall Hb) as [? | Hpre];
      [done | by apply (Hflags b)]. }
  destruct (IH s1 Hflags1 Hrun a x Hx) as [-> | Hmid]; [by left |].
  destruct (call_quiet _ _ _ _ Hid Hflags Hcall) as (_ & _ & _ & _ & Hr).
  exact (Hr _ _ Hmid).
Qed.

(** X30. Starting from any store reachable from deployment, no sequence of
  approved calls lowers a reputation, close-outs and new registrations
  included: an account that has a reputation before the sequence and one
  after it has at least as much afterwards. *)
Theorem reputation_along_runs (now : Z) (es : list env) (s s' : store)
  (a : string) (r r' : Z) :
reachable app now s ->
Forall (fun e => application_id (Txn e) ≠ 0) es ->
run app es s = Some s' ->
reputation s a = Some r -> reputation s' a = Some r' -> r <= r'.
Proof.
intros Hreach Hids Hrun Hr Hr'.
destruct (reachable_static _ _ Hreach) as (_ & _ & Hrep & _).
destruct (run_reputation _ _ _ Hids (fun b => reachable_no_flag _ _ b Hreach) Hrun
            _ _ Hr') as [-> | Hsame].
- destruct (Hrep _ _ Hr) as [-> | ->]; lia.
- rewrite Hr in Hsame. injection Hsame as ->. lia.
Qed.

Lemma reputation_along_runs_witness :
run app [Sample.close_out_env; Sample.opt_in_env] Sample.oracle_registered
= Some Sample.oracle_registered
∧ 100 <= 100.
Proof.
split; [reflexivity |].
apply (reputation_along_runs 1100 [Sample.close_out_env; Sample.opt_in_env]
         Sample.oracle_registered Sample.oracle_registered Sample.oracle_1).
- exact sample_registration_reachable.
- repeat constructor; vm_compute; discriminate.
- reflexivity.
- reflexivity.
- reflexivity.
Defined.

End OracleLife.

(** ** Arguments as bytes *)

Section Bytes.

Lemma byte_val_range (c : ascii) : 0 <= byte_val c < 256.
Proof.
unfold byte_val. pose proof (N_ascii_bounded c) as H.
change 256 with (Z.of_N 256). lia.
Qed.

Lemma be_value_bound (b : string) (acc : Z) :
0 <= acc ->
acc * 256 ^ Z.of_nat (String.length b) <= be_value acc b
∧ be_value acc b < (acc + 1) * 256 ^ Z.of_nat (String.length b).
Proof.
revert acc. induction b as [| c r IH]; intros acc Hacc; cbn [be_value String.length].
- change (256 ^ Z.of_nat 0) with 1. lia.
- pose proof (byte_val_range c) as Hc.
  destruct (IH (acc * 256 + byte_val c) ltac:(lia)) as [Hlo Hhi].
  rewrite Nat2Z.inj_succ, Z.pow_succ_r by lia.
  assert (0 < 256 ^ Z.of_nat (String.length r)) by (apply Z.pow_pos_nonneg; lia).
  split; nia.
Qed.

(** What [Btoi] accepts is a [uint64]. *)
Lemma decodes_range (raw : string) (v : Z) :
decodes raw v -> 0 <= v <= u64_max.
Proof.
intros [Hlen <-].
destruct (be_value_bound raw 0 ltac:(lia)) as [Hlo Hhi].
assert (256 ^ Z.of_nat (String.length raw) <= 256 ^ 8)
  by (apply Z.pow_le_mono_r; lia).
change (256 ^ 8) with (u64_max + 1) in *. lia.
Qed.

Lemma arg_is_range (e : env) (i : nat) (v : Z) :
arg_is e i v -> 0 <= v <= u64_max.
Proof. intros (raw & _ & Hdec). by eapply decodes_range. Qed.

Lemma byte_round_trip (x : Z) :
byte_val (ascii_of_N (Z.to_N (x mod 256))) = x mod 256.
Proof.
unfold byte_val. pose proof (Z.mod_pos_bound x 256 ltac:(lia)) as H.
rewrite N_ascii_embedding by lia. lia.
Qed.

(** X12. The eight-byte big-endian encoding and [Btoi] are a round trip on
  [uint64]: every value from 0 to 2^64 - 1 is decoded from its encoding, and
  whatever [Btoi] decodes, from at most eight bytes, lies in that range. *)
Theorem Btoi_Itob_round_trip (v : Z) (s : store) :
0 <= v <= u64_max ->
String.length (Itob v) = 8%nat
∧ Btoi (Itob v) s = Done v s
∧ (∀ raw w s', Btoi raw s = Done w s' -> 0 <= w <= u64_max).
Proof.
intros Hv. split; [reflexivity | split].
- apply Btoi_eval. split; [cbn; lia |].
  unfold Itob. cbn [be_bytes be_value]. rewrite !byte_round_trip.
  unfold u64_max in Hv. Z.div_mod_to_equations. lia.
- intros raw w s' [Hdec _]%Btoi_Done. by eapply decodes_range.
Qed.

Lemma Btoi_Itob_round_trip_witness :
Btoi (Itob 260000) empty_store = Done 260000 empty_store.
Proof.
refine (proj1 (proj2 (Btoi_Itob_round_trip 260000 empty_store _))).
vm_compute. split; discriminate.
Defined.

End Bytes.

(** ** More about the risk manager *)

Ltac risk_keys :=
  unfold RiskManager.TOTAL_RISK_EXPOSURE_KEY, RiskManager.LIQUIDATION_POOL_KEY,
    RiskManager.SYSTEM_HEALTH_KEY, RiskManager.LAST_RISK_UPDATE_KEY,
    RiskManager.USER_RISK_SCORE_KEY, RiskManager.USER_DELTA_EXPOSURE_KEY,
    RiskManager.USER_LIQUIDATION_PRICE_KEY in *.

(** Every way the risk manager's approval program can finish. *)
Ltac risk_paths H :=
  unfold RiskManager.approval_program, Cond, completion_is, method_is,
    RiskManager.on_creation, RiskManager.calculate_risk_score,
    RiskManager.check_liquidation, RiskManager.execute_liquidation,
    RiskManager.update_system_health, RiskManager.calculate_delta,
    RiskManager.ratio_bps in H;
  inv_done H.

Section RiskMore.

Import RiskManager.

Lemma ratio_bps_cases (collateral balance : Z) (s : store) :
ratio_bps collateral balance s =
  if balance >? 0 then
    if collateral * 10000 >? u64_max then Stop ArithOverflow s
    else Done (collateral * 10000 / balance) s
  else Done 10000 s.
Proof.
unfold ratio_bps. destruct (Z.gtb_spec balance 0); [| reflexivity].
destruct (Z.gtb_spec (collateral * 10000) u64_max).
- by rewrite mul_halt by lia.
- rewrite mul_step by lia. apply div_eval. lia.
Qed.

Lemma below_threshold (collateral balance : Z) :
0 < balance ->
collateral * 10000 / balance < LIQUIDATION_THRESHOLD
<-> collateral * 10000 < LIQUIDATION_THRESHOLD * balance.
Proof.
intros Hpos. unfold LIQUIDATION_THRESHOLD. split; intros H.
- apply Z.nle_gt. intros Hge. apply Z.nle_gt in H. apply H.
  apply Z.div_le_lower_bound; lia.
- apply Z.div_lt_upper_bound; lia.
Qed.

(** X13. [check_liquidation] is approved, that is reports a position as
  liquidatable, exactly when the balance is positive, [collateral * 10000]
  fits in a [uint64] and [collateral * 10000 < 120 * balance]: the
  collateral has to be below 1.2 percent of the balance.  It never writes,
  and the price argument plays no part. *)
Theorem check_liquidation_exact (e : env) (s : store) (collateral balance price : Z) :
invokes e "check_liquidation" ->
args_length e = 5 ->
arg_is e 2 collateral -> arg_is e 3 balance -> arg_is e 4 price ->
fst (call app e s) = s
∧ (snd (call app e s) = Approved
   <-> 0 < balance
       ∧ collateral * 10000 <= u64_max
       ∧ collateral * 10000 < LIQUIDATION_THRESHOLD * balance)
∧ (0 < balance -> collateral * 10000 > u64_max ->
   snd (call app e s) = Rejected ArithOverflow).
Proof.
intros Hinv Hlen Hc Hb Hp.
pose proof (arg_is_range _ _ _ Hb) as Hrange.
rewrite (risk_invokes e s _ check_liquidation Hinv)
  by (destruct Hinv as (_ & _ & ?); reflexivity).
assert (check_liquidation e s
        = (collateral_ratio ← ratio_bps collateral balance;
           Return (if collateral_ratio <? LIQUIDATION_THRESHOLD then 1 else 0)) s) as ->.
{ unfold check_liquidation. rewrite Assert_step by side.
  by rewrite (arg_decodes _ _ _ _ _ Hc), (arg_decodes _ _ _ _ _ Hb),
    (arg_decodes _ _ _ _ _ Hp). }
unfold mbind, M_bind. rewrite ratio_bps_cases.
destruct (Z.gtb_spec balance 0).
- destruct (Z.gtb_spec (collateral * 10000) u64_max); cbn [settle fst snd].
  { repeat split; first [done | lia]. }
  unfold Return, mret, M_ret.
  destruct (Z.ltb_spec (collateral * 10000 / balance) LIQUIDATION_THRESHOLD) as [Hlt | Hge];
    cbn [settle fst snd Z.eqb].
  + apply below_threshold in Hlt; [| done]. repeat split; first [done | lia].
  + assert (¬ collateral * 10000 < LIQUIDATION_THRESHOLD * balance)
      by (rewrite <- below_threshold by done; lia).
    repeat split; first [done | lia].
- unfold Return, mret, M_ret. cbn [settle fst snd]. repeat split; first [done | lia].
Qed.

Lemma check_liquidation_exact_witness :
snd (call app (Sample.check_liquidation_env 1 100 250000) Sample.risk_opted_in) = Approved.
Proof.
refine (proj2 (proj1 (proj2 (check_liquidation_exact
          (Sample.check_liquidation_env 1 100 250000) Sample.risk_opted_in
          1 100 250000 _ _ _ _ _))) _).
- repeat split; vm_compute; lia.
- reflexivity.
- eexists; repeat split; vm_compute; lia.
- eexists; repeat split; vm_compute; lia.
- eexists; repeat split; vm_compute; lia.
- split; [evaluate | split; evaluate].
Defined.

(** X14. [calculate_risk_score] needs the caller to have opted in.  It then
  stores one and the same number, [collateral * 10000 / balance] (10000 for
  a zero balance), as the caller's risk score and as its liquidation price;
  the price argument is not used, and neither the global state nor any other
  account changes.  A caller that has not opted in is refused, and so is a
  collateral whose product with 10000 overflows. *)
Theorem risk_score_call (e : env) (s : store) (collateral balance price : Z) :
invokes e "calculate_risk" ->
args_length e = 4 ->
arg_is e 1 collateral -> arg_is e 2 balance -> arg_is e 3 price ->
let ratio := if balance >? 0 then collateral * 10000 / balance else 10000 in
let fits := balance = 0 ∨ collateral * 10000 <= u64_max in
(fits -> is_Some (locals s !! sender (Txn e)) ->
 ∃ s', call app e s = (s', Approved)
       ∧ risk_score s' (sender (Txn e)) = Some ratio
       ∧ Read.liquidation_price s' (sender (Txn e)) = Some ratio
       ∧ globals s' = globals s
       ∧ (∀ a, a ≠ sender (Txn e) -> locals s' !! a = locals s !! a))
∧ (fits -> locals s !! sender (Txn e) = None ->
   call app e s = (s, Rejected NotOptedIn))
∧ (¬ fits -> call app e s = (s, Rejected ArithOverflow)).
Proof.
intros Hinv Hlen Hc Hb Hp ratio fits.
pose proof (arg_is_range _ _ _ Hb) as Hrange.
rewrite (risk_invokes e s _ calculate_risk_score Hinv)
  by (destruct Hinv as (_ & _ & ?); reflexivity).
assert (calculate_risk_score e s
        = (risk_score ← ratio_bps collateral balance;
           localPut (sender (Txn e)) USER_RISK_SCORE_KEY risk_score;;
           localPut (sender (Txn e)) USER_LIQUIDATION_PRICE_KEY risk_score;;
           Return 1) s) as ->.
{ unfold calculate_risk_score. rewrite Assert_step by side.
  by rewrite (arg_decodes _ _ _ _ _ Hc), (arg_decodes _ _ _ _ _ Hb),
    (arg_decodes _ _ _ _ _ Hp). }
assert (fits -> ratio_bps collateral balance s = Done ratio s) as Hratio.
{ intros Hfits. rewrite ratio_bps_cases. subst ratio.
  destruct (Z.gtb_spec balance 0); [| done].
  destruct (Z.gtb_spec (collateral * 10000) u64_max); [| done].
  destruct Hfits; lia. }
split; [| split].
- intros Hfits [m Hm].
  rewrite (bind_eval _ _ _ _ _ (Hratio Hfits)).
  rewrite (localPut_step _ _ _ _ _ _ Hm). cbn [globals locals].
  erewrite localPut_step by (cbn [locals]; apply lookup_insert_eq).
  eexists. split; [reflexivity |].
  unfold risk_score, Read.liquidation_price, local_field.
  cbn [globals locals]. rewrite lookup_insert_eq. cbn.
  rewrite lookup_insert_eq.
  rewrite lookup_insert_ne by (risk_keys; discriminate). rewrite lookup_insert_eq.
  repeat split; try done.
  intros a Ha. by rewrite !lookup_insert_ne.
- intros Hfits Hnone.
  rewrite (bind_eval _ _ _ _ _ (Hratio Hfits)).
  unfold localPut, mbind, M_bind. by rewrite Hnone.
- intros Hover. unfold mbind, M_bind. rewrite ratio_bps_cases.
  destruct (Z.gtb_spec balance 0); [| exfalso; apply Hover; left; lia].
  destruct (Z.gtb_spec (collateral * 10000) u64_max); [done |].
  exfalso. apply Hover. by right.
Qed.

Lemma risk_score_call_witness :
∃ s', call app (Sample.risk_score_env 300 200 250000) Sample.risk_opted_in = (s', Approved)
      ∧ risk_score s' Sample.user_1 = Some 15000
      ∧ Read.liquidation_price s' Sample.user_1 = Some 15000
      ∧ globals s' = globals Sample.risk_opted_in
      ∧ (∀ a, a ≠ Sample.user_1 -> locals s' !! a = locals Sample.risk_opted_in !! a).
Proof.
refine (proj1 (risk_score_call (Sample.risk_score_env 300 200 250000)
                 Sample.risk_opted_in 300 200 250000 _ _ _ _ _) _ _).
- repeat split; vm_compute; lia.
- reflexivity.
- eexists; repeat split; vm_compute; lia.
- eexists; repeat split; vm_compute; lia.
- eexists; repeat split; vm_compute; lia.
- right. evaluate.
- vm_compute. eexists. reflexivity.
Defined.

Lemma fee_is_a_fortieth (declared : Z) :
declared * LIQUIDATION_PENALTY / 10000 / 2 = declared / 40.
Proof.
unfold LIQUIDATION_PENALTY. rewrite Z.div_div by lia.
change (10000 * 2) with (40 * 500).
by rewrite Z.div_mul_cancel_r by lia.
Qed.

(** What an accepted liquidation has checked, and the store it leaves. *)
Lemma execute_liquidation_inv (e : env) (s s' : store) (declared v : Z) :
arg_is e 2 declared ->
execute_liquidation e s = Done v s' ->
v = 1
∧ 2 <= group_size e
∧ (∃ g, Gtxn e !! 0%nat = Some g ∧ type_enum g = Payment
        ∧ receiver g = current_application_address e)
∧ s' = set_global LIQUIDATION_POOL_KEY (liquidation_pool s + declared / 40) s.
Proof.
intros Hd H. unfold execute_liquidation in H. inv_done H.
match goal with
| Ha : application_args _ !! 2%nat = Some ?raw, Hd' : decodes ?raw ?q |- _ =>
    assert (q = declared) as -> by (eapply arg_is_unique; [exists raw; eauto | done])
end.
bool_facts. rewrite fee_is_a_fortieth. repeat split; [lia | by eexists].
Qed.

(** X15. The protocol's share of a liquidation is a fortieth of the declared
  amount, rounded down (so nothing for an amount below 40): an approved
  [execute_liquidation] adds exactly [declared / 40] to the liquidation pool
  and changes nothing else.  It has checked that the group has two members,
  the first a payment to the application; the price argument and the named
  account are not looked at. *)
Theorem liquidation_adds_a_fortieth (e : env) (s s' : store) (declared : Z) :
invokes e "execute_liquidation" ->
arg_is e 2 declared ->
call app e s = (s', Approved) ->
s' = set_global LIQUIDATION_POOL_KEY (liquidation_pool s + declared / 40) s
∧ liquidation_pool s' = liquidation_pool s + declared / 40
∧ liquidation_pool s <= liquidation_pool s'
∧ (declared < 40 -> liquidation_pool s' = liquidation_pool s)
∧ 2 <= group_size e
∧ (∃ g, Gtxn e !! 0%nat = Some g ∧ type_enum g = Payment
        ∧ receiver g = current_application_address e).
Proof.
intros Hinv Hd.
pose proof (arg_is_range _ _ _ Hd) as Hrange.
rewrite (risk_invokes e s _ execute_liquidation Hinv)
  by (destruct Hinv as (_ & _ & ?); reflexivity).
intros (v & Hrun & _)%settle_Approved.
destruct (execute_liquidation_inv _ _ _ _ _ Hd Hrun) as (_ & ? & ? & ->).
assert (liquidation_pool (set_global LIQUIDATION_POOL_KEY
                            (liquidation_pool s + declared / 40) s)
        = liquidation_pool s + declared / 40) as Hpool.
{ unfold liquidation_pool, set_global. cbn [globals]. by rewrite lookup_insert_eq. }
rewrite Hpool. repeat split; try done.
- assert (0 <= declared / 40) by (apply Z.div_pos; lia). lia.
- intros Hsmall. rewrite Z.div_small by lia. lia.
Qed.

Lemma liquidation_adds_a_fortieth_witness :
liquidation_pool (fst (call app Sample.liquidation_env Sample.risk_opted_in))
= liquidation_pool Sample.risk_opted_in + 1000000 / 40.
Proof.
refine (proj1 (proj2 (liquidation_adds_a_fortieth Sample.liquidation_env
          Sample.risk_opted_in _ 1000000 _ _ _))).
- repeat split; vm_compute; lia.
- eexists; repeat split; vm_compute; lia.
- vm_compute. reflexivity.
Defined.

(** X16. A liquidation whose group has fewer than two members, or whose
  first member is not a payment, or pays another address than the
  application's, is rejected with [GroupPaymentMismatch] and the pool is
  left as it was. *)
Theorem liquidation_needs_payment (e : env) (s : store) (declared price : Z) :
invokes e "execute_liquidation" ->
args_length e = 5 ->
arg_is e 2 declared -> arg_is e 3 price ->
(length (Gtxn e) < 2)%nat
∨ (∃ g, Gtxn e !! 0%nat = Some g
        ∧ (type_enum g ≠ Payment ∨ receiver g ≠ current_application_address e)) ->
call app e s = (s, Rejected GroupPaymentMismatch)
∧ liquidation_pool (fst (call app e s)) = liquidation_pool s.
Proof.
intros Hinv Hlen Hd Hp Hbad.
rewrite (risk_invokes e s _ execute_liquidation Hinv)
  by (destruct Hinv as (_ & _ & ?); reflexivity).
assert (execute_liquidation e s = Stop GroupPaymentMismatch s) as ->; [| done].
unfold execute_liquidation. rewrite Assert_step by side.
destruct (Z.leb_spec 2 (group_size e)) as [Hsize | Hsize];
  [| by rewrite Assert_halt by side].
rewrite Assert_step by side.
rewrite (arg_decodes _ _ _ _ _ Hd), (arg_decodes _ _ _ _ _ Hp).
destruct Hbad as [Hshort | (g & Hg & Hwrong)];
  [unfold group_size in Hsize; lia |].
rewrite (group_step _ _ _ _ _ Hg).
destruct (decide (type_enum g = Payment)) as [Htype | Htype].
- rewrite Assert_step by (by apply bool_decide_eq_true_2).
  destruct Hwrong as [? | Hrecv]; [done |].
  by rewrite Assert_halt by (by apply String.eqb_neq).
- by rewrite Assert_halt by (by apply bool_decide_eq_false_2).
Qed.

Lemma liquidation_needs_payment_witness :
call app (Sample.call_env Sample.creator NoOp
            ["execute_liquidation"; Sample.user_1; Itob 1000000; Itob 250000; Itob 0]
            [Sample.app_call_leg; Sample.app_call_leg] 1200)
  Sample.risk_opted_in
= (Sample.risk_opted_in, Rejected GroupPaymentMismatch).
Proof.
refine (proj1 (liquidation_needs_payment _ Sample.risk_opted_in 1000000 250000 _ _ _ _ _)).
- repeat split; vm_compute; lia.
- reflexivity.
- eexists; repeat split; vm_compute; lia.
- eexists; repeat split; vm_compute; lia.
- right. exists Sample.app_call_leg. split; [reflexivity | left; discriminate].
Defined.

End RiskMore.

(** ** The risk manager's global state *)

Section RiskGuard.

Import RiskManager.

Lemma update_system_health_cases (e : env) (s : store) (score : Z) :
args_length e = 2 ->
arg_is e 1 score ->
update_system_health e s =
  if String.eqb (sender (Txn e)) (creator_address e)
  then Done 1 (set_global LAST_RISK_UPDATE_KEY (latest_timestamp e)
                 (set_global SYSTEM_HEALTH_KEY score s))
  else Stop Unauthorized s.
Proof.
intros Hlen Hscore. unfold update_system_health.
destruct (String.eqb _ _); [| reflexivity].
rewrite Assert_step by done. rewrite Assert_step by side.
by rewrite (arg_decodes _ _ _ _ _ Hscore).
Qed.

(** X17. [update_health] is the creator's: from the creator it stores the
  score it is given, whatever its size (there is no upper bound at 10000),
  together with the time of the call; from anyone else it is refused with
  [Unauthorized]. *)
Theorem health_is_the_creators (e : env) (s : store) (score : Z) :
invokes e "update_health" ->
args_length e = 2 ->
arg_is e 1 score ->
(sender (Txn e) = creator_address e ->
 ∃ s', call app e s = (s', Approved)
       ∧ Read.system_health s' = score
       ∧ Read.last_risk_update s' = latest_timestamp e
       ∧ liquidation_pool s' = liquidation_pool s
       ∧ locals s' = locals s)
∧ (sender (Txn e) ≠ creator_address e ->
   call app e s = (s, Rejected Unauthorized)).
Proof.
intros Hinv Hlen Hscore.
rewrite (risk_invokes e s _ update_system_health Hinv)
  by (destruct Hinv as (_ & _ & ?); reflexivity).
rewrite (update_system_health_cases _ _ _ Hlen Hscore). split.
- intros ->%String.eqb_eq. eexists. split; [reflexivity |].
  unfold Read.system_health, Read.last_risk_update, Read.global_field,
    liquidation_pool, set_global. cbn [globals locals].
  risk_keys. by simplify_map_eq.
- by intros ->%String.eqb_neq.
Qed.

Lemma health_is_the_creators_witness :
∃ s', call app (Sample2.health_env 50000) Sample.risk_opted_in = (s', Approved)
      ∧ Read.system_health s' = 50000
      ∧ Read.last_risk_update s' = latest_timestamp (Sample2.health_env 50000)
      ∧ liquidation_pool s' = liquidation_pool Sample.risk_opted_in
      ∧ locals s' = locals Sample.risk_opted_in.
Proof.
refine (proj1 (health_is_the_creators (Sample2.health_env 50000)
                 Sample.risk_opted_in 50000 _ _ _) _).
- repeat split; vm_compute; lia.
- reflexivity.
- eexists; repeat split; vm_compute; lia.
- reflexivity.
Defined.

(** X18. [calculate_delta] of the risk manager stores
  [balance * volatility / 10000] as the caller's delta exposure and nothing
  else; the price argument is not used.  A product that does not fit in a
  [uint64] is refused. *)
Theorem exposure_call (e : env) (s : store) (balance price volatility : Z) :
invokes e "calculate_delta" ->
args_length e = 4 ->
arg_is e 1 balance -> arg_is e 2 price -> arg_is e 3 volatility ->
(balance * volatility <= u64_max ->
 is_Some (locals s !! sender (Txn e)) ->
 ∃ s', call app e s = (s', Approved)
       ∧ Read.delta_exposure s' (sender (Txn e)) = Some (balance * volatility / 10000)
       ∧ risk_score s' (sender (Txn e)) = risk_score s (sender (Txn e))
       ∧ globals s' = globals s
       ∧ (∀ a, a ≠ sender (Txn e) -> locals s' !! a = locals s !! a))
∧ (balance * volatility > u64_max -> call app e s = (s, Rejected ArithOverflow)).
Proof.
intros Hinv Hlen Hb Hp Hv.
assert (call app e s = settle s (calculate_delta e s)) as ->.
{ rewrite call_noop by apply Hinv. cbn [approval app].
  rewrite (risk_route _ _ _ Hinv). by destruct Hinv as (_ & _ & ?). }
assert (calculate_delta e s
        = (scaled ← mul balance volatility;
           delta_exposure ← div scaled 10000;
           localPut (sender (Txn e)) USER_DELTA_EXPOSURE_KEY delta_exposure;;
           Return 1) s) as ->.
{ unfold calculate_delta. rewrite Assert_step by side.
  by rewrite (arg_decodes _ _ _ _ _ Hb), (arg_decodes _ _ _ _ _ Hp),
    (arg_decodes _ _ _ _ _ Hv). }
split.
- intros Hfit [m Hm].
  rewrite mul_step by done. rewrite div_step by done.
  rewrite (localPut_step _ _ _ _ _ _ Hm).
  eexists. split; [reflexivity |].
  unfold Read.delta_exposure, risk_score, local_field. cbn [globals locals].
  rewrite lookup_insert_eq, Hm. cbn. rewrite lookup_insert_eq.
  rewrite lookup_insert_ne by (risk_keys; discriminate).
  repeat split; try done. intros a Ha. by rewrite lookup_insert_ne.
- intros Hbig. by rewrite mul_halt.
Qed.

Lemma exposure_call_witness :
call app (Sample2.exposure_env 4294967296 250000 4294967296) Sample.risk_opted_in
= (Sample.risk_opted_in, Rejected ArithOverflow).
Proof.
refine (proj2 (exposure_call (Sample2.exposure_env 4294967296 250000 4294967296)
                 Sample.risk_opted_in 4294967296 250000 4294967296 _ _ _ _ _) _).
- repeat split; vm_compute; lia.
- reflexivity.
- eexists; repeat split; vm_compute; lia.
- eexists; repeat split; vm_compute; lia.
- eexists; repeat split; vm_compute; lia.
- evaluate.
Defined.

Lemma risk_clear_state (e : env) (s s1 : store) (v : Z) :
clear_state app e s = Done v s1 -> s1 = s.
Proof. cbn. unfold clear_state_program. intros H. by inv_done H. Qed.

Lemma risk_exposure_untouched (e : env) (s s' : store) (r : receipt) :
application_id (Txn e) ≠ 0 ->
call app e s = (s', r) ->
Read.total_risk_exposure s' = Read.total_risk_exposure s.
Proof.
intros Hid.
apply (call_global_related app TOTAL_RISK_EXPOSURE_KEY e (fun old new => new = old));
  [done | |].
- intros s0 v s1 _ H. cbn [approval app] in H.
  risk_paths H; bool_facts; try done.
  all: cbn [globals]; risk_keys; by simplify_map_eq.
- by intros v s1 ->%risk_clear_state.
Qed.

Lemma risk_pool_grows (e : env) (s s' : store) (r : receipt) :
application_id (Txn e) ≠ 0 ->
call app e s = (s', r) ->
liquidation_pool s <= liquidation_pool s'.
Proof.
intros Hid.
apply (call_global_related app LIQUIDATION_POOL_KEY e Z.le); [lia | |].
- intros s0 v s1 _ H. cbn [approval app] in H.
  risk_paths H; bool_facts; try done.
  all: cbn [globals]; risk_keys; simplify_map_eq; try lia.
  match goal with
  | Hd : decodes _ ?q |- context [?q * LIQUIDATION_PENALTY] =>
      apply decodes_range in Hd; rewrite (fee_is_a_fortieth q);
      assert (0 <= q / 40) by (apply Z.div_pos; lia); lia
  end.
- intros v s1 ->%risk_clear_state. lia.
Qed.

(** X19. What the calls to a deployed risk manager can do to its global
  state: the total risk exposure is never written, the liquidation pool
  never shrinks, and the health gauge and its time stamp change only in a
  call sent by the creator. *)
Theorem risk_globals_guarded (e : env) (s s' : store) (r : receipt) :
application_id (Txn e) ≠ 0 ->
call app e s = (s', r) ->
Read.total_risk_exposure s' = Read.total_risk_exposure s
∧ liquidation_pool s <= liquidation_pool s'
∧ (sender (Txn e) ≠ creator_address e ->
   Read.system_health s' = Read.system_health s
   ∧ Read.last_risk_update s' = Read.last_risk_update s).
Proof.
intros Hid Hcall.
split; [by eapply risk_exposure_untouched | split; [by eapply risk_pool_grows |]].
intros Hother. split.
- revert Hcall.
  apply (call_global_related app SYSTEM_HEALTH_KEY e (fun old new => new = old));
    [done | |].
  + intros s0 v s1 _ H0. cbn [approval app] in H0.
    risk_paths H0; bool_facts; try done.
    all: cbn [globals]; risk_keys; by simplify_map_eq.
  + by intros v s1 ->%risk_clear_state.
- revert Hcall.
  apply (call_global_related app LAST_RISK_UPDATE_KEY e (fun old new => new = old));
    [done | |].
  + intros s0 v s1 _ H0. cbn [approval app] in H0.
    risk_paths H0; bool_facts; try done.
    all: cbn [globals]; risk_keys; by simplify_map_eq.
  + by intros v s1 ->%risk_clear_state.
Qed.

Lemma risk_globals_guarded_witness :
liquidation_pool Sample.risk_opted_in
<= liquidation_pool (fst (call app Sample.liquidation_env Sample.risk_opted_in)).
Proof.
refine (proj1 (proj2 (risk_globals_guarded Sample.liquidation_env
          Sample.risk_opted_in _ Approved _ _))).
- vm_compute. discriminate.
- vm_compute. reflexivity.
Defined.

(** X20. In every store reachable from the deployment of the risk manager
  the total risk exposure is still 0, as creation left it, and the
  liquidation pool is not negative. *)
Theorem risk_exposure_stays_zero (now : Z) (s : store) :
reachable app now s ->
Read.total_risk_exposure s = 0 ∧ 0 <= liquidation_pool s.
Proof.
induction 1 as [e s Hid Hcreate | now e s s' r Hreach IH Hid Hclock Hcall].
- apply create_Approved in Hcreate as (s0 & v & [-> | ->] & H & _).
  all: cbn [approval app] in H; risk_paths H; bool_facts; try done.
- rewrite (risk_exposure_untouched _ _ _ _ Hid Hcall).
  pose proof (risk_pool_grows _ _ _ _ Hid Hcall). lia.
Qed.

Lemma sample_risk_reachable : reachable app 1100 Sample.risk_opted_in.
Proof.
apply (reachable_call app 1000 (Sample.call_env Sample.user_1 OptIn [] [] 1100)
         Sample.risk_deployed _ Approved).
- apply (reachable_create app Sample.creation_env); reflexivity.
- simpl; lia.
- simpl; lia.
- reflexivity.
Defined.

Lemma risk_exposure_stays_zero_witness :
Read.total_risk_exposure Sample.risk_opted_in = 0.
Proof.
exact (proj1 (risk_exposure_stays_zero 1100 Sample.risk_opted_in sample_risk_reachable)).
Defined.

End RiskGuard.

(** ** More about the rebalance engine *)

Section RebalanceMore.

Import RebalanceEngine.

Lemma rebalance_call (e : env) (s : store) (name : string) (op : env -> M Z) :
invokes e name ->
Cond [
  (mret (String.eqb name "calculate_delta"), calculate_delta e);
  (mret (String.eqb name "check_rebalance"), check_rebalance_needed e);
  (mret (String.eqb name "execute_rebalance"), execute_rebalance e);
  (mret (String.eqb name "update_funding"), update_funding_rate e);
  (mret (String.eqb name "distribute_yield"), distribute_yield e);
  (mret (String.eqb name "calculate_hedge"), calculate_hedge_ratio e);
  (mret (String.eqb name "set_target_delta"), set_target_delta e)
] s = op e s ->
call app e s = settle s (op e s).
Proof. apply rebalance_invokes. Qed.

(** X21. [calculate_delta] of the engine, for arguments whose products with
  the price fit in a [uint64].  With [price_change = 0] it stores 0.
  Otherwise it subtracts the collateral value from the portfolio value in
  unsigned arithmetic: when the collateral is worth more the call is
  rejected with an underflow, and when it is not the call stores
  [(portfolio_value - collateral_value) * 10000 / price_change]. *)
Theorem engine_delta_call (e : env) (s : store) (supply collateral price change : Z) :
invokes e "calculate_delta" ->
args_length e = 5 ->
arg_is e 1 supply -> arg_is e 2 collateral -> arg_is e 3 price -> arg_is e 4 change ->
supply * price <= u64_max ->
collateral * price <= u64_max ->
let portfolio_value := supply * price / 1000000 in
let collateral_value := collateral * price / 1000000 in
(change = 0 ->
 call app e s = (set_global CURRENT_DELTA_KEY 0 s, Approved))
∧ (change ≠ 0 -> portfolio_value < collateral_value ->
   call app e s = (s, Rejected ArithUnderflow))
∧ (change ≠ 0 -> collateral_value <= portfolio_value ->
   (portfolio_value - collateral_value) * 10000 <= u64_max ->
   call app e s
   = (set_global CURRENT_DELTA_KEY
        ((portfolio_value - collateral_value) * 10000 / change) s, Approved)).
Proof.
intros Hinv Hlen Hs Hc Hp Hch Hfit1 Hfit2 pv cv.
rewrite (rebalance_call e s _ calculate_delta Hinv)
  by (destruct Hinv as (_ & _ & ?); reflexivity).
assert (calculate_delta e s
        = (current_delta ← (if negb (change =? 0)
                            then gap ← sub pv cv;
                                 scaled ← mul gap 10000;
                                 div scaled change
                            else mret 0);
           globalPut CURRENT_DELTA_KEY current_delta;;
           Return 1) s) as ->.
{ unfold calculate_delta. rewrite Assert_step by side.
  rewrite (arg_decodes _ _ _ _ _ Hs), (arg_decodes _ _ _ _ _ Hc),
    (arg_decodes _ _ _ _ _ Hp), (arg_decodes _ _ _ _ _ Hch).
  rewrite mul_step by done. rewrite div_step by done.
  rewrite mul_step by done. by rewrite div_step by done. }
repeat split.
- intros ->. reflexivity.
- intros Hnz Hless. apply Z.eqb_neq in Hnz. rewrite Hnz. cbn [negb].
  unfold mbind at 1, M_bind at 1.
  assert (sub pv cv s = Stop ArithUnderflow s) as Hsub.
  { unfold sub. destruct (Z.ltb_spec pv cv); [done | lia]. }
  by rewrite (bind_halt _ _ _ _ _ Hsub).
- intros Hnz Hge Hfit. pose proof Hnz as Hnz'. apply Z.eqb_neq in Hnz'.
  rewrite Hnz'. cbn [negb].
  unfold mbind at 1, M_bind at 1.
  rewrite sub_step by done. rewrite mul_step by done.
  by rewrite (div_eval _ _ _ Hnz).
Qed.

Lemma engine_delta_call_witness :
call app (Sample2.delta_env 1000 2000 250000 5) Sample.rebalance_deployed
= (Sample.rebalance_deployed, Rejected ArithUnderflow).
Proof.
refine (proj1 (proj2 (engine_delta_call (Sample2.delta_env 1000 2000 250000 5)
          Sample.rebalance_deployed 1000 2000 250000 5 _ _ _ _ _ _ _ _)) _ _).
- repeat split; vm_compute; lia.
- reflexivity.
- eexists; repeat split; vm_compute; lia.
- eexists; repeat split; vm_compute; lia.
- eexists; repeat split; vm_compute; lia.
- eexists; repeat split; vm_compute; lia.
- evaluate.
- evaluate.
- evaluate.
- evaluate.
Defined.

Lemma check_rebalance_needed_cases (e : env) (s : store) :
check_rebalance_needed e s =
  if latest_timestamp e <? Read.last_rebalance_time s then Stop ArithUnderflow s
  else Done (And (Int (MIN_REBALANCE_INTERVAL
                         <=? latest_timestamp e - Read.last_rebalance_time s))
                 (Int (Z.abs (Read.current_delta s - Read.target_delta s)
                         >? REBALANCE_THRESHOLD))) s.
Proof.
unfold check_rebalance_needed, Read.last_rebalance_time, Read.current_delta,
  Read.target_delta, Read.global_field.
rewrite globalGet_step.
destruct (Z.ltb_spec (latest_timestamp e) (default 0 (globals s !! LAST_REBALANCE_KEY))).
- apply bind_halt. unfold sub.
  by destruct (Z.ltb_spec (latest_timestamp e) (default 0 (globals s !! LAST_REBALANCE_KEY)));
    [| lia].
- rewrite sub_step by done. rewrite !globalGet_step.
  set (current := default 0 (globals s !! CURRENT_DELTA_KEY)).
  set (target := default 0 (globals s !! TARGET_DELTA_KEY)).
  destruct (Z.gtb_spec current target).
  + rewrite sub_step by lia. unfold Return, mret, M_ret.
    by replace (Z.abs (current - target)) with (current - target) by lia.
  + rewrite sub_step by lia. unfold Return, mret, M_ret.
    by replace (Z.abs (current - target)) with (target - current) by lia.
Qed.

(** X22. [check_rebalance] never writes.  When the last rebalance does not
  lie in the future, the call is approved (the program returns 1) exactly
  when at least 3600 seconds have passed since the last rebalance and the
  current delta is more than 500 away from the target; otherwise the program
  returns 0, which rejects the call. *)
Theorem check_rebalance_exact (e : env) (s : store) :
invokes e "check_rebalance" ->
Read.last_rebalance_time s <= latest_timestamp e ->
let due :=
  MIN_REBALANCE_INTERVAL <= latest_timestamp e - Read.last_rebalance_time s
  ∧ Z.abs (Read.current_delta s - Read.target_delta s) > REBALANCE_THRESHOLD in
fst (call app e s) = s
∧ (snd (call app e s) = Approved <-> due)
∧ (due -> check_rebalance_needed e s = Done 1 s)
∧ (¬ due -> check_rebalance_needed e s = Done 0 s
            ∧ snd (call app e s) = Rejected ReturnedZero).
Proof.
intros Hinv Hclock due.
rewrite (rebalance_call e s _ check_rebalance_needed Hinv)
  by (destruct Hinv as (_ & _ & ?); reflexivity).
rewrite check_rebalance_needed_cases.
destruct (Z.ltb_spec (latest_timestamp e) (Read.last_rebalance_time s)); [lia |].
subst due.
destruct (Z.leb_spec MIN_REBALANCE_INTERVAL
            (latest_timestamp e - Read.last_rebalance_time s));
  destruct (Z.gtb_spec (Z.abs (Read.current_delta s - Read.target_delta s))
              REBALANCE_THRESHOLD);
  cbn [Int And Z.eqb negb andb settle fst snd];
  repeat split; first [done | lia | intros []; lia | intros; exfalso; lia | idtac].
Qed.

Lemma check_rebalance_exact_witness :
snd (call app (Sample2.check_rebalance_env 5000) Sample2.rebalance_drifted) = Approved.
Proof.
refine (proj2 (proj1 (proj2 (check_rebalance_exact (Sample2.check_rebalance_env 5000)
          Sample2.rebalance_drifted _ _))) _).
- repeat split; vm_compute; lia.
- evaluate.
- split; evaluate.
Defined.

(** What an accepted rebalance has checked, and the store it leaves. *)
Lemma execute_rebalance_inv (e : env) (s s' : store) (v : Z) :
execute_rebalance e s = Done v s' ->
v = 1
∧ args_length e = 4
∧ 2 <= group_size e
∧ rebalance_count s + 1 <= u64_max
∧ s' = set_global REBALANCE_COUNT_KEY (rebalance_count s + 1)
         (set_global LAST_REBALANCE_KEY (latest_timestamp e) s).
Proof.
intros H. unfold execute_rebalance in H. inv_done H. bool_facts.
unfold rebalance_count, set_global in *. cbn [globals locals] in *.
rewrite lookup_insert_ne in * by (rebalance_keys; discriminate).
repeat split; try done; lia.
Qed.

(** X23. An approved [execute_rebalance] stamps the time of the call and
  counts one more rebalance, nothing else; the amount and the direction are
  read and not used, and any account may send it.  The stamp starts the
  cool-down: for the next 3600 seconds every [check_rebalance] call is
  rejected, however far the delta has drifted. *)
Theorem rebalance_starts_cooldown (e : env) (s s' : store) :
invokes e "execute_rebalance" ->
call app e s = (s', Approved) ->
s' = set_global REBALANCE_COUNT_KEY (rebalance_count s + 1)
       (set_global LAST_REBALANCE_KEY (latest_timestamp e) s)
∧ Read.last_rebalance_time s' = latest_timestamp e
∧ rebalance_count s' = rebalance_count s + 1
∧ (∀ e', invokes e' "check_rebalance" ->
         latest_timestamp e <= latest_timestamp e' < latest_timestamp e + MIN_REBALANCE_INTERVAL ->
         call app e' s' = (s', Rejected ReturnedZero)).
Proof.
intros Hinv.
rewrite (rebalance_call e s _ execute_rebalance Hinv)
  by (destruct Hinv as (_ & _ & ?); reflexivity).
intros (v & Hrun & _)%settle_Approved.
destruct (execute_rebalance_inv _ _ _ _ Hrun) as (_ & _ & _ & _ & ->).
assert (Read.last_rebalance_time
          (set_global REBALANCE_COUNT_KEY (rebalance_count s + 1)
             (set_global LAST_REBALANCE_KEY (latest_timestamp e) s))
        = latest_timestamp e) as Hstamp.
{ unfold Read.last_rebalance_time, Read.global_field, set_global. cbn [globals].
  rewrite lookup_insert_ne by (rebalance_keys; discriminate).
  by rewrite lookup_insert_eq. }
repeat split; [done | |].
- unfold rebalance_count at 1, set_global. cbn [globals]. by rewrite lookup_insert_eq.
- intros e' Hcheck Hsoon.
  rewrite (rebalance_call e' _ _ check_rebalance_needed Hcheck)
    by (destruct Hcheck as (_ & _ & ?); reflexivity).
  rewrite check_rebalance_needed_cases, Hstamp.
  destruct (Z.ltb_spec (latest_timestamp e') (latest_timestamp e)); [lia |].
  destruct (Z.leb_spec MIN_REBALANCE_INTERVAL (latest_timestamp e' - latest_timestamp e));
    [lia |].
  reflexivity.
Qed.

Lemma rebalance_starts_cooldown_witness :
call app (Sample2.check_rebalance_env 6000)
  (fst (call app (Sample.rebalance_env 100) Sample2.rebalance_drifted))
= (fst (call app (Sample.rebalance_env 100) Sample2.rebalance_drifted),
   Rejected ReturnedZero).
Proof.
refine (proj2 (proj2 (proj2 (rebalance_starts_cooldown (Sample.rebalance_env 100)
          Sample2.rebalance_drifted _ _ _))) (Sample2.check_rebalance_env 6000) _ _).
- repeat split; vm_compute; lia.
- vm_compute. reflexivity.
- repeat split; vm_compute; lia.
- split; evaluate.
Defined.

End RebalanceMore.

(** ** The rebalance engine's global state *)

Section RebalanceGuard.

Import RebalanceEngine.

Lemma update_funding_rate_cases (e : env) (s : store) (rate : Z) :
args_length e = 2 ->
arg_is e 1 rate ->
update_funding_rate e s =
  if rate <=? 1000000 then Done 1 (set_global FUNDING_RATE_KEY rate s)
  else Stop InvalidFundingRate s.
Proof.
intros Hlen Hrate. unfold update_funding_rate.
rewrite Assert_step by side. rewrite (arg_decodes _ _ _ _ _ Hrate).
by destruct (rate <=? 1000000).
Qed.

(** X24. [update_funding] stores the rate it is given exactly when the rate
  is at most 1000000, and is refused with [InvalidFundingRate] above that;
  the sender is not checked, so any account may set the rate. *)
Theorem funding_rate_call (e : env) (s : store) (rate : Z) :
invokes e "update_funding" ->
args_length e = 2 ->
arg_is e 1 rate ->
(rate <= 1000000 ->
 call app e s = (set_global FUNDING_RATE_KEY rate s, Approved)
 ∧ Read.funding_rate (fst (call app e s)) = rate)
∧ (rate > 1000000 -> call app e s = (s, Rejected InvalidFundingRate)).
Proof.
intros Hinv Hlen Hrate.
rewrite (rebalance_invokes e s _ update_funding_rate Hinv)
  by (destruct Hinv as (_ & _ & ?); reflexivity).
rewrite (update_funding_rate_cases _ _ _ Hlen Hrate).
destruct (Z.leb_spec rate 1000000); cbn [settle Z.eqb fst]; split; try lia; try done.
intros _. split; [done |].
unfold Read.funding_rate, Read.global_field, set_global. cbn [globals].
by rewrite lookup_insert_eq.
Qed.

Lemma funding_rate_call_witness :
call app (Sample2.funding_env 1000001) Sample.rebalance_deployed
= (Sample.rebalance_deployed, Rejected InvalidFundingRate).
Proof.
refine (proj2 (funding_rate_call (Sample2.funding_env 1000001)
                 Sample.rebalance_deployed 1000001 _ _ _) _).
- repeat split; vm_compute; lia.
- reflexivity.
- eexists; repeat split; vm_compute; lia.
- evaluate.
Defined.

(** X25. A [distribute_yield] whose companion payment goes to the
  application and carries exactly the declared amount is approved and adds
  that amount to the yield pool, unless the pool would overflow; nothing
  else changes. *)
Theorem yield_is_added (e : env) (s : store) (declared : Z)
  (g g' : gtxn) (rest : list gtxn) :
invokes e "distribute_yield" ->
args_length e = 2 ->
arg_is e 1 declared ->
Gtxn e = g :: g' :: rest ->
type_enum g = Payment ->
receiver g = current_application_address e ->
amount g = declared ->
(yield_pool s + declared <= u64_max ->
 call app e s = (set_global YIELD_POOL_KEY (yield_pool s + declared) s, Approved)
 ∧ yield_pool (fst (call app e s)) = yield_pool s + declared)
∧ (yield_pool s + declared > u64_max ->
   call app e s = (s, Rejected ArithOverflow)).
Proof.
intros Hinv Hlen Hd Hgrp Htype Hrecv Hpaid.
rewrite (rebalance_invokes e s _ distribute_yield Hinv)
  by (destruct Hinv as (_ & _ & ?); reflexivity).
assert (distribute_yield e s
        = (pool' ← add (yield_pool s) declared;
           globalPut YIELD_POOL_KEY pool';; Return 1) s) as ->.
{ unfold distribute_yield. rewrite Assert_step by side.
  rewrite Assert_step by (unfold group_size; rewrite Hgrp; cbn [length]; side).
  rewrite (arg_decodes _ _ _ _ _ Hd).
  rewrite (group_step _ _ 0 g) by (by rewrite Hgrp).
  rewrite Assert_step by (by rewrite Htype).
  rewrite Assert_step by (rewrite Hrecv; apply String.eqb_refl).
  rewrite Assert_step by side.
  by rewrite globalGet_step. }
split.
- intros Hfit. rewrite add_step by done. rewrite globalPut_step.
  unfold Return, mret, M_ret. cbn [settle Z.eqb fst].
  split; [done |].
  unfold yield_pool at 1. cbn [globals]. by rewrite lookup_insert_eq.
- intros Hbig.
  assert (add (yield_pool s) declared s = Stop ArithOverflow s) as Hadd.
  { unfold add. destruct (Z.gtb_spec (yield_pool s + declared) u64_max); [done | lia]. }
  by rewrite (bind_halt _ _ _ _ _ Hadd).
Qed.

Lemma yield_is_added_witness :
yield_pool (fst (call app (Sample.yield_env 1000 1000) Sample.rebalance_deployed))
= yield_pool Sample.rebalance_deployed + 1000.
Proof.
refine (proj2 (proj1 (yield_is_added (Sample.yield_env 1000 1000)
          Sample.rebalance_deployed 1000
          (mkGtxn Payment Sample.app_address 1000) Sample.app_call_leg []
          _ _ _ _ _ _ _) _)).
- repeat split; vm_compute; lia.
- reflexivity.
- eexists; repeat split; vm_compute; lia.
- reflexivity.
- reflexivity.
- reflexivity.
- reflexivity.
- evaluate.
Defined.

Lemma engine_clear_state (e : env) (s s1 : store) (v : Z) :
clear_state app e s = Done v s1 -> s1 = s.
Proof. cbn. unfold clear_state_program. intros H. by inv_done H. Qed.

Lemma decoded_nonneg (raw : string) (v : Z) : decodes raw v -> 0 <= v.
Proof. intros H%decodes_range. lia. Qed.

Lemma engine_yield_grows (e : env) (s s' : store) (r : receipt) :
application_id (Txn e) ≠ 0 ->
call app e s = (s', r) ->
yield_pool s <= yield_pool s'.
Proof.
intros Hid.
apply (call_global_related app YIELD_POOL_KEY e Z.le); [lia | |].
- intros s0 v s1 _ H. cbn [approval app] in H.
  rebalance_paths H; bool_facts; try done.
  all: cbn [globals]; rebalance_keys; simplify_map_eq; try lia.
  all: match goal with
       | Hd : decodes _ ?q |- _ <= _ + ?q => apply decoded_nonneg in Hd; lia
       end.
- intros v s1 ->%engine_clear_state. lia.
Qed.

Lemma engine_rate_bounded (e : env) (s s' : store) (r : receipt) :
application_id (Txn e) ≠ 0 ->
call app e s = (s', r) ->
Read.funding_rate s <= 1000000 -> Read.funding_rate s' <= 1000000.
Proof.
intros Hid Hcall.
refine (call_global_related app FUNDING_RATE_KEY e
          (fun old new => old <= 1000000 -> new <= 1000000) s s' r _ _ _ Hcall);
  [done | |].
- intros s0 v s1 _ H. cbn [approval app] in H.
  rebalance_paths H; bool_facts; try done.
  all: cbn [globals]; rebalance_keys; simplify_map_eq; try lia.
- by intros v s1 ->%engine_clear_state.
Qed.

Lemma engine_no_locals (e : env) (s s' : store) (r : receipt) :
application_id (Txn e) ≠ 0 ->
call app e s = (s', r) ->
locals s = ∅ -> locals s' = ∅.
Proof.
intros Hid Hcall Hnone.
destruct r as [| err]; [| by apply call_Rejected in Hcall as ->].
apply call_Approved in Hcall.
destruct (on_completion (Txn e)) eqn:Hoc; cbn [approval clear_state app] in Hcall.
- destruct Hcall as (v & H & _). rebalance_paths H; bool_facts; done.
- destruct Hcall as (_ & v & H & _). rebalance_paths H; bool_facts; congruence.
- destruct Hcall as ([m Hm] & _). by rewrite Hnone in Hm.
- destruct Hcall as ([m Hm] & _). by rewrite Hnone in Hm.
- destruct Hcall as (v & H & _). rebalance_paths H; bool_facts; done.
- destruct Hcall as (v & H & _). rebalance_paths H; bool_facts; done.
Qed.

(** X26. What the calls to a deployed engine can do to its global state:
  the target delta changes only in a call sent by the creator, the yield
  pool never shrinks, a funding rate of at most 1000000 stays at most
  1000000, and no account ever gets local state (the router has no arm for
  opting in). *)
Theorem engine_globals_guarded (e : env) (s s' : store) (r : receipt) :
application_id (Txn e) ≠ 0 ->
call app e s = (s', r) ->
(sender (Txn e) ≠ creator_address e -> Read.target_delta s' = Read.target_delta s)
∧ yield_pool s <= yield_pool s'
∧ (Read.funding_rate s <= 1000000 -> Read.funding_rate s' <= 1000000)
∧ (locals s = ∅ -> locals s' = ∅).
Proof.
intros Hid Hcall.
split; [| split; [by eapply engine_yield_grows |
                  split; [by eapply engine_rate_bounded | by eapply engine_no_locals]]].
intros Hother. revert Hcall.
apply (call_global_related app TARGET_DELTA_KEY e (fun old new => new = old));
  [done | |].
- intros s0 v s1 _ H. cbn [approval app] in H.
  rebalance_paths H; bool_facts; try done.
  all: cbn [globals]; rebalance_keys; by simplify_map_eq.
- by intros v s1 ->%engine_clear_state.
Qed.

Lemma engine_globals_guarded_witness :
Read.target_delta
  (fst (call app (Sample2.target_env Sample2.outsider 700) Sample.rebalance_deployed))
= Read.target_delta Sample.rebalance_deployed.
Proof.
refine (proj1 (engine_globals_guarded (Sample2.target_env Sample2.outsider 700)
                 Sample.rebalance_deployed _ (Rejected Unauthorized) _ _) _).
- vm_compute. discriminate.
- vm_compute. reflexivity.
- vm_compute. discriminate.
Defined.

(** The approval program of the engine never writes local state, and the
  router has no arm for opting in or closing out: after a call an account
  holds the record it held before, if it still holds one. *)
Lemma engine_locals_kept (e : env) (s s' : store) (r : receipt) (a : string)
  (m : gmap string Z) :
application_id (Txn e) ≠ 0 ->
call app e s = (s', r) ->
locals s' !! a = Some m -> locals s !! a = Some m.
Proof.
intros Hid Hcall.
destruct r as [| err]; [| by apply call_Rejected in Hcall as ->].
apply call_Approved in Hcall.
destruct (on_completion (Txn e)) eqn:Hoc; cbn [approval clear_state app] in Hcall.
- destruct Hcall as (v & H & _). rebalance_paths H; bool_facts; done.
- destruct Hcall as (_ & v & H & _). rebalance_paths H; bool_facts; congruence.
- destruct Hcall as (_ & v & s1 & H & _ & ->).
  rebalance_paths H; bool_facts; congruence.
- destruct Hcall as (_ & ->).
  destruct (clear_state_program e s) as [v s1 | err s1] eqn:Hclear.
  + apply (engine_clear_state e s s1 v) in Hclear as ->.
    unfold settle, release. destruct (v =? 0); cbn [fst locals];
      by intros [_ ?]%lookup_delete_Some.
  + unfold settle, release. cbn [fst locals]. by intros [_ ?]%lookup_delete_Some.
- destruct Hcall as (v & H & _). rebalance_paths H; bool_facts; done.
- destruct Hcall as (v & H & _). rebalance_paths H; bool_facts; done.
Qed.

(** X27. In every store reachable from the deployment of the engine the
  funding rate is between 0 and 1000000 and the yield pool is not negative.
  No key is ever written to local state: the only record there can be is
  the empty one the ledger gives to a creator whose creation transaction
  opted in, so every record is empty and at most one account holds one. *)
Theorem engine_reachable_bounds (now : Z) (s : store) :
reachable app now s ->
0 <= Read.funding_rate s <= 1000000
∧ 0 <= yield_pool s
∧ (∀ a m, locals s !! a = Some m -> m = ∅)
∧ (∀ a b, is_Some (locals s !! a) -> is_Some (locals s !! b) -> a = b).
Proof.
induction 1 as [e s Hid Hcreate | now e s s' r Hreach IH Hid Hclock Hcall].
- apply create_Approved in Hcreate as (s0 & v & Hs0 & H & _).
  cbn [approval app] in H.
  assert (locals s = locals s0
          ∧ 0 <= Read.funding_rate s <= 1000000 ∧ 0 <= yield_pool s)
    as (Hlocals & Hrate & Hpool).
  { rebalance_paths H; bool_facts; try done.
    unfold Read.funding_rate, Read.global_field, yield_pool. cbn [globals locals].
    rebalance_keys. simplify_map_eq. repeat split; lia. }
  repeat split; [lia | lia | lia | |]; rewrite Hlocals.
  + intros a m. destruct Hs0 as [-> | ->]; unfold allocate, empty_store; cbn [locals].
    * by rewrite lookup_empty.
    * rewrite lookup_insert. case_decide; [congruence | by rewrite lookup_empty].
  + intros a b. destruct Hs0 as [-> | ->]; unfold allocate, empty_store; cbn [locals].
    * rewrite lookup_empty. by intros [? ?].
    * rewrite !lookup_insert. repeat case_decide; try congruence;
        rewrite lookup_empty; by intros [? ?] || by intros _ [? ?].
- destruct IH as ([Hlow Hhigh] & Hpool & Hempty & Hone).
  pose proof (engine_yield_grows _ _ _ _ Hid Hcall).
  pose proof (engine_rate_bounded _ _ _ _ Hid Hcall) as Hrate.
  assert (0 <= Read.funding_rate s -> 0 <= Read.funding_rate s') as Hnonneg.
  { refine (call_global_related app FUNDING_RATE_KEY e
              (fun old new => 0 <= old -> 0 <= new) s s' r _ _ _ Hcall); [done | |].
    - intros s0 v s1 _ H0. cbn [approval app] in H0.
      rebalance_paths H0; bool_facts; try done.
      all: cbn [globals]; rebalance_keys; simplify_map_eq; try lia.
      all: match goal with
           | Hd : decodes _ ?q |- _ -> 0 <= ?q => apply decoded_nonneg in Hd; lia
           end.
    - by intros v s1 ->%engine_clear_state. }
  repeat split; [by apply Hnonneg | by apply Hrate | lia | |].
  + intros a m Hm. eapply Hempty, engine_locals_kept; done.
  + intros a b [ma Ha] [mb Hb]. apply Hone; eexists; eapply engine_locals_kept; done.
Qed.

Lemma sample_engine_reachable :
reachable app 1200
  (fst (call app (Sample2.funding_env 2500) Sample.rebalance_deployed)).
Proof.
apply (reachable_call app 1000 (Sample2.funding_env 2500)
         Sample.rebalance_deployed _ Approved).
- apply (reachable_create app Sample.creation_env); reflexivity.
- simpl; lia.
- simpl; lia.
- reflexivity.
Defined.

Lemma sample_engine_opted_in_reachable :
reachable app 1000 Sample2.engine_created_opted_in.
Proof. apply (reachable_create app Sample2.creation_opt_in_env); reflexivity. Defined.

Lemma engine_reachable_bounds_witness :
0 <= Read.funding_rate
       (fst (call app (Sample2.funding_env 2500) Sample.rebalance_deployed))
  <= 1000000
∧ (∀ m, locals Sample2.engine_created_opted_in !! Sample.creator = Some m -> m = ∅).
Proof.
split.
- exact (proj1 (engine_reachable_bounds 1200 _ sample_engine_reachable)).
- exact (proj1 (proj2 (proj2 (engine_reachable_bounds 1000
                  Sample2.engine_created_opted_in
                  sample_engine_opted_in_reachable))) Sample.creator).
Defined.

End RebalanceGuard.

(** ** The plain price oracle *)

Ltac feed_keys :=
  unfold PriceOracle.CURRENT_PRICE_KEY, PriceOracle.LAST_UPDATE_KEY,
    PriceOracle.ORACLE_COUNT_KEY, PriceOracle.CIRCUIT_BREAKER_KEY in *.

(** Every way the plain oracle's approval program can finish. *)
Ltac feed_paths H :=
  unfold PriceOracle.approval_program, Cond, completion_is, method_is,
    PriceOracle.on_creation, PriceOracle.add_oracle, PriceOracle.submit_price,
    PriceOracle.get_price, PriceOracle.trigger_circuit_breaker,
    PriceOracle.reset_circuit_breaker in H;
  inv_done H.

Section Feed.

Import PriceOracle.

Lemma feed_route (e : env) (s : store) (name : string) :
invokes e name ->
approval_program e s =
  Cond [
    (mret (String.eqb name "add_oracle"), add_oracle e);
    (mret (String.eqb name "submit_price"), submit_price e);
    (mret (String.eqb name "get_price"), get_price e);
    (mret (String.eqb name "trigger_breaker"), trigger_circuit_breaker e);
    (mret (String.eqb name "reset_breaker"), reset_circuit_breaker e)
  ] s.
Proof.
intros (Hid & Hoc & Harg). apply Z.eqb_neq in Hid.
unfold approval_program, Cond, completion_is, method_is.
unfold mbind, M_bind, mret, M_ret, arg. rewrite Hid, Hoc, Harg. reflexivity.
Qed.

Lemma feed_submit (e : env) (s : store) :
invokes e "submit_price" -> call app e s = settle s (submit_price e s).
Proof.
intros Hinv. rewrite call_noop by apply Hinv. cbn [approval app].
by rewrite (feed_route _ _ _ Hinv).
Qed.

Lemma feed_submit_cases (e : env) (s : store) (p : Z) :
args_length e = 2 ->
arg_is e 1 p ->
submit_price e s =
  if current_price s * MAX_PRICE_DEVIATION >? u64_max then Stop ArithOverflow s
  else if Z.abs (p - current_price s) <=? current_price s * MAX_PRICE_DEVIATION / 10000
  then Done 1 (set_global LAST_UPDATE_KEY (latest_timestamp e)
                 (set_global CURRENT_PRICE_KEY p s))
  else Stop DeviationExceeded s.
Proof.
intros Hlen Hp. unfold submit_price, current_price.
rewrite Assert_step by side. rewrite (arg_decodes _ _ _ _ _ Hp).
rewrite globalGet_step.
set (c := default 0 (globals s !! CURRENT_PRICE_KEY)).
assert (∀ (f : Z -> M Z),
          (d ← (if p >? c then sub p c else sub c p); f d) s = f (Z.abs (p - c)) s) as ->.
{ intros f. destruct (Z.gtb_spec p c).
  - rewrite sub_step by lia. f_equal. lia.
  - rewrite sub_step by lia. f_equal. lia. }
destruct (Z.gtb_spec (c * MAX_PRICE_DEVIATION) u64_max).
- by rewrite mul_halt by lia.
- rewrite mul_step by lia. rewrite div_step by done.
  by destruct (Z.abs (p - c) <=? c * MAX_PRICE_DEVIATION / 10000).
Qed.

(** X28. The plain oracle takes a price from anyone.  Its [submit_price] is
  approved exactly when the price lies within 5 percent of the current one
  (and [current_price * 500] fits in a [uint64]); the sender, the oracle
  counter and the circuit breaker are not consulted, so prices are accepted
  while the breaker is set.  An approved call writes the price and the time
  of the call and nothing else. *)
Theorem feed_submit_exact (e : env) (s : store) (p : Z) :
invokes e "submit_price" ->
args_length e = 2 ->
arg_is e 1 p ->
let near :=
  current_price s * MAX_PRICE_DEVIATION <= u64_max
  ∧ Z.abs (p - current_price s) <= current_price s * MAX_PRICE_DEVIATION / 10000 in
(near ->
 call app e s
 = (set_global LAST_UPDATE_KEY (latest_timestamp e) (set_global CURRENT_PRICE_KEY p s),
    Approved)
 ∧ current_price (fst (call app e s)) = p
 ∧ circuit_breaker (fst (call app e s)) = circuit_breaker s)
∧ (¬ near -> ∃ err, call app e s = (s, Rejected err)).
Proof.
intros Hinv Hlen Hp near. subst near.
rewrite (feed_submit _ _ Hinv), (feed_submit_cases _ _ _ Hlen Hp).
destruct (Z.gtb_spec (current_price s * MAX_PRICE_DEVIATION) u64_max).
{ split; [lia | by eexists]. }
destruct (Z.leb_spec (Z.abs (p - current_price s))
            (current_price s * MAX_PRICE_DEVIATION / 10000)).
- cbn [settle Z.eqb fst]. split; [| intros Hn; exfalso; apply Hn; lia].
  intros _. split; [done |].
  unfold current_price, circuit_breaker, set_global. cbn [globals].
  feed_keys. by simplify_map_eq.
- split; [lia | by eexists].
Qed.

Lemma feed_submit_exact_witness :
current_price
  (fst (call app (Sample2.feed_submit_env 260000)
          (set_global CIRCUIT_BREAKER_KEY 1 Sample2.feed_deployed)))
= 260000.
Proof.
refine (proj1 (proj2 (proj1 (feed_submit_exact (Sample2.feed_submit_env 260000)
          (set_global CIRCUIT_BREAKER_KEY 1 Sample2.feed_deployed) 260000 _ _ _) _))).
- repeat split; vm_compute; lia.
- reflexivity.
- eexists; repeat split; vm_compute; lia.
- split; evaluate.
Defined.

Lemma feed_clear_state (e : env) (s s1 : store) (v : Z) :
clear_state app e s = Done v s1 -> s1 = s.
Proof. cbn. unfold clear_state_program. intros H. by inv_done H. Qed.

(** X29. Starting from the seed price 250000, the price of the plain oracle
  never falls below 19 (so never to 0) in any store reachable from
  deployment: each accepted price is within a twentieth, rounded down, of
  the one before, and below 20 that twentieth is 0. *)
Theorem feed_price_floor (now : Z) (s : store) :
reachable app now s -> 19 <= current_price s.
Proof.
induction 1 as [e s Hid Hcreate | now e s s' r Hreach IH Hid Hclock Hcall].
- apply create_Approved in Hcreate as (s0 & v & [-> | ->] & H & _).
  all: cbn [approval app] in H; feed_paths H; bool_facts; try done.
- revert IH.
  refine (call_global_related app CURRENT_PRICE_KEY e
            (fun old new => 19 <= old -> 19 <= new) s s' r _ _ _ Hcall); [done | |].
  + intros s0 v s1 _ H. cbn [approval app] in H.
    feed_paths H; bool_facts; try done.
    all: cbn [globals]; feed_keys; simplify_map_eq; try lia.
    all: unfold MAX_PRICE_DEVIATION in *; intros Hold;
      Z.div_mod_to_equations; lia.
  + by intros v s1 ->%feed_clear_state.
Qed.

Lemma sample_feed_reachable :
reachable app 1300 (fst (call app (Sample2.feed_submit_env 240000) Sample2.feed_deployed)).
Proof.
apply (reachable_call app 1000 (Sample2.feed_submit_env 240000)
         Sample2.feed_deployed _ Approved).
- apply (reachable_create app Sample.creation_env); reflexivity.
- simpl; lia.
- simpl; lia.
- reflexivity.
Defined.

Lemma feed_price_floor_witness :
19 <= current_price
        (fst (call app (Sample2.feed_submit_env 240000) Sample2.feed_deployed)).
Proof.
exact (feed_price_floor 1300 _ sample_feed_reachable).
Defined.

End Feed.
